(** * The Puter/Ollama prompt router: model and properties

    A shallow embedding of the routing and credential code of the repository

    - [llm/llm_adapters.py]: token cache, Node bridge invocation, forced
      re-authentication, keyed and bridge dispatch, [ask_router];
    - [core/cognitive_system.py]: [_upsert_env_var], [_token_sha256] and the
      part of [command_puter_login] that stores a token;
    - [skills/qtmos-http-tools/scripts/route_prompt.py]: task classification
      and automatic candidate lists.

    Python text is modelled by [string], one [ascii] per code point, so the
    model covers texts whose code points are below 256.  Effects are modelled
    by a state-and-exception monad over a [World] (process environment, files,
    chronological history of events); the answers of the outside world (HTTP
    servers, child processes) are given by an oracle that sees the history. *)

From Stdlib Require Import ZArith NArith Ascii String List Bool Lia.
From stdpp Require Import base option list gmap strings.

Local Open Scope Z_scope.

(** ** Python text operations *)

Module Text.

Import Stdlib.Strings.String.

(** [str.isspace] on the code points below 256. *)
Definition isspace (c : ascii) : bool :=
  match c with
  | "009" | "010" | "011" | "012" | "013"
  | "028" | "029" | "030" | "031" | " " | "133" | "160" => true
  | _ => false
  end%char.

(** The line boundaries of [str.splitlines] below 256. *)
Definition is_linebreak (c : ascii) : bool :=
  match c with
  | "010" | "011" | "012" | "013" | "028" | "029" | "030" | "133" => true
  | _ => false
  end%char.

(** ["".join(s.split())]: every whitespace character is dropped. *)
Fixpoint remove_ws (s : string) : string :=
  match s with
  | EmptyString => EmptyString
  | String c s' => if isspace c then remove_ws s' else String c (remove_ws s')
  end.

Fixpoint lstrip (s : string) : string :=
  match s with
  | EmptyString => EmptyString
  | String c s' => if isspace c then lstrip s' else s
  end.

Fixpoint rstrip (s : string) : string :=
  match s with
  | EmptyString => EmptyString
  | String c s' =>
      match rstrip s' with
      | EmptyString => if isspace c then EmptyString else String c EmptyString
      | r => String c r
      end
  end.

Definition strip (s : string) : string := lstrip (rstrip s).

(** [str.splitlines()]: a carriage return followed by a line feed is one
    boundary, and a final boundary opens no further line. *)
Fixpoint splitlines (s : string) : list string :=
  match s with
  | EmptyString => []
  | String c s' =>
      if is_linebreak c then
        EmptyString ::
          (if Ascii.eqb c "013" then
             match s' with
             | String d s'' => if Ascii.eqb d "010" then splitlines s'' else splitlines s'
             | EmptyString => splitlines s'
             end
           else splitlines s')
      else
        match splitlines s' with
        | [] => [String c EmptyString]
        | l :: ls => String c l :: ls
        end
  end.

(** [sep.join(ls)]. *)
Fixpoint join (sep : string) (ls : list string) : string :=
  match ls with
  | [] => EmptyString
  | l :: ls' =>
      match ls' with
      | [] => l
      | _ :: _ => l +:+ sep +:+ join sep ls'
      end
  end.

Definition startswith (p s : string) : bool := prefix p s.

Fixpoint endswith (suf s : string) : bool :=
  String.eqb s suf
  || match s with
     | EmptyString => false
     | String _ s' => endswith suf s'
     end.

(** [p in s] for texts. *)
Fixpoint contains (p s : string) : bool :=
  prefix p s
  || match s with
     | EmptyString => false
     | String _ s' => contains p s'
     end.

Definition in_range (lo hi : N) (c : ascii) : bool :=
  ((lo <=? N_of_ascii c) && (N_of_ascii c <=? hi))%N.

(** [str.lower()], character by character: the capital letters below 256
    are A-Z and the accented capitals 192-222 without the multiplication
    sign 215. *)
Definition lower_char (c : ascii) : ascii :=
  if in_range 65 90 c || in_range 192 214 c || in_range 216 222 c
  then ascii_of_N (N_of_ascii c + 32)
  else c.

Fixpoint lower (s : string) : string :=
  match s with
  | EmptyString => EmptyString
  | String c s' => String (lower_char c) (lower s')
  end.

(** [str.upper()]: the sharp s becomes [SS].  The capitals of the micro
    sign (181) and of y with diaeresis (255) lie above 255; they are kept
    as they are, which no comparison with an ASCII text can observe. *)
Definition upper_char (c : ascii) : string :=
  if in_range 97 122 c || in_range 224 246 c || in_range 248 254 c
  then String (ascii_of_N (N_of_ascii c - 32)) EmptyString
  else if N.eqb (N_of_ascii c) 223 then "SS"
  else String c EmptyString.

Fixpoint upper (s : string) : string :=
  match s with
  | EmptyString => EmptyString
  | String c s' => upper_char c +:+ upper s'
  end.

(** Characters written by their code, for the texts of the examples. *)
Definition LF : string := String "010"%char EmptyString.
Definition CR : string := String "013"%char EmptyString.
Definition DQ : string := String "034"%char EmptyString.

End Text.

Import Text.

(** ** Python values, exceptions and the runtime library *)

(** The values [json.loads] can return.  A float is kept as the two things the
    code can observe of it: whether it is zero (truthiness) and its text. *)
#[warnings="-register-all"]
Inductive pyval : Type :=
| PNone
| PBool (b : bool)
| PInt (n : Z)
| PFloat (is_zero : bool) (text : string)
| PStr (s : string)
| PList (l : list pyval)
| PDict (d : list (string * pyval)).

(** Truthiness, as in [if v:] and [v or w]. *)
Definition truthy (v : pyval) : bool :=
  match v with
  | PNone => false
  | PBool b => b
  | PInt n => negb (n =? 0)
  | PFloat z _ => negb z
  | PStr s => negb (String.eqb s EmptyString)
  | PList l => match l with [] => false | _ => true end
  | PDict d => match d with [] => false | _ => true end
  end.

(** A dict is an association list read from the left. *)
Fixpoint assoc (k : string) (d : list (string * pyval)) : option pyval :=
  match d with
  | [] => None
  | (k', v) :: d' => if String.eqb k k' then Some v else assoc k d'
  end.

(** [d.get(k)] and [d.get(k, dflt)]. *)
Definition dict_get (d : list (string * pyval)) (k : string) : pyval :=
  default PNone (assoc k d).

Definition dict_get_or (d : list (string * pyval)) (k : string) (dflt : pyval) : pyval :=
  default dflt (assoc k d).

(** The exceptions the outside world can raise; all of them are subclasses of
    [Exception], so [except Exception] and a bare [except] catch them all. *)
Inductive PyExc : Type :=
| RequestException | HTTPError | JSONDecodeError | AttributeError
| TimeoutExpired | FileNotFoundError | OSError | UnicodeDecodeError
| ValueError.

(** Library functions the code calls and the repository does not define:
    [json.loads] ([None] when it raises) and the [repr] of floats, lists and
    dicts behind [str()]. *)
Class PyRuntime : Type := {
  json_loads : string -> option pyval;
  py_repr : pyval -> string
}.

(** Decimal text of an integer. *)
Fixpoint digits_of_pos (fuel : nat) (p : positive) (acc : string) : string :=
  match fuel with
  | O => acc
  | S fuel' =>
      let d := String (ascii_of_N (48 + (N.pos p mod 10))) acc in
      match (N.pos p / 10)%N with
      | N0 => d
      | Npos q => digits_of_pos fuel' q d
      end
  end.

Definition str_of_Z (n : Z) : string :=
  match n with
  | Z0 => "0"
  | Zpos p => digits_of_pos (Pos.to_nat p) p EmptyString
  | Zneg p => String "-"%char (digits_of_pos (Pos.to_nat p) p EmptyString)
  end.

(** [str(v)]. *)
Definition py_str `{PyRuntime} (v : pyval) : string :=
  match v with
  | PNone => "None"
  | PBool true => "True"
  | PBool false => "False"
  | PInt n => str_of_Z n
  | PStr s => s
  | PFloat _ t => t
  | PList _ | PDict _ => py_repr v
  end.

(** [str(v or "")]. *)
Definition str_or_empty `{PyRuntime} (v : pyval) : string :=
  if truthy v then py_str v else EmptyString.

(** [a or b] where [a] comes from [os.getenv] or a default argument. *)
Definition or_str (a : option string) (b : string) : string :=
  match a with
  | Some s => if String.eqb s EmptyString then b else s
  | None => b
  end.

(** ** The world: environment, files, history, and the outside *)

Inductive file : Type :=
| Undecodable
| TextFile (content : string).

Inductive Event : Type :=
| KeyedPost (key model prompt : string)
| OllamaPost (model prompt : string)
| GeminiGenerate (prompt : string)
| Spawn (argv : list string) (env : gmap string string)
| CallBootstrap (force : bool)
| CallBridge (argv : list string) (require_token : bool).

Record World : Type := mkWorld {
  environ : gmap string string;
  files : gmap string file;
  history : list Event
}.

Inductive HttpOutcome : Type :=
| HttpRaises (e : PyExc)
| HttpResponse (status_code : Z) (json : option pyval).

Inductive ProcOutcome : Type :=
| ProcRaises (e : PyExc)
| ProcCompleted (returncode : Z) (stdout : option string).

Inductive GeminiOutcome : Type :=
| GeminiRaises (e : PyExc)
| GeminiText (text : pyval).

(** What the outside world answers to the last event of a history. *)
Record Outside : Type := mkOutside {
  http_answer : list Event -> HttpOutcome;
  process_answer : list Event -> ProcOutcome;
  gemini_answer : list Event -> GeminiOutcome
}.

(** ** The state-and-exception monad *)

Inductive Res (A : Type) : Type :=
| Ok (a : A)
| Raised (e : PyExc).
Arguments Ok {A} a.
Arguments Raised {A} e.

Definition M (A : Type) : Type := World -> Res A * World.

Definition ret {A} (a : A) : M A := fun w => (Ok a, w).

Definition bind {A B} (m : M A) (f : A -> M B) : M B := fun w =>
  match m w with
  | (Ok a, w') => f a w'
  | (Raised e, w') => (Raised e, w')
  end.

Declare Scope py_scope.
Delimit Scope py_scope with py.
Notation "x ← y ; z" := (bind y (fun x => z))
  (at level 20, y at level 100, z at level 200, only parsing) : py_scope.
Notation "x ;; z" := (bind x (fun _ => z))
  (at level 100, z at level 200, only parsing, right associativity) : py_scope.
Open Scope py_scope.

Definition raise {A} (e : PyExc) : M A := fun w => (Raised e, w).

(** [try: body  except Exception: handler]; the state reached when the
    exception was raised is kept. *)
Definition try_except {A} (body handler : M A) : M A := fun w =>
  match body w with
  | (Ok a, w') => (Ok a, w')
  | (Raised _, w') => handler w'
  end.

Definition emit (e : Event) : M unit := fun w =>
  (Ok tt, mkWorld (environ w) (files w) (history w ++ [e])).

Definition getenv (k : string) : M (option string) := fun w =>
  (Ok (environ w !! k), w).

(** [c in chars]. *)
Fixpoint char_in (c : ascii) (chars : string) : bool :=
  match chars with
  | EmptyString => false
  | String d chars' => Ascii.eqb c d || char_in c chars'
  end.

Definition NUL : ascii := "000"%char.

(** Setting an environment variable raises [ValueError] (embedded null
    byte) when its name or its value holds a NUL character. *)
Definition putenv_fails (key val : string) : bool :=
  char_in NUL key || char_in NUL val.

(** [os.environ[k] = v]: nothing is set when the assignment raises. *)
Definition setenv (k v : string) : M unit := fun w =>
  if putenv_fails k v then (Raised ValueError, w)
  else (Ok tt, mkWorld (<[k := v]> (environ w)) (files w) (history w)).

Definition get_environ : M (gmap string string) := fun w => (Ok (environ w), w).

Definition path_exists (p : string) : M bool := fun w =>
  (Ok (bool_decide (is_Some (files w !! p))), w).

Definition get_history : M (list Event) := fun w => (Ok (history w), w).

Definition nonempty (s : string) : bool := negb (String.eqb s EmptyString).

Definition is_none (v : pyval) : bool :=
  match v with PNone => true | _ => false end.

(** [env.setdefault(k, v)] on a copy of the environment. *)
Definition setdefault (k v : string) (m : gmap string string) : gmap string string :=
  match m !! k with
  | Some _ => m
  | None => <[k := v]> m
  end.

(** ** llm/llm_adapters.py *)

Module llm_adapters.

(** The module-level constants read from the environment at import time. *)
Record Config : Type := mkConfig {
  PUTER_KEY : option string;
  PUTER_DEFAULT_MODEL : string;
  PUTER_FALLBACK_MODEL : string;
  PUTER_AUTO_INSTALL_SDK : bool;
  OLLAMA_MODEL : string;
  gemini_enabled : bool
}.

(** Paths are written relative to the project root. *)
Definition PROJECT_ROOT : string := ".".
Definition PUTER_NODE_BRIDGE : string := "llm/puter_node_bridge.cjs".
Definition PUTER_SDK_CHECK_ARG : string := "@heyputer/puter.js/src/init.cjs".

Definition PUTER_AUTH_RETRY_ERRORS : list string :=
  ["MISSING_AUTH_TOKEN"; "INVALID_TOKEN_PLACEHOLDER"; "INIT_FAILED"; "AUTH_BOOTSTRAP_FAILED"].

Definition PUTER_AUTH_RETRY_DETAIL_MARKERS : list string :=
  ["unauthorized"; "forbidden"; "invalid token"; "invalid header value";
   "auth"; "expired"; "session"; "401"; "403"].

Definition sdk_check_argv : list string :=
  ["node"; "-e"; "require.resolve('" +:+ PUTER_SDK_CHECK_ARG +:+ "')"].

Definition npm_install_argv : list string :=
  ["npm"; "install"; "--prefix"; PROJECT_ROOT; "--no-save"; "@heyputer/puter.js"].

Definition chat_argv (chosen prompt : string) : list string :=
  ["chat"; "--model"; chosen; "--prompt"; prompt].

Section Adapters.

Context {RT : PyRuntime} (cfg : Config) (O : Outside).

(** [bool(PUTER_KEY)]. *)
Definition has_key : bool := nonempty (or_str (PUTER_KEY cfg) EmptyString).

(** [requests.post(...)]: the request is recorded, the outside answers. *)
Definition requests_post (e : Event) : M (Z * option pyval) :=
  emit e ;;
  h ← get_history;
  match http_answer O h with
  | HttpRaises x => raise x
  | HttpResponse st j => ret (st, j)
  end.

Definition raise_for_status (st : Z) : M unit :=
  if (400 <=? st) && (st <? 600) then raise HTTPError else ret tt.

(** [r.json()]. *)
Definition response_json (j : option pyval) : M pyval :=
  match j with
  | Some v => ret v
  | None => raise JSONDecodeError
  end.

(** [subprocess.run(argv, capture_output=True, text=True, timeout=..., env=env)]. *)
Definition subprocess_run (argv : list string) (env : gmap string string)
  : M (Z * option string) :=
  emit (Spawn argv env) ;;
  h ← get_history;
  match process_answer O h with
  | ProcRaises x => raise x
  | ProcCompleted rc out => ret (rc, out)
  end.

Definition sdk_resolvable : M bool :=
  try_except
    (env ← get_environ;
     r ← subprocess_run sdk_check_argv env;
     ret (fst r =? 0))
    (ret false).

Definition _ensure_puter_sdk : M bool :=
  ex ← path_exists PUTER_NODE_BRIDGE;
  if negb ex then ret false else
  ok ← sdk_resolvable;
  if ok then ret true else
  if negb (PUTER_AUTO_INSTALL_SDK cfg) then ret false else
  installed ← try_except
                 (env ← get_environ;
                  subprocess_run npm_install_argv env ;;
                  ret true)
                 (ret false);
  if negb installed then ret false else
  sdk_resolvable.

Definition _puter_token : M string :=
  a ← getenv "puterAuthToken";
  b ← getenv "PUTER_AUTH_TOKEN";
  ret (remove_ws (or_str a (or_str b EmptyString))).

Definition _set_puter_token (token : pyval) : M string :=
  let clean := remove_ws (str_or_empty token) in
  if negb (nonempty clean) then ret EmptyString else
  setenv "puterAuthToken" clean ;;
  setenv "PUTER_AUTH_TOKEN" clean ;;
  ret clean.

(** [if isinstance(bit, dict) and bit.get("type") == "text"] keeps the
    [str(bit.get("text", ""))] of a content block. *)
Definition text_bit (bit : pyval) : string :=
  match bit with
  | PDict b =>
      match dict_get b "type" with
      | PStr t => if String.eqb t "text"
                  then py_str (dict_get_or b "text" (PStr EmptyString))
                  else EmptyString
      | _ => EmptyString
      end
  | _ => EmptyString
  end.

(** The OpenAI-style branch: [choices[0].message.content], a text or a list
    of content blocks whose text blocks are concatenated. *)
Definition choices_content (p : list (string * pyval)) : option string :=
  match dict_get p "choices" with
  | PList (PDict c0 :: _) =>
      match dict_get c0 "message" with
      | PDict msg =>
          match dict_get msg "content" with
          | PStr c => Some c
          | PList bits =>
              let merged := strip (String.concat EmptyString (map text_bit bits)) in
              if nonempty merged then Some merged else None
          | _ => None
          end
      | _ => None
      end
  | _ => None
  end.

Definition _extract_chat_content (payload : pyval) : option string :=
  match payload with
  | PDict p =>
      match dict_get p "content" with
      | PStr content =>
          if nonempty (strip content) then Some content else choices_content p
      | _ => choices_content p
      end
  | _ => None
  end.

(** The strings the bridge parser tries, in order: the whole trimmed output,
    then its lines from the last to the first, each trimmed. *)
Definition bridge_candidates (out : string) : list string :=
  out :: map strip (rev (splitlines out)).

Definition looks_like_object (candidate : string) : bool :=
  startswith "{" candidate && endswith "}" candidate.

(** The loop over the candidates: empty ones and those not enclosed in braces
    are skipped, as are those [json.loads] rejects. *)
Fixpoint first_json (candidates : list string) : pyval :=
  match candidates with
  | [] => PNone
  | candidate :: rest =>
      if negb (nonempty candidate) then first_json rest
      else if negb (looks_like_object candidate) then first_json rest
      else match json_loads candidate with
           | Some v => v
           | None => first_json rest
           end
  end.

(** What [_run_puter_node_bridge] does with the standard output of the
    helper. *)
Definition parse_bridge_stdout (stdout : option string) : pyval :=
  let out := strip (or_str stdout EmptyString) in
  if negb (nonempty out) then PNone else first_json (bridge_candidates out).

Definition bridge_env (token : string) (env : gmap string string)
  : gmap string string :=
  if nonempty token
  then setdefault "PUTER_AUTH_TOKEN" token (setdefault "puterAuthToken" token env)
  else env.

Definition _run_puter_node_bridge (argv : list string) (require_token : bool)
  : M pyval :=
  emit (CallBridge argv require_token) ;;
  token ← _puter_token;
  if require_token && negb (nonempty token) then ret PNone else
  ok ← _ensure_puter_sdk;
  if negb ok then ret PNone else
  env ← get_environ;
  r ← try_except
        (r ← subprocess_run ("node" :: PUTER_NODE_BRIDGE :: argv) (bridge_env token env);
         ret (Some (snd r)))
        (ret None);
  match r with
  | None => ret PNone
  | Some stdout => ret (parse_bridge_stdout stdout)
  end.

Definition _bridge_error (payload : pyval) : string :=
  match payload with
  | PDict d => upper (strip (str_or_empty (dict_get d "error")))
  | _ => EmptyString
  end.

Definition _bridge_detail (payload : pyval) : string :=
  match payload with
  | PDict d => lower (strip (str_or_empty (dict_get d "detail")))
  | _ => EmptyString
  end.

Definition _is_bridge_auth_failure (payload : pyval) : bool :=
  let code := _bridge_error payload in
  if existsb (String.eqb code) PUTER_AUTH_RETRY_ERRORS then true else
  let detail := _bridge_detail payload in
  if nonempty detail
     && existsb (fun mark => contains mark detail) PUTER_AUTH_RETRY_DETAIL_MARKERS
  then true
  else false.

(** The result of [_bootstrap_puter_token] is [None] or a text; the callers
    test its truthiness. *)
Definition token_truthy (r : option string) : bool :=
  match r with
  | Some t => nonempty t
  | None => false
  end.

Definition _bootstrap_puter_token (force : bool) : M (option string) :=
  emit (CallBootstrap force) ;;
  if has_key then ret None else
  ex ← path_exists PUTER_NODE_BRIDGE;
  if negb ex then ret None else
  existing ← _puter_token;
  if nonempty existing && negb force then ret (Some existing) else
  payload ← _run_puter_node_bridge ["auth-token"] false;
  match payload with
  | PDict d =>
      if negb (truthy (dict_get d "ok")) then ret None else
      clean ← _set_puter_token (dict_get d "token");
      ret (Some clean)
  | _ => ret None
  end.

Definition _run_puter_bridge_with_reauth (argv : list string) : M pyval :=
  ex ← path_exists PUTER_NODE_BRIDGE;
  if negb ex then ret PNone else
  t ← _puter_token;
  (if negb (nonempty t) then _bootstrap_puter_token false ;; ret tt else ret tt) ;;
  payload ← _run_puter_node_bridge argv true;
  t' ← _puter_token;
  if is_none payload && negb (nonempty t') then
    b ← _bootstrap_puter_token true;
    if token_truthy b then _run_puter_node_bridge argv true else ret PNone
  else if _is_bridge_auth_failure payload then
    b ← _bootstrap_puter_token true;
    if token_truthy b then
      retry ← _run_puter_node_bridge argv true;
      if negb (is_none retry) then ret retry else ret payload
    else ret payload
  else ret payload.

Definition has_puter_auth : M bool :=
  t ← _puter_token;
  ret (has_key || nonempty t).

(** The candidate models of [call_puter_with_model]: the selected model, the
    fallback model when it is another one, and a fixed model when both are
    empty. *)
Definition candidates_for (model : option string) : list string :=
  let selected := strip (or_str model (PUTER_DEFAULT_MODEL cfg)) in
  let candidates := if nonempty selected then [selected] else [] in
  let fallback := strip (PUTER_FALLBACK_MODEL cfg) in
  let candidates :=
    if nonempty fallback && negb (existsb (String.eqb fallback) candidates)
    then candidates ++ [fallback] else candidates in
  match candidates with
  | [] => ["claude-opus-4-6"]
  | _ => candidates
  end.

(** One turn of the keyed loop: the body of the [try], with [except
    Exception: continue] giving [None]. *)
Definition keyed_attempt (prompt chosen : string) : M (option string) :=
  try_except
    (r ← requests_post (KeyedPost (or_str (PUTER_KEY cfg) EmptyString) chosen prompt);
     raise_for_status (fst r) ;;
     j ← response_json (snd r);
     match _extract_chat_content j with
     | Some content => if nonempty content then ret (Some content) else ret None
     | None => ret None
     end)
    (ret None).

Fixpoint keyed_loop (prompt : string) (candidates : list string)
  : M (option (string * string)) :=
  match candidates with
  | [] => ret None
  | chosen :: rest =>
      r ← keyed_attempt prompt chosen;
      match r with
      | Some content => ret (Some (content, chosen))
      | None => keyed_loop prompt rest
      end
  end.

(** [payload.get("ok") and payload.get("content")] on a dict payload. *)
Definition bridge_success (payload : pyval) : option (string * pyval) :=
  match payload with
  | PDict d =>
      if truthy (dict_get d "ok") && truthy (dict_get d "content")
      then Some (py_str (dict_get d "content"), dict_get d "model")
      else None
  | _ => None
  end.

Fixpoint bridge_loop (prompt : string) (candidates : list string)
  : M (option string * option string) :=
  match candidates with
  | [] => ret (None, None)
  | chosen :: rest =>
      payload ← _run_puter_bridge_with_reauth (chat_argv chosen prompt);
      match bridge_success payload with
      | Some (content, m) =>
          ret (Some content, Some (if truthy m then py_str m else chosen))
      | None => bridge_loop prompt rest
      end
  end.

Definition call_puter_with_model (prompt : string) (model : option string)
  : M (option string * option string) :=
  let candidates := candidates_for model in
  r ← (if has_key then keyed_loop prompt candidates else ret None);
  match r with
  | Some (content, chosen) => ret (Some content, Some chosen)
  | None => bridge_loop prompt candidates
  end.

Definition call_puter (prompt : string) (model : option string) : M (option string) :=
  r ← call_puter_with_model prompt model;
  ret (fst r).

Definition query_ollama (prompt : string) (model : option string) : M pyval :=
  let chosen := or_str model (OLLAMA_MODEL cfg) in
  try_except
    (r ← requests_post (OllamaPost chosen prompt);
     r ← (if (fst r =? 404) && negb (String.eqb chosen "llama3:latest")
          then requests_post (OllamaPost "llama3:latest" prompt)
          else ret r);
     raise_for_status (fst r) ;;
     j ← response_json (snd r);
     match j with
     | PDict d => ret (dict_get d "response")
     | _ => raise AttributeError
     end)
    (ret PNone).

(** [GeminiAdapter.ask]. *)
Definition gemini_ask (prompt : string) : M pyval :=
  if negb (gemini_enabled cfg) then ret PNone else
  try_except
    (emit (GeminiGenerate prompt) ;;
     h ← get_history;
     match gemini_answer O h with
     | GeminiRaises x => raise x
     | GeminiText t => ret t
     end)
    (ret PNone).

Definition ask_router (prompt : string) : M (pyval * string) :=
  lo ← getenv "QTM_LOCAL_ONLY";
  let local_only := String.eqb (default "1" lo) "1" in
  resp ← (if negb local_only then call_puter prompt None else ret None);
  if token_truthy resp then ret (PStr (default EmptyString resp), "puter") else
  resp ← query_ollama prompt None;
  if truthy resp then ret (resp, "ollama") else
  resp ← (if negb local_only && gemini_enabled cfg then gemini_ask prompt else ret PNone);
  if truthy resp then ret (resp, "gemini") else
  ret (PNone, "none").

End Adapters.

End llm_adapters.

(** ** hashlib.sha256 *)

(** SHA-256 (FIPS 180-4) on 32-bit words held in [N], with the wrap-around
    written out, as [hashlib.sha256(text.encode("utf-8")).hexdigest()] needs
    it. *)
Module SHA256.

Local Open Scope N_scope.

Definition w32 (x : N) : N := x mod 4294967296.
Definition add32 (x y : N) : N := w32 (x + y).
Definition rotr (n x : N) : N :=
  N.lor (N.shiftr x n) (w32 (N.shiftl x (32 - n))).
Definition not32 (x : N) : N := 4294967295 - x.

Definition Ch (x y z : N) : N := N.lxor (N.land x y) (N.land (not32 x) z).
Definition Maj (x y z : N) : N :=
  N.lxor (N.lxor (N.land x y) (N.land x z)) (N.land y z).
Definition Sigma0 (x : N) : N := N.lxor (N.lxor (rotr 2 x) (rotr 13 x)) (rotr 22 x).
Definition Sigma1 (x : N) : N := N.lxor (N.lxor (rotr 6 x) (rotr 11 x)) (rotr 25 x).
Definition sigma0 (x : N) : N := N.lxor (N.lxor (rotr 7 x) (rotr 18 x)) (N.shiftr x 3).
Definition sigma1 (x : N) : N := N.lxor (N.lxor (rotr 17 x) (rotr 19 x)) (N.shiftr x 10).

Definition K : list N :=
  [ 1116352408; 1899447441; 3049323471; 3921009573; 961987163; 1508970993;
    2453635748; 2870763221; 3624381080; 310598401; 607225278; 1426881987;
    1925078388; 2162078206; 2614888103; 3248222580; 3835390401; 4022224774;
    264347078; 604807628; 770255983; 1249150122; 1555081692; 1996064986;
    2554220882; 2821834349; 2952996808; 3210313671; 3336571891; 3584528711;
    113926993; 338241895; 666307205; 773529912; 1294757372; 1396182291;
    1695183700; 1986661051; 2177026350; 2456956037; 2730485921; 2820302411;
    3259730800; 3345764771; 3516065817; 3600352804; 4094571909; 275423344;
    430227734; 506948616; 659060556; 883997877; 958139571; 1322822218;
    1537002063; 1747873779; 1955562222; 2024104815; 2227730452; 2361852424;
    2428436474; 2756734187; 3204031479; 3329325298 ].

Definition H0 : list N :=
  [ 1779033703; 3144134277; 1013904242; 2773480762;
    1359893119; 2600822924; 528734635; 1541459225 ].

(** UTF-8 of a text whose code points are below 256. *)
Fixpoint utf8 (s : string) : list N :=
  match s with
  | EmptyString => []
  | String c s' =>
      let n := N_of_ascii c in
      if n <? 128 then n :: utf8 s'
      else (192 + n / 64) :: (128 + n mod 64) :: utf8 s'
  end.

Definition be_bytes (count : nat) (x : N) : list N :=
  map (fun i => N.shiftr x (8 * N.of_nat i) mod 256) (rev (seq 0 count)).

(** The message followed by the bit 1, zeros, and its length in bits on 64
    bits, a multiple of 64 bytes in all. *)
Definition pad (msg : list N) : list N :=
  let len := length msg in
  let zeros := ((119 - len mod 64) mod 64)%nat in
  msg ++ [128] ++ repeat 0 zeros ++ be_bytes 8 (8 * N.of_nat len).

Fixpoint words_of (fuel : nat) (bytes : list N) : list N :=
  match fuel, bytes with
  | S fuel', a :: b :: c :: d :: rest =>
      (a * 16777216 + b * 65536 + c * 256 + d) :: words_of fuel' rest
  | _, _ => []
  end.

(** The message schedule, most recent word first. *)
Fixpoint schedule (count : nat) (w : list N) : list N :=
  match count with
  | O => w
  | S count' =>
      let x := add32 (add32 (sigma1 (nth 1 w 0)) (nth 6 w 0))
                     (add32 (sigma0 (nth 14 w 0)) (nth 15 w 0)) in
      schedule count' (x :: w)
  end.

Definition round (st : list N) (kw : N * N) : list N :=
  match st with
  | [a; b; c; d; e; f; g; h] =>
      let t1 := add32 (add32 (add32 h (Sigma1 e)) (add32 (Ch e f g) (fst kw))) (snd kw) in
      let t2 := add32 (Sigma0 a) (Maj a b c) in
      [add32 t1 t2; a; b; c; add32 d t1; e; f; g]
  | _ => st
  end.

Definition compress (st : list N) (block : list N) : list N :=
  let w := rev (schedule 48 (rev (words_of 16 block))) in
  let st' := fold_left round (combine K w) st in
  map (fun p => add32 (fst p) (snd p)) (combine st st').

Fixpoint blocks (fuel : nat) (bytes : list N) (st : list N) : list N :=
  match fuel with
  | O => st
  | S fuel' =>
      match bytes with
      | [] => st
      | _ => blocks fuel' (skipn 64 bytes) (compress st (firstn 64 bytes))
      end
  end.

Definition digest (msg : list N) : list N :=
  let p := pad msg in
  blocks (length p) p H0.

Definition hex_digits : list ascii :=
  ["0"; "1"; "2"; "3"; "4"; "5"; "6"; "7"; "8"; "9"; "a"; "b"; "c"; "d"; "e"; "f"]%char.

Definition hex_digit (d : N) : ascii := nth (N.to_nat d) hex_digits "f"%char.

Definition hex_word (x : N) : list ascii :=
  map (fun i => hex_digit (N.shiftr x (4 * N.of_nat i) mod 16)) (rev (seq 0 8)).

Definition hexdigest (s : string) : string :=
  string_of_list_ascii (flat_map hex_word (digest (utf8 s))).

End SHA256.

(** ** core/cognitive_system.py: the durable sink *)

Module cognitive_system.

Definition LLM_ENV_PATH : string := "llm/.env".

(** [Path.read_text] opens the file with universal newlines: a carriage
    return, alone or before a line feed, is read as a line feed. *)
Fixpoint universal_newlines (s : string) : string :=
  match s with
  | EmptyString => EmptyString
  | String c s' =>
      if Ascii.eqb c "013" then
        String "010"
          (match s' with
           | String d s'' =>
               if Ascii.eqb d "010" then universal_newlines s'' else universal_newlines s'
           | EmptyString => universal_newlines s'
           end)
      else String c (universal_newlines s')
  end.

(** The [lines] of [_upsert_env_var]: none when the file is absent or cannot
    be decoded. *)
Definition read_lines (f : option file) : list string :=
  match f with
  | Some (TextFile content) => splitlines (universal_newlines content)
  | Some Undecodable => []
  | None => []
  end.

Definition key_line (key value : string) : string := key +:+ "=" +:+ value.

Definition is_key_line (key line : string) : bool :=
  startswith (key +:+ "=") (strip line).

(** The [for line in lines] loop, with its two accumulators. *)
Definition upsert_step (key value : string) (acc : list string * bool) (line : string)
  : list string * bool :=
  if is_key_line key line
  then (fst acc ++ [key_line key value], true)
  else (fst acc ++ [line], snd acc).

Definition upsert_loop (key value : string) (lines : list string) : list string * bool :=
  fold_left (upsert_step key value) lines ([], false).

(** The text [_upsert_env_var] writes, from the state of the file. *)
Definition upsert_env_text (old : option file) (key value : string) : string :=
  let r := upsert_loop key value (read_lines old) in
  let out := if snd r then fst r else fst r ++ [key_line key value] in
  rstrip (join LF out) +:+ LF.

Definition _upsert_env_var (env_path key value : string) : M unit := fun w =>
  (Ok tt,
   mkWorld (environ w)
           (<[env_path := TextFile (upsert_env_text (files w !! env_path) key value)]> (files w))
           (history w)).

Definition _token_sha256 (token : string) : string := SHA256.hexdigest token.

(** The part of [command_puter_login] that stores a token once it has one
    (the environment assignments and the [try] block that follows them). *)
Definition puter_login_store (token : string) : M unit :=
  let token_hash := _token_sha256 token in
  setenv "PUTER_AUTH_TOKEN" token ;;
  setenv "puterAuthToken" token ;;
  setenv "PUTER_TOKEN_SHA256" token_hash ;;
  try_except
    (_upsert_env_var LLM_ENV_PATH "PUTER_AUTH_TOKEN" token ;;
     _upsert_env_var LLM_ENV_PATH "PUTER_TOKEN_SHA256" token_hash ;;
     env ← get_environ;
     if bool_decide (is_Some (env !! "PUTER_DEFAULT_MODEL")) then ret tt
     else _upsert_env_var LLM_ENV_PATH "PUTER_DEFAULT_MODEL" "claude-opus-4-6")
    (ret tt).

End cognitive_system.

(** ** skills/qtmos-http-tools/scripts/route_prompt.py *)

Module route_prompt.

Definition DEFAULT_FAST : string := "gpt-4.1-mini".
Definition DEFAULT_REASONING : string := "claude-opus-4-6".
Definition DEFAULT_CODING : string := "codestral-2508".
Definition DEFAULT_DOCS : string := "gemini-2.5-pro".
Definition DEFAULT_LOCAL : string := "ollama/llama3:latest".

(** The characters [\w] matches below 256: letters, digits and the
    underscore, among them the accented letters and the superscript and
    fraction digits. *)
Definition is_word_char (c : ascii) : bool :=
  in_range 48 57 c || in_range 65 90 c || in_range 97 122 c
  || N.eqb (N_of_ascii c) 95
  || N.eqb (N_of_ascii c) 170 || in_range 178 179 c || N.eqb (N_of_ascii c) 181
  || in_range 185 186 c || in_range 188 190 c
  || in_range 192 214 c || in_range 216 246 c || in_range 248 255 c.

(** The patterns of the module are alternations of sequences of literal
    characters and character classes, between two [\b]. *)
Inductive atom : Type :=
| Lit (c : ascii)
| Class (cs : string).

Fixpoint word (w : string) : list atom :=
  match w with
  | EmptyString => []
  | String c w' => Lit c :: word w'
  end.

Fixpoint mem_char (c : ascii) (cs : string) : bool :=
  match cs with
  | EmptyString => false
  | String c' cs' => Ascii.eqb c c' || mem_char c cs'
  end.

Definition atom_matches (a : atom) (c : ascii) : bool :=
  match a with
  | Lit c' => Ascii.eqb c c'
  | Class cs => mem_char c cs
  end.

Definition is_word (c : option ascii) : bool :=
  match c with
  | Some c => is_word_char c
  | None => false
  end.

(** [\b] between the character before and the character after. *)
Definition at_boundary (prev next : option ascii) : bool :=
  xorb (is_word prev) (is_word next).

Definition head_char (s : string) : option ascii :=
  match s with
  | EmptyString => None
  | String c _ => Some c
  end.

(** Matches the atoms at the start of [s]; gives the last character read and
    the rest. *)
Fixpoint match_atoms (alt : list atom) (prev : option ascii) (s : string)
  : option (option ascii * string) :=
  match alt with
  | [] => Some (prev, s)
  | a :: alt' =>
      match s with
      | EmptyString => None
      | String c s' => if atom_matches a c then match_atoms alt' (Some c) s' else None
      end
  end.

Definition match_here (alts : list (list atom)) (prev : option ascii) (s : string) : bool :=
  at_boundary prev (head_char s)
  && existsb (fun alt =>
                match match_atoms alt prev s with
                | Some (p, rest) => at_boundary p (head_char rest)
                | None => false
                end) alts.

Fixpoint search_from (alts : list (list atom)) (prev : option ascii) (s : string) : bool :=
  match_here alts prev s
  || match s with
     | EmptyString => false
     | String c s' => search_from alts (Some c) s'
     end.

(** [re.search(r"\b(alt1|alt2|...)\b", t)] as a truth value. *)
Definition re_search (alts : list (list atom)) (t : string) : bool :=
  search_from alts None t.

Definition coding_pattern : list (list atom) :=
  map word ["code"; "python"; "javascript"; "bug"; "stacktrace"; "function";
            "refactor"; "compile"; "script"; "regex"; "api"].

Definition docs_pattern : list (list atom) :=
  map word ["image"; "pdf"; "scan"; "diagram"; "screenshot"; "document"; "doc"].

Definition reasoning_pattern : list (list atom) :=
  [ word "reason"; word "analy" ++ [Class "sz"] ++ word "e"; word "proof";
    word "math"; word "logic"; word "plan"; word "strategy"; word "difficult";
    word "deep" ].

Definition _infer_task_class (task : string) : string :=
  let t := lower task in
  if re_search coding_pattern t then "coding"
  else if re_search docs_pattern t then "docs"
  else if re_search reasoning_pattern t then "reasoning"
  else "fast".

Definition _auto_candidates (task : string) : list string :=
  let cls := _infer_task_class task in
  if String.eqb cls "coding"
  then [DEFAULT_CODING; DEFAULT_REASONING; DEFAULT_FAST; DEFAULT_LOCAL]
  else if String.eqb cls "docs"
  then [DEFAULT_DOCS; DEFAULT_REASONING; DEFAULT_FAST; DEFAULT_LOCAL]
  else if String.eqb cls "reasoning"
  then [DEFAULT_REASONING; DEFAULT_FAST; DEFAULT_LOCAL]
  else [DEFAULT_FAST; DEFAULT_REASONING; DEFAULT_LOCAL].

End route_prompt.

(** ** More Python text operations *)

Module TextMore.

Import Stdlib.Strings.String.

(** [s.split(sep, 1)] when [sep] occurs in [s]: the text before the first
    [sep] and the text after it; [None] when [sep] does not occur. *)
Fixpoint split_once (sep : ascii) (s : string) : option (string * string) :=
  match s with
  | EmptyString => None
  | String c s' =>
      if Ascii.eqb c sep then Some (EmptyString, s')
      else match split_once sep s' with
           | Some (a, b) => Some (String c a, b)
           | None => None
           end
  end.

(** [s.split(sep)]: never empty, the empty text gives one empty part. *)
Fixpoint split_on (sep : ascii) (s : string) : list string :=
  match s with
  | EmptyString => [EmptyString]
  | String c s' =>
      if Ascii.eqb c sep then EmptyString :: split_on sep s'
      else match split_on sep s' with
           | part :: parts => String c part :: parts
           | [] => [String c EmptyString]
           end
  end.

(** [s.strip(chars)]. *)
Fixpoint lstrip_chars (chars s : string) : string :=
  match s with
  | EmptyString => EmptyString
  | String c s' => if char_in c chars then lstrip_chars chars s' else s
  end.

Fixpoint rstrip_chars (chars s : string) : string :=
  match s with
  | EmptyString => EmptyString
  | String c s' =>
      match rstrip_chars chars s' with
      | EmptyString => if char_in c chars then EmptyString else String c EmptyString
      | r => String c r
      end
  end.

Definition strip_chars (chars s : string) : string :=
  lstrip_chars chars (rstrip_chars chars s).

(** [s[n:]]. *)
Fixpoint skip (n : nat) (s : string) : string :=
  match n, s with
  | O, _ => s
  | S n', String _ s' => skip n' s'
  | S _, EmptyString => EmptyString
  end.

(** The single and the double quote character, the argument of the second
    [strip] of the loader. *)
Definition QUOTES : string := String "039"%char (String "034"%char EmptyString).

End TextMore.

Import TextMore.

(** [a or b] on values. *)
Definition or_val (a b : pyval) : pyval := if truthy a then a else b.

(** [x or dflt] on texts. *)
Definition or_text (x dflt : string) : string := if nonempty x then x else dflt.

(** ** llm/llm_adapters.py: the env-file loader and the chat helper *)

Module llm_adapters_more.

Import llm_adapters.

(** What [_load_env_fallback] reads in one line: the key and the value of an
    assignment, [None] for a blank line, a comment, a line without [=] and
    a line whose key is blank. *)
Definition env_entry (line : string) : option (string * string) :=
  let s := strip line in
  if negb (nonempty s) || startswith "#" s then None else
  match split_once "="%char s with
  | None => None
  | Some (k, v) =>
      let key := strip k in
      if negb (nonempty key) then None
      else Some (key, strip_chars QUOTES (strip v))
  end.

(** The loop of [_load_env_fallback] over the lines. A variable that is set
    is kept; [os.environ.setdefault(key, val)] raises [ValueError] when it
    has to set a variable whose name or value holds a NUL ([putenv_fails]),
    and this ends the loop, since the [except Exception] around it
    returns. *)
Fixpoint load_entries (lines : list string) (env : gmap string string)
  : gmap string string :=
  match lines with
  | [] => env
  | line :: rest =>
      match env_entry line with
      | None => load_entries rest env
      | Some (key, val) =>
          match env !! key with
          | Some _ => load_entries rest env
          | None =>
              if putenv_fails key val then env
              else load_entries rest (<[key := val]> env)
          end
      end
  end.

(** A file that is missing or cannot be decoded leaves the environment as it
    is ([read_lines] gives no line then). *)
Definition _load_env_fallback (path : string) : M unit := fun w =>
  (Ok tt,
   mkWorld (load_entries (cognitive_system.read_lines (files w !! path)) (environ w))
           (files w) (history w)).

(** The two calls made when the module is imported. *)
Definition load_env_files : M unit :=
  _load_env_fallback ".env" ;;
  _load_env_fallback cognitive_system.LLM_ENV_PATH.

Section Chat.

Context {RT : PyRuntime} (cfg : Config) (O : Outside).

(** [m.get("role") in ("user", "system")]. *)
Definition speaks (role : pyval) : bool :=
  match role with
  | PStr r => String.eqb r "user" || String.eqb r "system"
  | _ => false
  end.

(** The generator of [chat_ollama]: the [content] of the user and system
    messages, [None] when an item is no dict ([AttributeError]). *)
Fixpoint message_contents (messages : list pyval) : option (list pyval) :=
  match messages with
  | [] => Some []
  | PDict m :: rest =>
      match message_contents rest with
      | Some cs =>
          if speaks (dict_get m "role")
          then Some (dict_get_or m "content" (PStr EmptyString) :: cs)
          else Some cs
      | None => None
      end
  | _ :: _ => None
  end.

(** The items [str.join] accepts: [None] when one is no text ([TypeError]). *)
Fixpoint texts_of (vs : list pyval) : option (list string) :=
  match vs with
  | [] => Some []
  | PStr s :: rest =>
      match texts_of rest with
      | Some ss => Some (s :: ss)
      | None => None
      end
  | _ :: _ => None
  end.

(** The prompt of [chat_ollama]; [None] stands for the exceptions its
    [except Exception] turns into [None]: a value that cannot be iterated,
    an item without [get], a content that is no text. *)
Definition chat_prompt (messages : pyval) : option string :=
  match (if truthy messages then messages else PList []) with
  | PList ms =>
      match message_contents ms with
      | Some cs =>
          match texts_of cs with
          | Some ss => Some (strip (join LF ss))
          | None => None
          end
      | None => None
      end
  | _ => None
  end.

Definition chat_ollama (messages : pyval) (model : option string) : M pyval :=
  match chat_prompt messages with
  | Some prompt =>
      if negb (nonempty prompt) then ret PNone
      else query_ollama cfg O prompt model
  | None => ret PNone
  end.

(** [command_ollama] of [core/cognitive_system.py]: the reply it prints. *)
Definition command_ollama (text : string) : M pyval :=
  chat_ollama (PList [PDict [("role", PStr "user"); ("content", PStr text)]])
              (Some (OLLAMA_MODEL cfg)).

End Chat.

End llm_adapters_more.

(** ** qtmos_server.py: the HTTP tool backend *)

Module qtmos_server.

Import llm_adapters.

Definition SAFE_COMMANDS : list string :=
  ["ask"; "chat"; "claw"; "core-list"; "gemini"; "health"; "ollama"; "pack-list";
   "puter-chat"; "puter-models"; "pulse-now"; "recall"; "state"; "synthesize";
   "wander"; "whoami"].

Definition BLOCKED_COMMANDS : list string :=
  ["create-profile"; "crawl"; "define"; "duel"; "exit"; "forget"; "genesis-review";
   "ingest-api"; "ingest-ollama"; "ingest-url"; "learn"; "load-core"; "load-pack";
   "new-profile"; "promote"; "pulse-start"; "pulse-stop"; "puter-login"; "qtm";
   "qtm-shell"; "quit"; "run-script"; "scan"; "wslmenu"].

Definition SAFE_CLAW_SUBCOMMANDS : list string := ["health"; "help"; "memory"; "status"].

(** [x in S] for a set of texts. *)
Definition member_of (x : string) (S : list string) : bool := existsb (String.eqb x) S.

(** [fastapi.HTTPException(status_code, detail)]. *)
Record HTTPException : Type := mkHTTPException {
  status_code : Z;
  detail : string
}.

(** [_token_present], from the environment. *)
Definition _token_present (env : gmap string string) : bool :=
  nonempty (strip (or_str (env !! "PUTER_API_KEY") EmptyString))
  || nonempty (strip (or_str (env !! "PUTER_AUTH_TOKEN") EmptyString))
  || nonempty (strip (or_str (env !! "puterAuthToken") EmptyString)).

(** [isinstance(v, str) and v.strip()], giving [v.strip()]. *)
Definition nonblank_text (v : pyval) : option string :=
  match v with
  | PStr c => if nonempty (strip c) then Some (strip c) else None
  | _ => None
  end.

(** [a] when it found a text, else [b]. *)
Definition or_else (a b : option string) : option string :=
  match a with
  | Some _ => a
  | None => b
  end.

(** The text [_normalize_model_reply] finds in a parsed payload: the content
    of [message], then [content], then in the first of [choices] the content
    of its [message], then its [text]. *)
Definition wrapped_text (payload : list (string * pyval)) : option string :=
  or_else
    (match dict_get payload "message" with
     | PDict msg => nonblank_text (dict_get msg "content")
     | _ => None
     end)
    (or_else
       (nonblank_text (dict_get payload "content"))
       (match dict_get payload "choices" with
        | PList (PDict c0 :: _) =>
            if truthy (PDict c0) then
              or_else
                (match dict_get c0 "message" with
                 | PDict c0m =>
                     if truthy (PDict c0m) then nonblank_text (dict_get c0m "content")
                     else None
                 | _ => None
                 end)
                (nonblank_text (dict_get c0 "text"))
            else None
        | _ => None
        end)).

Section Server.

Context {RT : PyRuntime} (cfg : Config) (O : Outside).

Definition _normalize_model_reply (reply : pyval) : string :=
  match reply with
  | PStr r =>
      let text := strip r in
      if negb (nonempty text) then text else
      if startswith "{" text && endswith "}" text then
        match json_loads text with
        | Some (PDict payload) => default r (wrapped_text payload)
        | _ => r
        end
      else r
  | _ => py_str reply
  end.

(** [shlex.split], a library function: the words of the line, or the
    message of the [ValueError] it raises. *)
Variable shlex_split : string -> string + list string.

Definition _validate_safe_command (line : string) : HTTPException + list string :=
  match shlex_split (strip line) with
  | inl e => inl (mkHTTPException 400 ("Command parse error: " +:+ e))
  | inr parts =>
      match parts with
      | [] => inl (mkHTTPException 400 "Command is empty")
      | first :: others =>
          let cmd := lower first in
          if member_of cmd BLOCKED_COMMANDS
          then inl (mkHTTPException 403 ("Command blocked: " +:+ cmd))
          else if negb (member_of cmd SAFE_COMMANDS)
          then inl (mkHTTPException 403 ("Command not allowlisted: " +:+ cmd))
          else
            let sub := match others with
                       | second :: _ => lower second
                       | [] => EmptyString
                       end in
            if String.eqb cmd "claw" && negb (member_of sub SAFE_CLAW_SUBCOMMANDS)
            then inl (mkHTTPException 403
                        ("Unsafe claw subcommand: " +:+ or_text sub "<empty>"))
            else inr parts
      end
  end.

(** The body of a request to [/ask]. *)
Record AskRequest : Type := mkAskRequest {
  prompt : string;
  model : option string;
  allow_local_fallback : bool
}.

Definition opt_text (m : option string) : pyval :=
  match m with
  | Some s => PStr s
  | None => PNone
  end.

(** The dict a successful [/ask] returns. *)
Definition ask_answer (provider : string) (used : pyval) (req : AskRequest)
    (reply : pyval) (fallback_used : bool) : pyval :=
  PDict [("ok", PBool true); ("provider", PStr provider); ("model", used);
         ("prompt", PStr (prompt req)); ("reply", PStr (_normalize_model_reply reply));
         ("fallback_used", PBool fallback_used)].

(** [ask]: what it returns, or the [HTTPException] it raises. *)
Definition ask (req : AskRequest) : M (HTTPException + pyval) :=
  let raw_model := strip (or_str (model req) EmptyString) in
  fb ← getenv "QTMOS_LOCAL_FALLBACK_MODEL";
  let fallback_model := default "llama3:latest" fb in
  if startswith "ollama/" (lower raw_model) then
    let local_model := or_text (strip (skip 7 raw_model)) fallback_model in
    local_reply ← query_ollama cfg O (prompt req) (Some local_model);
    if negb (truthy local_reply)
    then ret (inl (mkHTTPException 503 "No response from local Ollama backend"))
    else ret (inr (ask_answer "ollama" (PStr local_model) req local_reply false))
  else
    no_auth ← (if allow_local_fallback req
               then auth ← has_puter_auth cfg; ret (negb auth)
               else ret false);
    early ← (if no_auth
             then local_reply ← query_ollama cfg O (prompt req) (Some fallback_model);
                  if truthy local_reply
                  then ret (Some (ask_answer "ollama" (PStr fallback_model) req
                                             local_reply true))
                  else ret None
             else ret None);
    match early with
    | Some answer => ret (inr answer)
    | None =>
        r ← call_puter_with_model cfg O (prompt req) (model req);
        if token_truthy (fst r)
        then ret (inr (ask_answer "puter"
                         (if token_truthy (snd r)
                          then PStr (default EmptyString (snd r))
                          else opt_text (model req))
                         req (PStr (default EmptyString (fst r))) false))
        else
          late ← (if allow_local_fallback req
                  then local_reply ← query_ollama cfg O (prompt req) (Some fallback_model);
                       if truthy local_reply
                       then ret (Some (ask_answer "ollama" (PStr fallback_model) req
                                                  local_reply true))
                       else ret None
                  else ret None);
          match late with
          | Some answer => ret (inr answer)
          | None =>
              ret (inl (mkHTTPException 503
                          "No response from Puter or local Ollama backend"))
          end
    end.

End Server.

End qtmos_server.

(** ** core/cognitive_system.py: reading a pasted token *)

Module cognitive_system_login.

Import cognitive_system.

(** The keys of a pasted [KEY=VALUE]. *)
Definition PASTE_KEYS : list string :=
  ["PUTER_AUTH_TOKEN"; "puterAuthToken"; "token"; "authToken"].

(** The parameters looked up in a callback URL, in this order. *)
Definition URL_KEYS : list string := ["puterAuthToken"; "token"; "authToken"].

(** [t or None]. *)
Definition none_if_empty (t : string) : option string :=
  if nonempty t then Some t else None.

(** The first of the keys that the parsed parameters hold with a value:
    [q[key][0]]. *)
Fixpoint first_param (keys : list string) (q : gmap string (list string))
  : option string :=
  match keys with
  | [] => None
  | key :: rest =>
      match q !! key with
      | Some (v :: _) => Some v
      | _ => first_param rest q
      end
  end.

Section Extract.

(** [urllib.parse], library functions: [urlparse] gives the query and the
    fragment of a URL, or raises [ValueError] ([None]); [parse_qs] gives the
    values of each parameter; [unquote] undoes percent-encoding. *)
Variable urlparse : string -> option (string * string).
Variable parse_qs : string -> gmap string (list string).
Variable unquote : string -> string.

(** The branch for a pasted [KEY=VALUE]: [None] when the text falls
    through to the next branch. *)
Definition pasted_assignment (raw : string) : option (option string) :=
  if negb (contains "http" raw) then
    match split_once "="%char raw with
    | Some (k, v) =>
        if qtmos_server.member_of (strip k) PASTE_KEYS
        then Some (none_if_empty (remove_ws (strip v)))
        else None
    | None => None
    end
  else None.

(** [_extract_puter_token]: the token, [Some None] when it finds none, and
    [None] when [urlparse] raises. *)
Definition _extract_puter_token (text : string) : option (option string) :=
  let raw := strip text in
  if negb (nonempty raw) then Some None else
  match pasted_assignment raw with
  | Some r => Some r
  | None =>
      if negb (contains "http" raw) && negb (contains "puterAuthToken=" raw)
         && negb (contains "PUTER_AUTH_TOKEN=" raw) && negb (contains "token=" raw)
      then Some (none_if_empty (remove_ws raw))
      else
        match urlparse raw with
        | None => None
        | Some (query, fragment) =>
            match first_param URL_KEYS (parse_qs query) with
            | Some v => Some (none_if_empty (remove_ws (unquote v)))
            | None =>
                match first_param URL_KEYS (parse_qs (lstrip_chars "#" fragment)) with
                | Some v => Some (none_if_empty (remove_ws (unquote v)))
                | None => Some None
                end
            end
        end
  end.

End Extract.

(** [_parse_puter_chat_args] after [shlex.split]: the loop over the tokens,
    [None] when a flag has no value. *)
Definition is_model_flag (tok : string) : bool :=
  String.eqb tok "--model" || String.eqb tok "-m".

Fixpoint parse_chat_tokens (tokens : list string) (model : option string)
    (prompt_tokens : list string) : option (list string * option string) :=
  match tokens with
  | [] => Some (prompt_tokens, model)
  | tok :: rest =>
      if is_model_flag tok then
        match rest with
        | [] => None
        | value :: rest' => parse_chat_tokens rest' (Some value) prompt_tokens
        end
      else parse_chat_tokens rest model (prompt_tokens ++ [tok])
  end.

Definition _parse_puter_chat_args (shlex_split : string -> string + list string)
    (rest : string) : option string * option string :=
  match shlex_split rest with
  | inl _ => (None, None)
  | inr tokens =>
      match parse_chat_tokens tokens None [] with
      | None => (None, None)
      | Some (prompt_tokens, model) => (Some (strip (join " " prompt_tokens)), model)
      end
  end.

(** The token a line of the sink gives [command_puter_login]: the line
    assigns [PUTER_AUTH_TOKEN] or [puterAuthToken]. *)
Definition login_entry (line : string) : option string :=
  let s := strip line in
  if negb (nonempty s) || startswith "#" s then None else
  match split_once "="%char s with
  | None => None
  | Some (k, v) =>
      if qtmos_server.member_of (strip k) ["PUTER_AUTH_TOKEN"; "puterAuthToken"]
      then Some (remove_ws (strip_chars QUOTES (strip v)))
      else None
  end.

(** The loop over the lines of the sink: the first token that is not empty,
    and the empty text when there is none. *)
Fixpoint sink_token (lines : list string) : string :=
  match lines with
  | [] => EmptyString
  | line :: rest =>
      match login_entry line with
      | Some t => if nonempty t then t else sink_token rest
      | None => sink_token rest
      end
  end.

(** The part of [command_puter_login] that looks for a token to reuse when
    it is called without argument: the environment first, then the sink,
    whose token it assigns to both variables (an assignment that raises,
    for a NUL character, is skipped by the [except]). *)
Definition reuse_existing_token : M string := fun w =>
  let env := environ w in
  let existing :=
    remove_ws (or_str (env !! "PUTER_AUTH_TOKEN")
                      (or_str (env !! "puterAuthToken") EmptyString)) in
  if nonempty existing then (Ok existing, w) else
  let found := sink_token (read_lines (files w !! LLM_ENV_PATH)) in
  if nonempty found && negb (char_in NUL found)
  then (Ok found,
        mkWorld (<["puterAuthToken" := found]> (<["PUTER_AUTH_TOKEN" := found]> env))
                (files w) (history w))
  else (Ok found, w).

End cognitive_system_login.

(** ** skills/qtmos-http-tools/scripts/route_prompt.py: asking the API *)

Module route_prompt_run.

Import route_prompt.

(** A request to the QTMoS API. *)
Record ApiRequest : Type := mkApiRequest {
  url : string;
  payload : pyval
}.

(** What [urllib.request.urlopen] does with a request: a body, an
    [HTTPError] with its code and body, or another exception with its
    text. *)
Inductive UrlOutcome : Type :=
| UrlBody (body : string)
| UrlHTTPError (code : Z) (body : string)
| UrlRaises (message : string).

(** [d.setdefault(k, v)] and [d[k] = v] on a dict read from the left. *)
Definition dict_setdefault (k : string) (v : pyval) (d : list (string * pyval))
  : list (string * pyval) :=
  match assoc k d with
  | Some _ => d
  | None => d ++ [(k, v)]
  end.

Fixpoint dict_store (k : string) (v : pyval) (d : list (string * pyval))
  : list (string * pyval) :=
  match d with
  | [] => [(k, v)]
  | (k', v') :: d' =>
      if String.eqb k k' then (k, v) :: d' else (k', v') :: dict_store k v d'
  end.

Definition error_reply (error detail : string) : pyval :=
  PDict [("ok", PBool false); ("error", PStr error); ("detail", PStr detail)].

Section Api.

Context {RT : PyRuntime}.

(** The API server and the clock, seen through the requests made so far,
    the last one included; and the text of the exception [json.loads]
    raises on a body. *)
Variable urlopen : list ApiRequest -> UrlOutcome.
Variable elapsed_ms : list ApiRequest -> Z.
Variable json_error : string -> string.

(** [urllib.request.Request(url=url, ...)], a library constructor: it raises
    [ValueError] for a URL it cannot take apart, one without a scheme for
    instance. *)
Variable request_raises : string -> bool.

(** [_post_json]: the request is built before the [try], so the
    [ValueError] of the constructor escapes and nothing is sent; every
    failure of the request itself is turned into a reply. *)
Definition _post_json (base_url path : string) (body : pyval) (h : list ApiRequest)
  : Res pyval * list ApiRequest :=
  let url := rstrip_chars "/" base_url +:+ path in
  if request_raises url then (Raised ValueError, h) else
  let h' := h ++ [mkApiRequest url body] in
  (Ok match urlopen h' with
      | UrlBody text =>
          match json_loads text with
          | Some v => v
          | None => error_reply "request_failed" (json_error text)
          end
      | UrlHTTPError code text => error_reply ("HTTP " +:+ str_of_Z code) text
      | UrlRaises message => error_reply "request_failed" message
      end,
   h').

Definition ask_payload (task : string) (model : option string) : pyval :=
  PDict [("prompt", PStr task); ("model", qtmos_server.opt_text model);
         ("allow_local_fallback", PBool true)].

(** [_run_single]: the reply as a dict; [AttributeError] when the server
    answered with JSON that is no object. *)
Definition _run_single (base_url task : string) (model : option string)
    (h : list ApiRequest) : Res (list (string * pyval)) * list ApiRequest :=
  match _post_json base_url "/ask" (ask_payload task model) h with
  | (Ok (PDict out), h') =>
      (Ok (dict_store "elapsed_ms" (PInt (elapsed_ms h'))
             (dict_setdefault "ok" (PBool false) out)),
       h')
  | (Ok _, h') => (Raised AttributeError, h')
  | (Raised e, h') => (Raised e, h')
  end.

(** The entry of the attempts trail for one model. *)
Definition attempt (m : string) (out : list (string * pyval)) : pyval :=
  PDict [("model", PStr m); ("ok", PBool (truthy (dict_get out "ok")));
         ("provider", dict_get out "provider");
         ("elapsed_ms", dict_get out "elapsed_ms");
         ("error", or_val (dict_get out "error") (dict_get out "detail"))].

Definition success (models : list string) (m : string) (out : list (string * pyval))
    (attempts : list pyval) : pyval :=
  PDict [("ok", PBool true);
         ("model_used", or_val (dict_get out "model") (PStr m));
         ("provider", dict_get out "provider");
         ("reply", dict_get_or out "reply" (PStr EmptyString));
         ("fallback_used",
          PBool (negb (String.eqb m (default EmptyString (head models)))));
         ("attempts", PList attempts)].

Definition failure (attempts : list pyval) : pyval :=
  PDict [("ok", PBool false); ("error", PStr "all_candidates_failed");
         ("attempts", PList attempts)].

(** The loop of [_run_with_fallbacks] over the models still to try. *)
Fixpoint fallback_loop (base_url task : string) (models todo : list string)
    (attempts : list pyval) (h : list ApiRequest) : Res pyval * list ApiRequest :=
  match todo with
  | [] => (Ok (failure attempts), h)
  | m :: rest =>
      match _run_single base_url task (Some m) h with
      | (Ok out, h') =>
          let attempts' := attempts ++ [attempt m out] in
          if truthy (dict_get out "ok")
          then (Ok (success models m out attempts'), h')
          else fallback_loop base_url task models rest attempts' h'
      | (Raised e, h') => (Raised e, h')
      end
  end.

Definition _run_with_fallbacks (base_url task : string) (models : list string)
    (h : list ApiRequest) : Res pyval * list ApiRequest :=
  fallback_loop base_url task models models [] h.

End Api.

(** [main]: the candidate list from the options [--candidates] and
    [--model], and the models asked in compare mode. *)
Definition explicit_candidates (arg : string) : list string :=
  List.filter nonempty (map strip (split_on ","%char arg)).

Definition main_candidates (candidates model : option string) (task : string)
  : list string :=
  if nonempty (or_str candidates EmptyString)
  then explicit_candidates (or_str candidates EmptyString)
  else if nonempty (or_str model EmptyString)
  then [or_str model EmptyString]
  else _auto_candidates task.

Definition compare_models (max_fanout : Z) (candidates : list string) : list string :=
  let fanout := Z.max 1 (Z.min max_fanout (Z.of_nat (length candidates))) in
  firstn (Z.to_nat fanout) candidates.

End route_prompt_run.

(** ** A runtime for the examples *)

(** A reader for the JSON texts of the examples (objects, arrays, strings
    with the simple escapes and the escapes of code points below 256,
    integers, [true], [false], [null]) and a plain [repr].  The properties
    below hold for every [PyRuntime]; this one makes the example runs
    computable. *)
Module ExampleRuntime.

Definition is_json_ws (c : ascii) : bool :=
  match c with
  | " " | "009" | "010" | "013" => true
  | _ => false
  end%char.

Fixpoint skip_ws (s : string) : string :=
  match s with
  | String c s' => if is_json_ws c then skip_ws s' else s
  | EmptyString => s
  end.

Definition is_digit (c : ascii) : bool := in_range 48 57 c.

(** The value of a hexadecimal digit. *)
Definition hex_value (c : ascii) : option N :=
  let n := N_of_ascii c in
  if in_range 48 57 c then Some (n - 48)%N
  else if in_range 97 102 c then Some (n - 87)%N
  else if in_range 65 70 c then Some (n - 55)%N
  else None.

(** The character of the escape [\uXXXX], for a code point below 256. *)
Definition unicode_escape (a b c d : ascii) : option ascii :=
  match hex_value a, hex_value b, hex_value c, hex_value d with
  | Some 0%N, Some 0%N, Some x, Some y => Some (ascii_of_N (16 * x + y))
  | _, _, _, _ => None
  end.

(** The text of a string literal after its opening quote. *)
Fixpoint read_string (s : string) : option (string * string) :=
  match s with
  | EmptyString => None
  | String c s' =>
      if Ascii.eqb c "034"%char then Some (EmptyString, s')
      else if Ascii.eqb c "\"%char then
        match s' with
        | String "u" (String a (String b (String x (String y s'')))) =>
            match unicode_escape a b x y, read_string s'' with
            | Some u, Some (body, rest) => Some (String u body, rest)
            | _, _ => None
            end
        | String e s'' =>
            let unescaped :=
              match e with
              | "034" => Some "034" | "\" => Some "\" | "/" => Some "/"
              | "n" => Some "010" | "t" => Some "009" | "r" => Some "013"
              | "b" => Some "008" | "f" => Some "012"
              | _ => None
              end%char in
            match unescaped, read_string s'' with
            | Some u, Some (body, rest) => Some (String u body, rest)
            | _, _ => None
            end
        | EmptyString => None
        end
      else if (N_of_ascii c <? 32)%N then None
      else match read_string s' with
           | Some (body, rest) => Some (String c body, rest)
           | None => None
           end
  end.

Fixpoint read_digits (s : string) (acc : Z) (seen : bool) : option (Z * string) :=
  match s with
  | String c s' =>
      if is_digit c
      then read_digits s' (10 * acc + Z.of_N (N_of_ascii c - 48)) true
      else if seen then Some (acc, s) else None
  | EmptyString => if seen then Some (acc, s) else None
  end.

(** [d[k] = v]: a later member replaces an earlier one of the same name. *)
Fixpoint dict_set (k : string) (v : pyval) (d : list (string * pyval))
  : list (string * pyval) :=
  match d with
  | [] => [(k, v)]
  | (k', v') :: d' =>
      if String.eqb k k' then (k, v) :: d' else (k', v') :: dict_set k v d'
  end.

Inductive frame : Type :=
| InList (items : list pyval)
| InDict (members : list (string * pyval)) (key : string).

(** A value has been read: it is stored in the enclosing frame, and the
    reader goes on after a comma or closes the frame. *)
Fixpoint read_value (fuel : nat) (stack : list frame) (s : string) {struct fuel}
  : option (pyval * string) :=
  match fuel with
  | O => None
  | S fuel' =>
      match skip_ws s with
      | String "{" s1 =>
          match skip_ws s1 with
          | String "}" s2 => close_value fuel' stack (PDict []) s2
          | String "034" s2 =>
              match read_string s2 with
              | Some (k, s3) =>
                  match skip_ws s3 with
                  | String ":" s4 => read_value fuel' (InDict [] k :: stack) s4
                  | _ => None
                  end
              | None => None
              end
          | _ => None
          end
      | String "[" s1 =>
          match skip_ws s1 with
          | String "]" s2 => close_value fuel' stack (PList []) s2
          | _ => read_value fuel' (InList [] :: stack) s1
          end
      | String "034" s1 =>
          match read_string s1 with
          | Some (t, s2) => close_value fuel' stack (PStr t) s2
          | None => None
          end
      | String "t" (String "r" (String "u" (String "e" s1))) =>
          close_value fuel' stack (PBool true) s1
      | String "f" (String "a" (String "l" (String "s" (String "e" s1)))) =>
          close_value fuel' stack (PBool false) s1
      | String "n" (String "u" (String "l" (String "l" s1))) =>
          close_value fuel' stack PNone s1
      | String "-" s1 =>
          match read_digits s1 0 false with
          | Some (n, s2) => close_value fuel' stack (PInt (- n)) s2
          | None => None
          end
      | s0 =>
          match read_digits s0 0 false with
          | Some (n, s2) => close_value fuel' stack (PInt n) s2
          | None => None
          end
      end
  end
with close_value (fuel : nat) (stack : list frame) (v : pyval) (s : string)
  {struct fuel} : option (pyval * string) :=
  match fuel with
  | O => None
  | S fuel' =>
      match stack with
      | [] => Some (v, s)
      | InList items :: stack' =>
          match skip_ws s with
          | String "," s1 => read_value fuel' (InList (items ++ [v]) :: stack') s1
          | String "]" s1 => close_value fuel' stack' (PList (items ++ [v])) s1
          | _ => None
          end
      | InDict members k :: stack' =>
          match skip_ws s with
          | String "," s1 =>
              match skip_ws s1 with
              | String "034" s2 =>
                  match read_string s2 with
                  | Some (k', s3) =>
                      match skip_ws s3 with
                      | String ":" s4 =>
                          read_value fuel' (InDict (dict_set k v members) k' :: stack') s4
                      | _ => None
                      end
                  | None => None
                  end
              | _ => None
              end
          | String "}" s1 => close_value fuel' stack' (PDict (dict_set k v members)) s1
          | _ => None
          end
      end
  end.

Definition loads (s : string) : option pyval :=
  match read_value (4 * String.length s + 4) [] s with
  | Some (v, rest) =>
      match skip_ws rest with
      | EmptyString => Some v
      | _ => None
      end
  | None => None
  end.

Fixpoint repr (v : pyval) : string :=
  match v with
  | PNone => "None"
  | PBool true => "True"
  | PBool false => "False"
  | PInt n => str_of_Z n
  | PFloat _ t => t
  | PStr s => "'" +:+ s +:+ "'"
  | PList l => "[" +:+ join ", " (map repr l) +:+ "]"
  | PDict d =>
      "{" +:+ join ", " (map (fun kv => "'" +:+ fst kv +:+ "': " +:+ repr (snd kv)) d) +:+ "}"
  end.

#[export] Instance runtime : PyRuntime :=
  {| json_loads := loads; py_repr := repr |}.

End ExampleRuntime.

(** ** Vocabulary of the statements *)

Fixpoint all_chars (P : ascii -> bool) (s : string) : bool :=
  match s with
  | EmptyString => true
  | String c s' => P c && all_chars P s'
  end.

(** No character of [s] is a whitespace character. *)
Definition no_space (s : string) : bool := all_chars (fun c => negb (isspace c)) s.

(** Every character of [s] is a whitespace character. *)
Definition only_space (s : string) : bool := all_chars isspace s.

(** No character of [s] is a line boundary. *)
Definition no_linebreak (s : string) : bool :=
  all_chars (fun c => negb (is_linebreak c)) s.

(** A list of lines once the whitespace at the end of their joined text is
    removed: the blank lines at the end go, and the last line left is
    trimmed on the right. *)
Fixpoint trim_end (ls : list string) : list string :=
  match ls with
  | [] => []
  | l :: ls' =>
      match trim_end ls' with
      | [] => match rstrip l with
              | EmptyString => []
              | r => [r]
              end
      | r => l :: r
      end
  end.

(** No character of [s] is a carriage return. *)
Definition no_cr (s : string) : bool :=
  all_chars (fun c => negb (Ascii.eqb c "013")) s.

(** What [_upsert_env_var] does to one line. *)
Definition replace_line (key value line : string) : string :=
  if cognitive_system.is_key_line key line
  then cognitive_system.key_line key value
  else line.

(** The lines [_upsert_env_var] joins: the key lines replaced, or the new
    line appended when there is none. *)
Definition upserted_lines (key value : string) (lines : list string) : list string :=
  if existsb (cognitive_system.is_key_line key) lines
  then map (replace_line key value) lines
  else lines ++ [cognitive_system.key_line key value].

(** A key the loop of [_upsert_env_var] can find again: it holds no line
    boundary and does not start with a whitespace character. *)
Definition valid_key (key : string) : bool :=
  no_linebreak key
  && match key with
     | String c _ => negb (isspace c)
     | EmptyString => true
     end.

(** The token [_puter_token] reads from an environment. *)
Definition cached_token (env : gmap string string) : string :=
  remove_ws (or_str (env !! "puterAuthToken")
                    (or_str (env !! "PUTER_AUTH_TOKEN") EmptyString)).

(** A token that is absent, empty, or made of whitespace only. *)
Definition blank_token (v : pyval) : bool :=
  match v with
  | PNone => true
  | PStr s => only_space s
  | _ => false
  end.

(** The world after one more event. *)
Definition after (w : World) (evs : list Event) : World :=
  mkWorld (environ w) (files w) (history w ++ evs).

(** The world with both credential keys set. *)
Definition with_token (w : World) (t : string) : World :=
  mkWorld (<["PUTER_AUTH_TOKEN" := t]> (<["puterAuthToken" := t]> (environ w)))
          (files w) (history w).

(** A computation never raises. *)
Definition no_raise {A} (m : M A) : Prop :=
  forall w, exists a, fst (m w) = Ok a.

(** Every exception a computation raises is of the class [P]. *)
Definition raises_only {A} (P : PyExc -> Prop) (m : M A) : Prop :=
  forall w e, fst (m w) = Raised e -> P e.

(** A computation keeps a relation between the world before and the world
    after, whether it returns or raises. *)
Definition preserves {A} (R : World -> World -> Prop) (m : M A) : Prop :=
  forall w, R w (snd (m w)).

Definition same_files (w w' : World) : Prop := files w' = files w.

Definition same_store (w w' : World) : Prop :=
  files w' = files w /\ environ w' = environ w.

(** The history only grows. *)
Definition history_grows (w w' : World) : Prop :=
  exists evs, history w' = history w ++ evs.

(** The parsed form of a candidate that is a JSON object text: it is not
    empty, it is enclosed in braces, and [json.loads] accepts it. *)
Definition json_object `{PyRuntime} (candidate : string) : option pyval :=
  if nonempty candidate && llm_adapters.looks_like_object candidate
  then json_loads candidate
  else None.

(** What the bridge invoker makes of the helper process: [None] when the
    process could not be run or timed out, the parse of what it printed
    otherwise. *)
Definition helper_reply `{PyRuntime} (answer : ProcOutcome) : pyval :=
  match answer with
  | ProcRaises _ => PNone
  | ProcCompleted _ printed => llm_adapters.parse_bridge_stdout printed
  end.

Definition is_ollama_post (e : Event) : bool :=
  match e with
  | OllamaPost _ _ => true
  | _ => false
  end.

(** The dispatcher as section 4.5 of the specification words it: the
    candidates in turn, and for each one the keyed call when a static key is
    configured, then the bridge path for the same candidate when there is no
    key or the keyed call failed. *)
Fixpoint dispatch_per_candidate `{PyRuntime} (cfg : llm_adapters.Config) (O : Outside)
    (prompt : string) (candidates : list string) : M (option string * option string) :=
  match candidates with
  | [] => ret (None, None)
  | chosen :: rest =>
      r ← (if llm_adapters.has_key cfg
           then llm_adapters.keyed_attempt cfg O prompt chosen
           else ret None);
      match r with
      | Some content => ret (Some content, Some chosen)
      | None =>
          payload ← llm_adapters._run_puter_bridge_with_reauth cfg O
                      (llm_adapters.chat_argv chosen prompt);
          match llm_adapters.bridge_success payload with
          | Some (content, m) =>
              ret (Some content, Some (if truthy m then py_str m else chosen))
          | None => dispatch_per_candidate cfg O prompt rest
          end
      end
  end.

(** The keyed posts for a list of models, in order. *)
Definition keyed_posts (cfg : llm_adapters.Config) (prompt : string) (models : list string)
  : list Event :=
  map (fun m => KeyedPost (or_str (llm_adapters.PUTER_KEY cfg) EmptyString) m prompt) models.

(** The bridge attempts of a dispatch: one for each candidate, in order,
    each made in the world the attempt before it left. *)
Fixpoint bridge_attempts `{PyRuntime} (cfg : llm_adapters.Config) (O : Outside)
    (prompt : string) (candidates : list string) (w : World) : list (Res pyval) :=
  match candidates with
  | [] => []
  | chosen :: rest =>
      let r := llm_adapters._run_puter_bridge_with_reauth cfg O
                 (llm_adapters.chat_argv chosen prompt) w in
      fst r :: bridge_attempts cfg O prompt rest (snd r)
  end.

(** A bridge attempt fails: it returns a reply that is no success. *)
Definition attempt_failed `{PyRuntime} (r : Res pyval) : Prop :=
  exists p, r = Ok p /\ llm_adapters.bridge_success p = None.

(** Every candidate fails: with a static key, the keyed attempt of each
    candidate, made after the keyed posts of the candidates before it,
    gives no content; and the bridge attempt of each candidate fails. *)
Definition every_candidate_fails `{PyRuntime} (cfg : llm_adapters.Config) (O : Outside)
    (prompt : string) (candidates : list string) (w : World) : Prop :=
  (llm_adapters.has_key cfg = true ->
   forall i m, candidates !! i = Some m ->
     fst (llm_adapters.keyed_attempt cfg O prompt m
            (after w (keyed_posts cfg prompt (take i candidates)))) = Ok None)
  /\ Forall attempt_failed
       (bridge_attempts cfg O prompt candidates
          (if llm_adapters.has_key cfg
           then after w (keyed_posts cfg prompt candidates) else w)).

Definition is_call_bootstrap (force : bool) (e : Event) : bool :=
  match e with
  | CallBootstrap f => Bool.eqb f force
  | _ => false
  end.

Definition is_call_bridge (argv : list string) (e : Event) : bool :=
  match e with
  | CallBridge a _ => bool_decide (a = argv)
  | _ => false
  end.

Definition is_spawn (e : Event) : bool :=
  match e with
  | Spawn _ _ => true
  | _ => false
  end.

Definition is_keyed_post (e : Event) : bool :=
  match e with
  | KeyedPost _ _ _ => true
  | _ => false
  end.

(** How many events of a history satisfy [p]. *)
Definition count_events (p : Event -> bool) (evs : list Event) : nat :=
  length (List.filter p evs).

(** The Node SDK check succeeds whenever it is run. *)
Definition sdk_resolves (O : Outside) : Prop :=
  forall h env, exists out,
    process_answer O (h ++ [Spawn llm_adapters.sdk_check_argv env]) = ProcCompleted 0 out.

(** Whenever the helper is run for a chat with the model [chosen], it
    completes and prints a reply that carries an authentication-failure
    signature and is not a successful reply. *)
Definition chat_rejected `{PyRuntime} (O : Outside) (chosen prompt : string) : Prop :=
  forall h env, exists rc out,
    process_answer O
      (h ++ [Spawn ("node" :: llm_adapters.PUTER_NODE_BRIDGE
                    :: llm_adapters.chat_argv chosen prompt) env])
    = ProcCompleted rc out
    /\ llm_adapters._is_bridge_auth_failure (llm_adapters.parse_bridge_stdout out) = true
    /\ llm_adapters.bridge_success (llm_adapters.parse_bridge_stdout out) = None.

(** The token a login reply carries, as the setter cleans it: empty when
    the output of the helper is no reply that is [ok]. *)
Definition login_token `{PyRuntime} (printed : option string) : string :=
  match llm_adapters.parse_bridge_stdout printed with
  | PDict d =>
      if truthy (dict_get d "ok") then remove_ws (str_or_empty (dict_get d "token"))
      else EmptyString
  | _ => EmptyString
  end.

(** Whenever the login helper is run and completes, the token of its reply
    holds no NUL character. *)
Definition logins_nul_free `{PyRuntime} (O : Outside) : Prop :=
  forall h env rc printed,
    process_answer O
      (h ++ [Spawn ("node" :: llm_adapters.PUTER_NODE_BRIDGE :: ["auth-token"]) env])
    = ProcCompleted rc printed ->
    char_in NUL (login_token printed) = false.

(** Truthiness of what a bootstrap gave, [false] when it raised. *)
Definition refreshed (r : Res (option string)) : bool :=
  match r with
  | Ok b => llm_adapters.token_truthy b
  | Raised _ => false
  end.

(** The bridge path with re-authentication after its first lines (the
    check of the helper file and the login made when no token is cached):
    the bridge call, then the forced bootstrap and the second call where
    they apply. *)
Definition reauth_tail `{PyRuntime} (cfg : llm_adapters.Config) (O : Outside)
    (argv : list string) : M pyval :=
  payload ← llm_adapters._run_puter_node_bridge cfg O argv true;
  t' ← llm_adapters._puter_token;
  if is_none payload && negb (nonempty t') then
    b ← llm_adapters._bootstrap_puter_token cfg O true;
    if llm_adapters.token_truthy b
    then llm_adapters._run_puter_node_bridge cfg O argv true
    else ret PNone
  else if llm_adapters._is_bridge_auth_failure payload then
    b ← llm_adapters._bootstrap_puter_token cfg O true;
    if llm_adapters.token_truthy b then
      retry ← llm_adapters._run_puter_node_bridge cfg O argv true;
      if negb (is_none retry) then ret retry else ret payload
    else ret payload
  else ret payload.

(** The events a login flow records besides the bootstrap call itself. *)
Definition quiet (e : Event) : bool :=
  is_spawn e || is_call_bridge ["auth-token"] e.

(** The files are kept and the history grows by quiet events only. *)
Definition quietly (w w' : World) : Prop :=
  files w' = files w
  /\ exists evs, history w' = history w ++ evs /\ forallb quiet evs = true.

(** The last character of [s], or [prev] when [s] is empty. *)
Fixpoint last_char (prev : option ascii) (s : string) : option ascii :=
  match s with
  | EmptyString => prev
  | String c s' => last_char (Some c) s'
  end.

(** [w] occurs in [t] as a whole word: no word character stands right
    before it or right after it. *)
Definition whole_word (w t : string) : Prop :=
  exists pre post,
    t = pre +:+ w +:+ post
    /\ route_prompt.is_word (last_char None pre) = false
    /\ route_prompt.is_word (route_prompt.head_char post) = false.

(** The task, in lower case, holds one of the words as a whole word. *)
Definition mentions (words : list string) (task : string) : Prop :=
  exists w, In w words /\ whole_word w (lower task).

Definition coding_words : list string :=
  ["code"; "python"; "javascript"; "bug"; "stacktrace"; "function";
   "refactor"; "compile"; "script"; "regex"; "api"].

Definition docs_words : list string :=
  ["image"; "pdf"; "scan"; "diagram"; "screenshot"; "document"; "doc"].

Definition reasoning_words : list string :=
  ["reason"; "analyse"; "analyze"; "proof"; "math"; "logic"; "plan";
   "strategy"; "difficult"; "deep"].

(** The texts a sequence of atoms accepts. *)
Fixpoint accepts (alt : list route_prompt.atom) (w : string) : bool :=
  match alt, w with
  | [], EmptyString => true
  | a :: alt', String c w' => route_prompt.atom_matches a c && accepts alt' w'
  | _, _ => false
  end.

Fixpoint chars_of (s : string) : list ascii :=
  match s with
  | EmptyString => []
  | String c s' => c :: chars_of s'
  end.

(** All the texts a sequence of atoms accepts, listed. *)
Fixpoint expand (alt : list route_prompt.atom) : list string :=
  match alt with
  | [] => [EmptyString]
  | route_prompt.Lit c :: alt' => map (String c) (expand alt')
  | route_prompt.Class cs :: alt' =>
      flat_map (fun c => map (String c) (expand alt')) (chars_of cs)
  end.

(** An alternative of a pattern between two [\b]: it is not empty and
    matches word characters only. *)
Definition wordy_atom (a : route_prompt.atom) : bool :=
  match a with
  | route_prompt.Lit c => route_prompt.is_word_char c
  | route_prompt.Class cs => all_chars route_prompt.is_word_char cs
  end.

Definition wordy (alt : list route_prompt.atom) : bool :=
  match alt with
  | [] => false
  | _ => forallb wordy_atom alt
  end.

(** A list of lines as [_upsert_env_var] leaves it: not empty, no line
    boundary inside a line, nothing to trim at the end. *)
Definition tidy (ls : list string) : Prop :=
  ls <> [] /\ Forall (fun l => no_linebreak l = true) ls /\ trim_end ls = ls.

(** The lines hold the key, and every line of the key is [key=value]. *)
Definition holds (key value : string) (ls : list string) : Prop :=
  existsb (cognitive_system.is_key_line key) ls = true
  /\ Forall (fun e => cognitive_system.is_key_line key e = true ->
                      e = cognitive_system.key_line key value) ls.

(** The text of the sink after [puter_login_store]: the three upserts, the
    last one only when [PUTER_DEFAULT_MODEL] is not in the environment. *)
Definition stored_text (old : option file) (token : string) (model_set : bool) : string :=
  let c1 := cognitive_system.upsert_env_text old "PUTER_AUTH_TOKEN" token in
  let c2 := cognitive_system.upsert_env_text (Some (TextFile c1)) "PUTER_TOKEN_SHA256"
              (cognitive_system._token_sha256 token) in
  if model_set then c2
  else cognitive_system.upsert_env_text (Some (TextFile c2)) "PUTER_DEFAULT_MODEL"
         "claude-opus-4-6".

(** ** Configurations, worlds and outsides of the examples *)

Module Examples.

Import llm_adapters.
Export ExampleRuntime.

(** JSON texts, written without quote characters in the source. *)
Definition quoted (s : string) : string := DQ +:+ s +:+ DQ.
Definition member (k v : string) : string := quoted k +:+ ": " +:+ v.
Definition object (members : list string) : string :=
  "{" +:+ join ", " members +:+ "}".

(** No static key: the bridge is the remote tier. *)
Definition cfg_bridge : Config :=
  {| PUTER_KEY := None;
     PUTER_DEFAULT_MODEL := "claude-opus-4-6";
     PUTER_FALLBACK_MODEL := "claude-opus-4-6";
     PUTER_AUTO_INSTALL_SDK := true;
     OLLAMA_MODEL := "llama3:latest";
     gemini_enabled := false |}.

(** A static key and two distinct candidate models. *)
Definition cfg_keyed : Config :=
  {| PUTER_KEY := Some "sk-static";
     PUTER_DEFAULT_MODEL := "model-a";
     PUTER_FALLBACK_MODEL := "model-b";
     PUTER_AUTO_INSTALL_SDK := true;
     OLLAMA_MODEL := "llama3:latest";
     gemini_enabled := true |}.

Definition bridge_installed : gmap string file :=
  {[ PUTER_NODE_BRIDGE := TextFile "// puter bridge" ]}.

Definition world_with_token : World :=
  mkWorld {[ "puterAuthToken" := "tok" ]} bridge_installed [].

Definition world_without_token : World :=
  mkWorld ∅ bridge_installed [].

(** A token is cached, but the bridge helper is not installed. *)
Definition world_without_helper : World :=
  mkWorld {[ "puterAuthToken" := "tok" ]} ∅ [].

(** Nothing outside answers. *)
Definition offline : Outside :=
  {| http_answer := fun _ => HttpRaises RequestException;
     process_answer := fun _ => ProcRaises FileNotFoundError;
     gemini_answer := fun _ => GeminiRaises RequestException |}.

(** Child processes: the SDK resolves, and the bridge prints [reply argv]. *)
Definition bridge_process (reply : list string -> option string)
  (h : list Event) : ProcOutcome :=
  match last h with
  | Some (Spawn ("node" :: "-e" :: _) _) => ProcCompleted 0 None
  | Some (Spawn ("node" :: _ :: argv) _) => ProcCompleted 0 (reply argv)
  | _ => ProcRaises FileNotFoundError
  end.

Definition with_bridge (reply : list string -> option string) : Outside :=
  {| http_answer := fun _ => HttpRaises RequestException;
     process_answer := bridge_process reply;
     gemini_answer := fun _ => GeminiRaises RequestException |}.

(** The login helper prints a log line, then a reply carrying [token]. *)
Definition login_reply (token : string) : option string :=
  Some ("opening browser" +:+ LF
        +:+ object [member "ok" "true"; member "token" (quoted token)] +:+ LF).

Definition login_outside (token : string) : Outside :=
  with_bridge (fun _ => login_reply token).

Definition chat_reply (content : string) : option string :=
  Some (object [member "ok" "true"; member "content" (quoted content)]).

(** The helper rejects the token: a log line, then the error reply. *)
Definition rejection : option string :=
  Some ("bridge: request failed" +:+ LF
        +:+ object [member "ok" "false";
                    member "error" (quoted "invalid_token_placeholder")]).

(** Keyed posts succeed for [model-b] only; the local server answers. *)
Definition http_model_b_only (h : list Event) : HttpOutcome :=
  match last h with
  | Some (KeyedPost _ m _) =>
      if String.eqb m "model-b"
      then HttpResponse 200 (Some (PDict [("content", PStr "hello from b")]))
      else HttpResponse 500 None
  | Some (OllamaPost _ _) =>
      HttpResponse 200 (Some (PDict [("response", PStr "local hi")]))
  | _ => HttpRaises RequestException
  end.

(** Every tier is up: keyed ([model-b]), bridge, local server, Gemini. *)
Definition all_up : Outside :=
  {| http_answer := http_model_b_only;
     process_answer := bridge_process (fun _ => chat_reply "hi from the bridge");
     gemini_answer := fun _ => GeminiText (PStr "gemini hi") |}.

(** The helper rejects every request, the login request included. *)
Definition always_rejected : Outside := with_bridge (fun _ => rejection).

(** The helper rejects every chat, and the login flow gives a new token. *)
Definition rejected_chat_fresh_login : Outside :=
  with_bridge (fun argv =>
                 match argv with
                 | sub :: _ => if String.eqb sub "auth-token"
                               then login_reply "fresh" else rejection
                 | [] => rejection
                 end).

(** The helper rejects every chat, and the login flow gives a token that
    holds a NUL character, written with its JSON escape. *)
Definition rejected_chat_nul_login : Outside :=
  with_bridge (fun argv =>
                 match argv with
                 | sub :: _ => if String.eqb sub "auth-token"
                               then login_reply "a\u0000b" else rejection
                 | [] => rejection
                 end).

(** A reply of the helper after two lines of log, the second of which looks
    like an object and is none. *)
Definition noisy_reply : option string :=
  Some ("starting" +:+ LF
        +:+ object [member "ok" "true"; member "content" (quoted "hi")] +:+ LF
        +:+ "{done}" +:+ LF).

End Examples.

(** Further worlds of the examples: a project env file, a sink written by an
    earlier login, and a URL library that parses nothing. *)
Module MoreExamples.

Import llm_adapters.
Export Examples.

Definition project_env : string :=
  "# local settings" +:+ LF
  +:+ "OLLAMA_MODEL = 'mistral'" +:+ LF
  +:+ "OLLAMA_MODEL=other" +:+ LF.

Definition world_with_project_env : World :=
  mkWorld ∅ {[ ".env" := TextFile project_env ]} [].

Definition earlier_sink : string :=
  "PUTER_AUTH_TOKEN=old" +:+ LF +:+ "NOTE=two words " +:+ LF.

Definition world_with_sink : World :=
  mkWorld ∅ {[ cognitive_system.LLM_ENV_PATH := TextFile earlier_sink ]} [].

Definition no_urlparse (raw : string) : option (string * string) := None.
Definition no_parse_qs (query : string) : gmap string (list string) := ∅.
Definition no_unquote (s : string) : string := s.

End MoreExamples.

(** ** Vocabulary for the properties of the adapters *)

(** Nothing to strip at either end. *)
Definition stripped (s : string) : Prop := strip s = s.

Definition is_gemini_call (e : Event) : bool :=
  match e with
  | GeminiGenerate _ => true
  | _ => false
  end.

(** The events of the bridge path: processes spawned, and the records of the
    calls of the bootstrap and of the bridge invoker. *)
Definition is_bridge_side (e : Event) : bool :=
  match e with
  | Spawn _ _ | CallBootstrap _ | CallBridge _ _ => true
  | _ => false
  end.

(** The events of the remote tier: keyed posts and the bridge path. *)
Definition is_puter_side (e : Event) : bool := is_keyed_post e || is_bridge_side e.

Definition is_call_of_bootstrap (e : Event) : bool :=
  match e with
  | CallBootstrap _ => true
  | _ => false
  end.

(** The files are kept and the history grows by events of the class [P]. *)
Definition grows_by (P : Event -> bool) (w w' : World) : Prop :=
  files w' = files w
  /\ exists evs, history w' = history w ++ evs /\ forallb P evs = true.

(** Only the two variables of the token may differ. *)
Definition same_but_token (w w' : World) : Prop :=
  forall k, k <> "puterAuthToken" -> k <> "PUTER_AUTH_TOKEN" ->
            environ w' !! k = environ w !! k.

(** What [query_ollama] makes of the answer it ends with. *)
Definition ollama_reply (answer : HttpOutcome) : pyval :=
  match answer with
  | HttpResponse st (Some (PDict d)) =>
      if (400 <=? st) && (st <? 600) then PNone else dict_get d "response"
  | _ => PNone
  end.


(** The files are kept, the history grows by events of the class [P], and
    only the variables of the token may change. *)
Definition remote_frame (P : Event -> bool) (w w' : World) : Prop :=
  grows_by P w w' /\ same_but_token w w'.

(** Whether the answer to the SDK check is a return code 0. *)
Definition check_passed (answer : ProcOutcome) : bool :=
  match answer with
  | ProcCompleted rc _ => rc =? 0
  | ProcRaises _ => false
  end.

(** The value the first assignment of [key] in the lines gives it. *)
Fixpoint first_value (key : string) (lines : list string) : option string :=
  match lines with
  | [] => None
  | line :: rest =>
      match llm_adapters_more.env_entry line with
      | Some (k, v) => if String.eqb k key then Some v else first_value key rest
      | None => first_value key rest
      end
  end.

(** No assignment of the lines holds a NUL character. *)
Definition loadable (lines : list string) : Prop :=
  forall line key val,
    In line lines -> llm_adapters_more.env_entry line = Some (key, val) ->
    putenv_fails key val = false.

(** What [/ask] may give: the status 503, or an answer of a provider with a
    reply that is not empty; an answer of the remote tier is never marked as
    a fallback. *)
Definition ask_outcome `{PyRuntime} (req : qtmos_server.AskRequest)
    (out : qtmos_server.HTTPException + pyval) : Prop :=
  match out with
  | inl e => qtmos_server.status_code e = 503
  | inr a =>
      exists provider used reply fallback_used,
        a = qtmos_server.ask_answer provider used req reply fallback_used
        /\ truthy reply = true
        /\ (provider = "ollama" \/ (provider = "puter" /\ fallback_used = false))
  end.

(** The local attempt of [/ask] with the fallback model. *)
Definition local_attempt `{PyRuntime} (cfg : llm_adapters.Config) (O : Outside)
    (req : qtmos_server.AskRequest) (fallback_model : string) : M (option pyval) :=
  local_reply ← llm_adapters.query_ollama cfg O (qtmos_server.prompt req)
                  (Some fallback_model);
  if truthy local_reply
  then ret (Some (qtmos_server.ask_answer "ollama" (PStr fallback_model) req
                    local_reply true))
  else ret None.

(** Every line the loaders read as an assignment of [key] is a line the
    upsert takes for a line of [key]: the name is right before the [=]. *)
Definition plainly_assigned (key : string) (lines : list string) : Prop :=
  forall line v,
    In line lines -> llm_adapters_more.env_entry line = Some (key, v) ->
    cognitive_system.is_key_line key line = true.

(** No line is read by the login command as an assignment of a token unless
    the upsert takes it for a line of [PUTER_AUTH_TOKEN]. *)
Definition token_lines_plain (lines : list string) : Prop :=
  forall line t,
    In line lines -> cognitive_system_login.login_entry line = Some t ->
    cognitive_system.is_key_line "PUTER_AUTH_TOKEN" line = true.

(** Where a line of the stored sink comes from: one of the three lines of
    the store, or a line of the old sink that is no line of the token, as it
    was or trimmed at its end. *)
Definition stored_line_origin (old_lines : list string) (token l : string) : Prop :=
  l = cognitive_system.key_line "PUTER_AUTH_TOKEN" token
  \/ l = cognitive_system.key_line "PUTER_TOKEN_SHA256" (cognitive_system._token_sha256 token)
  \/ l = cognitive_system.key_line "PUTER_DEFAULT_MODEL" "claude-opus-4-6"
  \/ exists l0, In l0 old_lines
                /\ cognitive_system.is_key_line "PUTER_AUTH_TOKEN" l0 = false
                /\ (l = l0 \/ l = rstrip l0).

(** The requests [_run_with_fallbacks] makes for the models, in order. *)
Definition asks (base_url task : string) (models : list string)
  : list route_prompt_run.ApiRequest :=
  map (fun m => route_prompt_run.mkApiRequest
                  (rstrip_chars "/" base_url +:+ "/ask")
                  (route_prompt_run.ask_payload task (Some m)))
      models.

(** The model an entry of the attempts trail names. *)
Definition attempt_model (a : pyval) : pyval :=
  match a with
  | PDict d => dict_get d "model"
  | _ => PNone
  end.

Section FallbackVocabulary.

Import route_prompt_run.

Context {RT : PyRuntime}.
Variable urlopen : list ApiRequest -> UrlOutcome.
Variable elapsed_ms : list ApiRequest -> Z.
Variable json_error : string -> string.
Variable request_raises : string -> bool.

(** The reply to the [i]-th model of [todo], asked after the ones before. *)
Definition reply_at (base task : string) (todo : list string) (h : list ApiRequest)
    (i : nat) (m : string) : Res (list (string * pyval)) :=
  fst (_run_single urlopen elapsed_ms json_error request_raises base task (Some m)
         (h ++ asks base task (take i todo))).

(** The first [k] models were asked and none of their replies was ok. *)
Definition failed_before (base task : string) (todo : list string)
    (h : list ApiRequest) (k : nat) : Prop :=
  forall i m, (i < k)%nat -> todo !! i = Some m ->
    exists out, reply_at base task todo h i m = Ok out
                /\ truthy (dict_get out "ok") = false.

End FallbackVocabulary.

(** A chat message [chat_ollama] can read: a JSON object whose content,
    when its role is [user] or [system], is a text; a content that is
    absent counts as the empty text. *)
Definition readable_message (m : pyval) : bool :=
  match m with
  | PDict d =>
      if llm_adapters_more.speaks (dict_get d "role")
      then match dict_get_or d "content" (PStr EmptyString) with
           | PStr _ => true
           | _ => false
           end
      else true
  | _ => false
  end.

(** The texts of the user and system messages of a chat, in order. *)
Definition spoken (ms : list pyval) : list string :=
  flat_map (fun m =>
              match m with
              | PDict d =>
                  if llm_adapters_more.speaks (dict_get d "role")
                  then match dict_get_or d "content" (PStr EmptyString) with
                       | PStr s => [s]
                       | _ => []
                       end
                  else []
              | _ => []
              end) ms.

(** A lower-case hexadecimal digit. *)
Definition is_hex (c : ascii) : bool := in_range 48 57 c || in_range 97 102 c.

(** The words of a [puter-chat] line that make the prompt: those that are no
    model flag and do not follow one as its value. *)
Fixpoint prompt_words (tokens : list string) : list string :=
  match tokens with
  | [] => []
  | tok :: rest =>
      if cognitive_system_login.is_model_flag tok
      then match rest with
           | [] => []
           | _ :: rest' => prompt_words rest'
           end
      else tok :: prompt_words rest
  end.

(** The model a [puter-chat] line chooses: the value of its last model
    flag. *)
Fixpoint chosen_model (tokens : list string) : option string :=
  match tokens with
  | [] => None
  | tok :: rest =>
      if cognitive_system_login.is_model_flag tok
      then match rest with
           | [] => None
           | value :: rest' => Some (default value (chosen_model rest'))
           end
      else chosen_model rest
  end.

(** Every model flag of the line is followed by a value. *)
Fixpoint flags_have_values (tokens : list string) : bool :=
  match tokens with
  | [] => true
  | tok :: rest =>
      if cognitive_system_login.is_model_flag tok
      then match rest with
           | [] => false
           | _ :: rest' => flags_have_values rest'
           end
      else flags_have_values rest
  end.

(** * Properties *)

(** ** Text operations *)

Section TextLemmas.

Lemma append_nil_l (s : string) : EmptyString +:+ s = s.
Proof. reflexivity. Qed.

Lemma append_cons c (s t : string) : String c s +:+ t = String c (s +:+ t).
Proof. reflexivity. Qed.

Lemma append_nil_r (s : string) : s +:+ EmptyString = s.
Proof.
  induction s as [|c s IH]; [reflexivity|].
  now rewrite append_cons, IH.
Qed.

Lemma append_assoc (a b c : string) : (a +:+ b) +:+ c = a +:+ (b +:+ c).
Proof.
  induction a as [|x a IH]; [reflexivity|].
  now rewrite !append_cons, IH.
Qed.

Lemma all_chars_app P (a b : string) :
  all_chars P (a +:+ b) = all_chars P a && all_chars P b.
Proof.
  induction a as [|c a IH]; [reflexivity|].
  rewrite append_cons. cbn. rewrite IH. now rewrite andb_assoc.
Qed.

Lemma linebreak_isspace c : is_linebreak c = true -> isspace c = true.
Proof. destruct c as [[] [] [] [] [] [] [] []]; cbn; congruence. Qed.

Lemma no_space_no_linebreak s : no_space s = true -> no_linebreak s = true.
Proof.
  unfold no_space, no_linebreak.
  induction s as [|c s IH]; cbn; [reflexivity|].
  intros [Hc Hs]%andb_prop. rewrite (IH Hs), andb_true_r.
  destruct (is_linebreak c) eqn:E; [|reflexivity].
  now rewrite (linebreak_isspace _ E) in Hc.
Qed.

Lemma remove_ws_no_space s : no_space (remove_ws s) = true.
Proof.
  unfold no_space. induction s as [|c s IH]; cbn; [reflexivity|].
  destruct (isspace c) eqn:E; cbn; [assumption|].
  now rewrite E, IH.
Qed.

Lemma remove_ws_fixed s : no_space s = true -> remove_ws s = s.
Proof.
  unfold no_space. induction s as [|c s IH]; cbn; [reflexivity|].
  intros [Hc Hs]%andb_prop. destruct (isspace c); [discriminate|].
  now rewrite (IH Hs).
Qed.

Lemma remove_ws_idem s : remove_ws (remove_ws s) = remove_ws s.
Proof. apply remove_ws_fixed, remove_ws_no_space. Qed.

Lemma remove_ws_only_space s : only_space s = true -> remove_ws s = EmptyString.
Proof.
  unfold only_space. induction s as [|c s IH]; cbn; [reflexivity|].
  intros [Hc Hs]%andb_prop. rewrite Hc. auto.
Qed.

Lemma remove_ws_empty_inv s : remove_ws s = EmptyString -> only_space s = true.
Proof.
  unfold only_space. induction s as [|c s IH]; cbn; [reflexivity|].
  destruct (isspace c); cbn; [assumption | discriminate].
Qed.

Lemma nonempty_false s : nonempty s = false <-> s = EmptyString.
Proof.
  unfold nonempty. destruct s; cbn; split; congruence.
Qed.

Lemma nonempty_true s : nonempty s = true <-> s <> EmptyString.
Proof.
  unfold nonempty. destruct s; cbn; split; congruence.
Qed.

End TextLemmas.

(** *** Trimming *)

Section Trimming.

Lemma rstrip_app (a b : string) :
  rstrip (a +:+ b) = match rstrip b with
                     | EmptyString => rstrip a
                     | String _ _ => a +:+ rstrip b
                     end.
Proof.
  induction a as [|c a IH].
  - rewrite append_nil_l. now destruct (rstrip b).
  - rewrite append_cons. cbn [rstrip]. rewrite IH.
    destruct (rstrip b) as [|x r]; [reflexivity|].
    rewrite append_cons. destruct a; reflexivity.
Qed.

Lemma rstrip_only_space s : rstrip s = EmptyString <-> only_space s = true.
Proof.
  unfold only_space. induction s as [|c s IH]; cbn; [tauto|].
  destruct (rstrip s) as [|x r].
  - destruct (isspace c); cbn; [tauto|]. split; discriminate.
  - split; [discriminate|]. intros [_ Hs]%andb_prop.
    apply IH in Hs. discriminate.
Qed.

Lemma rstrip_idem s : rstrip (rstrip s) = rstrip s.
Proof.
  induction s as [|c s IH]; [reflexivity|].
  cbn [rstrip]. destruct (rstrip s) as [|x r] eqn:E.
  - destruct (isspace c) eqn:Ec; [reflexivity|]. cbn. now rewrite Ec.
  - cbn [rstrip]. cbn [rstrip] in IH. rewrite IH. reflexivity.
Qed.

Lemma strip_rstrip s : strip (rstrip s) = strip s.
Proof. unfold strip. now rewrite rstrip_idem. Qed.

Lemma all_chars_rstrip P s : all_chars P s = true -> all_chars P (rstrip s) = true.
Proof.
  induction s as [|c s IH]; [reflexivity|]. cbn.
  intros [Hc Hs]%andb_prop. specialize (IH Hs).
  destruct (rstrip s) as [|x r].
  - destruct (isspace c); cbn; [reflexivity | now rewrite Hc].
  - cbn. cbn in IH. now rewrite Hc, IH.
Qed.

Lemma rstrip_LF_app s :
  rstrip (LF +:+ s) = match rstrip s with
                       | EmptyString => EmptyString
                       | String _ _ => LF +:+ rstrip s
                       end.
Proof. rewrite rstrip_app. now destruct (rstrip s). Qed.

Lemma join_cons2 sep l l2 ls :
  join sep (l :: l2 :: ls) = l +:+ sep +:+ join sep (l2 :: ls).
Proof. reflexivity. Qed.

Lemma trim_end_last_nonempty ls :
  trim_end ls <> [] -> join LF (trim_end ls) <> EmptyString.
Proof.
  induction ls as [|l ls IH]; cbn; [congruence|].
  destruct (trim_end ls) as [|r rs] eqn:E.
  - destruct (rstrip l); [congruence|]. cbn. congruence.
  - intros _. rewrite join_cons2. destruct l; cbn; discriminate.
Qed.

(** Trimming the joined text on the right trims the list of lines at its
    end. *)
Lemma rstrip_join ls : rstrip (join LF ls) = join LF (trim_end ls).
Proof.
  induction ls as [|l ls IH]; [reflexivity|].
  destruct ls as [|l2 ls].
  - cbn. now destruct (rstrip l).
  - rewrite join_cons2, rstrip_app, rstrip_LF_app, IH.
    cbn [trim_end]. cbn [trim_end] in IH.
    pose proof (trim_end_last_nonempty (l2 :: ls)) as Hne. cbn [trim_end] in Hne.
    destruct (match trim_end ls with
              | [] => match rstrip l2 with EmptyString => [] | String a s => [String a s] end
              | s :: l0 => l2 :: s :: l0
              end) as [|r rs] eqn:E.
    + cbn. now destruct (rstrip l).
    + destruct (join LF (r :: rs)) eqn:EJ; [now exfalso; apply Hne|].
      rewrite join_cons2, EJ. reflexivity.
Qed.

Lemma trim_end_idem ls : trim_end (trim_end ls) = trim_end ls.
Proof.
  induction ls as [|l ls IH]; [reflexivity|]. cbn.
  destruct (trim_end ls) as [|r rs] eqn:E.
  - destruct (rstrip l) as [|x t] eqn:El; [reflexivity|].
    cbn [trim_end]. rewrite <- El, rstrip_idem, El. reflexivity.
  - cbn [trim_end]. cbn [trim_end] in IH. rewrite IH. reflexivity.
Qed.

End Trimming.

(** *** Lines *)

Section Lines.

Lemma string_ind2 (P : string -> Prop) :
  P EmptyString ->
  (forall c, P (String c EmptyString)) ->
  (forall c d s, P s -> P (String d s) -> P (String c (String d s))) ->
  forall s, P s.
Proof.
  intros H0 H1 H2.
  assert (forall s, P s /\ forall c, P (String c s)) as Hboth.
  { induction s as [|d s [IH1 IH2]]; [split; auto|].
    split; [apply IH2|]. intros c. apply H2; auto. }
  intros s. apply Hboth.
Qed.

Lemma splitlines_cons_nonbreak c s :
  is_linebreak c = false ->
  splitlines (String c s) = match splitlines s with
                            | [] => [String c EmptyString]
                            | l :: ls => String c l :: ls
                            end.
Proof. intros E. cbn. now rewrite E. Qed.

(** The lines [splitlines] returns contain no line boundary. *)
Lemma splitlines_no_linebreak s :
  Forall (fun l => no_linebreak l = true) (splitlines s).
Proof.
  induction s as [| c | c d s IH1 IH2] using string_ind2.
  - constructor.
  - cbn. destruct (is_linebreak c) eqn:E.
    + destruct (Ascii.eqb c "013"); repeat constructor.
    + repeat constructor. unfold no_linebreak. cbn. now rewrite E.
  - destruct (is_linebreak c) eqn:E.
    + cbn [splitlines]. rewrite E. constructor; [reflexivity|].
      destruct (Ascii.eqb c "013"); [|assumption].
      destruct (Ascii.eqb d "010"); assumption.
    + rewrite (splitlines_cons_nonbreak _ _ E).
      destruct (splitlines (String d s)) as [|l ls].
      * repeat constructor. unfold no_linebreak. cbn. now rewrite E.
      * inversion IH2 as [|? ? Hl Hls]; subst. constructor; [|assumption].
        unfold no_linebreak in *. cbn. now rewrite E, Hl.
Qed.

Lemma splitlines_line_app l rest :
  no_linebreak l = true ->
  splitlines (l +:+ LF +:+ rest) = l :: splitlines rest.
Proof.
  unfold no_linebreak. induction l as [|c l IH]; intros Hl.
  - reflexivity.
  - cbn in Hl. apply andb_prop in Hl as [Hc Hl].
    rewrite append_cons, splitlines_cons_nonbreak by now destruct (is_linebreak c).
    now rewrite (IH Hl).
Qed.

Lemma splitlines_join ls :
  ls <> [] ->
  Forall (fun l => no_linebreak l = true) ls ->
  splitlines (join LF ls +:+ LF) = ls.
Proof.
  induction ls as [|l ls IH]; [congruence|]. intros _ Hall.
  inversion Hall as [|? ? Hl Hls]; subst.
  destruct ls as [|l2 ls].
  - cbn [join]. replace (l +:+ LF) with (l +:+ LF +:+ EmptyString)
      by now rewrite append_nil_r.
    now rewrite splitlines_line_app.
  - rewrite join_cons2, !append_assoc, splitlines_line_app by assumption.
    f_equal. apply IH; [congruence | assumption].
Qed.

Lemma universal_newlines_id s :
  no_cr s = true -> cognitive_system.universal_newlines s = s.
Proof.
  unfold no_cr. induction s as [|c s IH]; [reflexivity|].
  cbn. intros [Hc Hs]%andb_prop.
  destruct (Ascii.eqb c "013"); [discriminate|]. now rewrite (IH Hs).
Qed.

Lemma no_linebreak_no_cr s : no_linebreak s = true -> no_cr s = true.
Proof.
  unfold no_linebreak, no_cr. induction s as [|c s IH]; [reflexivity|].
  cbn. intros [Hc Hs]%andb_prop. rewrite (IH Hs), andb_true_r.
  destruct (Ascii.eqb_spec c "013") as [->|]; [discriminate | reflexivity].
Qed.

Lemma no_cr_join ls :
  Forall (fun l => no_linebreak l = true) ls -> no_cr (join LF ls +:+ LF) = true.
Proof.
  unfold no_cr. induction ls as [|l ls IH]; intros Hall; [reflexivity|].
  inversion Hall as [|? ? Hl Hls]; subst.
  apply no_linebreak_no_cr in Hl. unfold no_cr in Hl.
  destruct ls as [|l2 ls].
  - cbn [join]. now rewrite all_chars_app, Hl.
  - rewrite join_cons2, !append_assoc, all_chars_app, Hl.
    rewrite all_chars_app. cbn [andb]. now rewrite (IH Hls).
Qed.

Lemma Forall_trim_end (P : ascii -> bool) ls :
  Forall (fun l => all_chars P l = true) ls ->
  Forall (fun l => all_chars P l = true) (trim_end ls).
Proof.
  induction ls as [|l ls IH]; intros Hall; [constructor|].
  inversion Hall as [|? ? Hl Hls]; subst. cbn.
  specialize (IH Hls).
  destruct (trim_end ls) as [|r rs].
  - pose proof (all_chars_rstrip P l Hl) as Hr.
    destruct (rstrip l); repeat constructor; assumption.
  - constructor; assumption.
Qed.

End Lines.

(** ** The durable sink *)

Section Sink.

Import cognitive_system.

Lemma upsert_step_spec key value acc b l :
  upsert_step key value (acc, b) l
  = (acc ++ [replace_line key value l], b || is_key_line key l).
Proof.
  unfold upsert_step, replace_line. cbn [fst snd].
  destruct (is_key_line key l); [now rewrite orb_true_r | now rewrite orb_false_r].
Qed.

Lemma upsert_loop_acc key value lines acc b :
  fold_left (upsert_step key value) lines (acc, b)
  = (acc ++ map (replace_line key value) lines,
     b || existsb (is_key_line key) lines).
Proof.
  revert acc b. induction lines as [|l ls IH]; intros acc b; cbn [fold_left map existsb].
  - now rewrite app_nil_r, orb_false_r.
  - rewrite upsert_step_spec, IH, <- app_assoc, orb_assoc. reflexivity.
Qed.

Lemma upsert_loop_spec key value lines :
  upsert_loop key value lines
  = (map (replace_line key value) lines, existsb (is_key_line key) lines).
Proof. unfold upsert_loop. now rewrite upsert_loop_acc. Qed.

Lemma map_replace_no_key key value lines :
  existsb (is_key_line key) lines = false ->
  map (replace_line key value) lines = lines.
Proof.
  induction lines as [|l ls IH]; [reflexivity|]. cbn.
  intros [Hl Hls]%orb_false_elim. unfold replace_line at 1.
  now rewrite Hl, (IH Hls).
Qed.

(** The text written is the joined upserted lines, trimmed at the end, and
    one line feed. *)
Lemma upsert_env_text_lines old key value :
  upsert_env_text old key value
  = join LF (trim_end (upserted_lines key value (read_lines old))) +:+ LF.
Proof.
  unfold upsert_env_text, upserted_lines. rewrite upsert_loop_spec. cbn [fst snd].
  rewrite rstrip_join.
  destruct (existsb (is_key_line key) (read_lines old)) eqn:E; [reflexivity|].
  now rewrite (map_replace_no_key _ _ _ E).
Qed.

Lemma prefix_app (a b : string) : String.prefix a (a +:+ b) = true.
Proof.
  induction a as [|c a IH]; [now destruct b|].
  rewrite append_cons. cbn. destruct (ascii_dec c c); [assumption | congruence].
Qed.

Lemma rstrip_key_line key value :
  exists r, rstrip (key_line key value) = (key +:+ "=") +:+ r.
Proof.
  unfold key_line. rewrite rstrip_app.
  change ("=" +:+ value) with (String "="%char value). cbn [rstrip].
  destruct (rstrip value) as [|x r].
  - cbn. exists EmptyString. now rewrite append_nil_r.
  - exists (String x r). now rewrite append_assoc.
Qed.

Lemma lstrip_valid_key key r :
  valid_key key = true -> lstrip ((key +:+ "=") +:+ r) = (key +:+ "=") +:+ r.
Proof.
  unfold valid_key. intros [_ Hk]%andb_prop.
  destruct key as [|c k]; [reflexivity|].
  rewrite !append_cons. cbn. now destruct (isspace c).
Qed.

Lemma key_line_is_key_line key value :
  valid_key key = true -> is_key_line key (key_line key value) = true.
Proof.
  intros Hk. unfold is_key_line, strip, startswith.
  destruct (rstrip_key_line key value) as [r ->].
  rewrite (lstrip_valid_key _ _ Hk). apply prefix_app.
Qed.

Lemma is_key_line_rstrip key l : is_key_line key (rstrip l) = is_key_line key l.
Proof. unfold is_key_line. now rewrite strip_rstrip. Qed.

Lemma is_key_line_not_blank key l :
  is_key_line key l = true -> rstrip l <> EmptyString.
Proof.
  unfold is_key_line, strip, startswith. intros Hp E. rewrite E in Hp.
  destruct key; discriminate.
Qed.

Lemma existsb_trim_end key ls :
  existsb (is_key_line key) ls = true ->
  existsb (is_key_line key) (trim_end ls) = true.
Proof.
  induction ls as [|l ls IH]; [discriminate|]. cbn [existsb trim_end].
  intros [Hl|Hls]%orb_prop.
  - destruct (trim_end ls) as [|r rs].
    + pose proof (is_key_line_not_blank _ _ Hl) as Hne.
      pose proof (is_key_line_rstrip key l) as Hr. rewrite Hl in Hr.
      destruct (rstrip l); [congruence|]. cbn [existsb]. now rewrite Hr.
    + cbn [existsb]. now rewrite Hl.
  - specialize (IH Hls). destruct (trim_end ls) as [|r rs]; [discriminate|].
    cbn [existsb]. cbn [existsb] in IH. rewrite IH. apply orb_true_r.
Qed.

(** Every line is the key line or is not a line of the key. *)
Definition settled (key value : string) (ls : list string) : Prop :=
  Forall (fun e => e = key_line key value \/ is_key_line key e = false) ls.

Lemma settled_upserted key value lines :
  valid_key key = true -> settled key value (upserted_lines key value lines).
Proof.
  intros Hk. unfold settled, upserted_lines.
  destruct (existsb (is_key_line key) lines) eqn:E.
  - apply List.Forall_forall. intros e [l [<- _]]%in_map_iff. unfold replace_line.
    destruct (is_key_line key l) eqn:El; auto.
  - apply Forall_app. split.
    + apply List.Forall_forall. intros e He.
      right. destruct (is_key_line key e) eqn:Ee; [|reflexivity].
      assert (existsb (is_key_line key) lines = true) as Hex
        by (apply existsb_exists; eauto).
      congruence.
    + constructor; [now left | constructor].
Qed.

Lemma has_key_upserted key value lines :
  valid_key key = true ->
  existsb (is_key_line key) (upserted_lines key value lines) = true.
Proof.
  intros Hk. unfold upserted_lines.
  destruct (existsb (is_key_line key) lines) eqn:E.
  - apply existsb_exists in E as [l [Hin Hl]]. apply existsb_exists.
    exists (replace_line key value l). split; [now apply in_map|].
    unfold replace_line. rewrite Hl. now apply key_line_is_key_line.
  - rewrite existsb_app. cbn. rewrite (key_line_is_key_line _ _ Hk).
    now rewrite orb_true_r.
Qed.

Lemma replace_settled_rstrip key value l :
  valid_key key = true ->
  l = key_line key value \/ is_key_line key l = false ->
  rstrip (replace_line key value (rstrip l)) = rstrip l.
Proof.
  intros Hk [->|Hl]; unfold replace_line; rewrite is_key_line_rstrip.
  - now rewrite key_line_is_key_line.
  - rewrite Hl. apply rstrip_idem.
Qed.

Lemma replace_settled key value l :
  valid_key key = true ->
  l = key_line key value \/ is_key_line key l = false ->
  replace_line key value l = l.
Proof.
  intros Hk [->|Hl]; unfold replace_line.
  - now rewrite key_line_is_key_line.
  - now rewrite Hl.
Qed.

(** Upserting again changes nothing that survives the trimming. *)
Lemma trim_end_replace_settled key value ls :
  valid_key key = true ->
  settled key value ls ->
  trim_end (map (replace_line key value) (trim_end ls)) = trim_end ls.
Proof.
  intros Hk. induction ls as [|l ls IH]; intros Hs; [reflexivity|].
  inversion Hs as [|? ? Hl Hls]; subst. specialize (IH Hls).
  cbn [trim_end]. destruct (trim_end ls) as [|r rs] eqn:E.
  - pose proof (replace_settled_rstrip key value l Hk Hl) as Hr.
    destruct (rstrip l) as [|x t] eqn:El; [reflexivity|].
    cbn [map trim_end]. rewrite Hr. reflexivity.
  - cbn [map]. cbn [map] in IH. cbn [trim_end]. cbn [trim_end] in IH.
    rewrite IH. now rewrite (replace_settled _ _ _ Hk Hl).
Qed.

Lemma read_lines_no_linebreak old :
  Forall (fun l => no_linebreak l = true) (read_lines old).
Proof.
  destruct old as [[|content]|]; cbn; try constructor.
  apply splitlines_no_linebreak.
Qed.

Lemma no_linebreak_key_line key value :
  no_linebreak key = true -> no_linebreak value = true ->
  no_linebreak (key_line key value) = true.
Proof.
  unfold no_linebreak, key_line. intros Hk Hv.
  now rewrite !all_chars_app, Hk, Hv.
Qed.

Lemma no_linebreak_upserted key value lines :
  no_linebreak key = true -> no_linebreak value = true ->
  Forall (fun l => no_linebreak l = true) lines ->
  Forall (fun l => no_linebreak l = true) (upserted_lines key value lines).
Proof.
  intros Hk Hv Hall. unfold upserted_lines.
  destruct (existsb (is_key_line key) lines).
  - apply List.Forall_forall. intros e [l [<- Hin]]%in_map_iff. unfold replace_line.
    destruct (is_key_line key l).
    + now apply no_linebreak_key_line.
    + exact (proj1 (List.Forall_forall _ _) Hall l Hin).
  - apply Forall_app. split; [assumption|].
    repeat constructor. now apply no_linebreak_key_line.
Qed.

(** Reading back what was written gives the trimmed lines. *)
Lemma read_lines_written ls :
  ls <> [] ->
  Forall (fun l => no_linebreak l = true) ls ->
  read_lines (Some (TextFile (join LF ls +:+ LF))) = ls.
Proof.
  intros Hne Hall. cbn [read_lines].
  rewrite universal_newlines_id by now apply no_cr_join.
  now apply splitlines_join.
Qed.

Lemma valid_key_no_linebreak key : valid_key key = true -> no_linebreak key = true.
Proof. unfold valid_key. now intros [? _]%andb_prop. Qed.

Lemma trim_end_upserted_nonempty key value lines :
  valid_key key = true -> trim_end (upserted_lines key value lines) <> [].
Proof.
  intros Hk E.
  pose proof (existsb_trim_end key _ (has_key_upserted key value lines Hk)) as Hex.
  rewrite E in Hex. discriminate.
Qed.

Lemma read_lines_upserted old key value :
  valid_key key = true -> no_linebreak value = true ->
  read_lines (Some (TextFile (upsert_env_text old key value)))
  = trim_end (upserted_lines key value (read_lines old)).
Proof.
  intros Hk Hv. rewrite upsert_env_text_lines. apply read_lines_written.
  - now apply trim_end_upserted_nonempty.
  - apply (Forall_trim_end (fun c => negb (is_linebreak c))).
    apply no_linebreak_upserted; auto using valid_key_no_linebreak, read_lines_no_linebreak.
Qed.

(** Upserting a second time writes the same text. *)
Lemma upsert_env_text_idem old key value :
  valid_key key = true -> no_linebreak value = true ->
  upsert_env_text (Some (TextFile (upsert_env_text old key value))) key value
  = upsert_env_text old key value.
Proof.
  intros Hk Hv.
  rewrite (upsert_env_text_lines (Some _)), (read_lines_upserted _ _ _ Hk Hv).
  rewrite (upsert_env_text_lines old).
  set (out := upserted_lines key value (read_lines old)).
  unfold upserted_lines at 1.
  rewrite (existsb_trim_end key out) by now apply has_key_upserted.
  rewrite trim_end_replace_settled; [reflexivity | assumption |].
  now apply settled_upserted.
Qed.

End Sink.

(** ** The three upserts of the token store *)

Section SinkStore.

Import cognitive_system.

Lemma rstrip_no_space s : no_space s = true -> rstrip s = s.
Proof.
  unfold no_space. induction s as [|c s IH]; [reflexivity|].
  cbn. intros [Hc Hs]%andb_prop. rewrite (IH Hs).
  destruct s; [|reflexivity]. now destruct (isspace c).
Qed.

(** A value without whitespace leaves nothing to trim in its line. *)
Lemma rstrip_key_line_no_space key value :
  no_space value = true -> rstrip (key_line key value) = key_line key value.
Proof.
  intros Hv. unfold key_line. rewrite rstrip_app.
  assert (rstrip ("=" +:+ value) = "=" +:+ value) as ->.
  { apply rstrip_no_space. unfold no_space in *.
    change ("=" +:+ value) with (String "="%char value). cbn. exact Hv. }
  reflexivity.
Qed.

Lemma in_trim_end e ls :
  In e (trim_end ls) -> exists e0, In e0 ls /\ (e = e0 \/ e = rstrip e0).
Proof.
  induction ls as [|l ls IH]; [intros []|]. cbn [trim_end].
  destruct (trim_end ls) as [|r rs].
  - destruct (rstrip l) as [|x t] eqn:El; [intros []|].
    intros [<-|[]]. exists l. split; [now left | right; now rewrite El].
  - intros [<-|Hin].
    + exists l. split; [now left | now left].
    + destruct (IH Hin) as (e0 & Hin0 & He). exists e0. split; [now right | assumption].
Qed.

Lemma in_upserted e key value lines :
  In e (upserted_lines key value lines) ->
  e = key_line key value \/ (In e lines /\ is_key_line key e = false).
Proof.
  unfold upserted_lines. destruct (existsb (is_key_line key) lines) eqn:E.
  - intros [l [<- Hin]]%in_map_iff. unfold replace_line.
    destruct (is_key_line key l) eqn:El; [now left | right; auto].
  - intros [Hin|[<-|[]]]%in_app_or; [right | now left]. split; [assumption|].
    destruct (is_key_line key e) eqn:Ee; [|reflexivity].
    assert (existsb (is_key_line key) lines = true) by (apply existsb_exists; eauto).
    congruence.
Qed.

Lemma upserted_keeps e key value lines :
  In e lines -> is_key_line key e = false -> In e (upserted_lines key value lines).
Proof.
  intros Hin He. unfold upserted_lines.
  destruct (existsb (is_key_line key) lines).
  - apply in_map_iff. exists e. split; [|assumption]. unfold replace_line. now rewrite He.
  - apply in_or_app. now left.
Qed.

Lemma holds_key_line_in key value ls : holds key value ls -> In (key_line key value) ls.
Proof.
  intros [Hex Hall]. apply existsb_exists in Hex as (e & Hin & He).
  rewrite List.Forall_forall in Hall. now rewrite <- (Hall e Hin He).
Qed.

Lemma tidy_upserted old key value :
  valid_key key = true -> no_linebreak value = true ->
  tidy (trim_end (upserted_lines key value (read_lines old))).
Proof.
  intros Hk Hv. split; [now apply trim_end_upserted_nonempty|]. split.
  - apply (Forall_trim_end (fun c => negb (is_linebreak c))).
    apply no_linebreak_upserted; auto using valid_key_no_linebreak, read_lines_no_linebreak.
  - apply trim_end_idem.
Qed.

(** After an upsert the lines hold the key. *)
Lemma holds_upserted key value lines :
  valid_key key = true -> no_space value = true ->
  holds key value (trim_end (upserted_lines key value lines)).
Proof.
  intros Hk Hv. split.
  - apply existsb_trim_end. now apply has_key_upserted.
  - apply List.Forall_forall. intros e [e0 [Hin0 He]]%in_trim_end Hkey.
    assert (is_key_line key e0 = true) as Hkey0
      by (destruct He as [->| ->]; [assumption | now rewrite is_key_line_rstrip in Hkey]).
    destruct (in_upserted _ _ _ _ Hin0) as [->|[_ Hno]]; [|congruence].
    destruct He as [->| ->]; [reflexivity | now apply rstrip_key_line_no_space].
Qed.

(** An upsert of another key keeps what the lines hold. *)
Lemma holds_other_key key1 value1 key2 value2 lines :
  no_space value1 = true ->
  is_key_line key2 (key_line key1 value1) = false ->
  is_key_line key1 (key_line key2 value2) = false ->
  holds key1 value1 lines ->
  holds key1 value1 (trim_end (upserted_lines key2 value2 lines)).
Proof.
  intros Hv1 H21 H12 Hholds. pose proof (holds_key_line_in _ _ _ Hholds) as Hin1.
  destruct Hholds as [Hex Hall]. rewrite List.Forall_forall in Hall. split.
  - apply existsb_trim_end, existsb_exists. exists (key_line key1 value1).
    split; [now apply upserted_keeps|].
    apply existsb_exists in Hex as (e & Hin & He). now rewrite <- (Hall e Hin He).
  - apply List.Forall_forall. intros e [e0 [Hin0 He]]%in_trim_end Hkey.
    assert (is_key_line key1 e0 = true) as Hkey0
      by (destruct He as [->| ->]; [assumption | now rewrite is_key_line_rstrip in Hkey]).
    assert (e0 = key_line key1 value1) as ->.
    { destruct (in_upserted _ _ _ _ Hin0) as [->|[Hin _]]; [congruence|].
      now apply Hall. }
    destruct He as [->| ->]; [reflexivity | now apply rstrip_key_line_no_space].
Qed.

(** Upserting a key the tidy lines already hold writes the same text. *)
Lemma upsert_env_text_fixed key value ls :
  valid_key key = true -> tidy ls -> holds key value ls ->
  upsert_env_text (Some (TextFile (join LF ls +:+ LF))) key value = join LF ls +:+ LF.
Proof.
  intros Hk (Hne & Hnl & Htrim) [Hex Hall].
  rewrite upsert_env_text_lines, (read_lines_written ls Hne Hnl).
  unfold upserted_lines. rewrite Hex.
  assert (map (replace_line key value) ls = ls) as ->.
  { rewrite List.Forall_forall in Hall. clear -Hall.
    induction ls as [|l ls IH]; [reflexivity|]. cbn. f_equal.
    - unfold replace_line. destruct (is_key_line key l) eqn:El; [|reflexivity].
      symmetry. apply Hall; [now left | assumption].
    - apply IH. intros e Hin. apply Hall. now right. }
  now rewrite Htrim.
Qed.

Lemma hex_digit_no_space d : isspace (SHA256.hex_digit d) = false.
Proof.
  unfold SHA256.hex_digit.
  destruct (nth_in_or_default (N.to_nat d) SHA256.hex_digits "f"%char) as [Hin| ->];
    [|reflexivity].
  repeat (destruct Hin as [<-|Hin]; [reflexivity|]). destruct Hin.
Qed.

Lemma no_space_string_of_list l :
  Forall (fun c => isspace c = false) l -> no_space (string_of_list_ascii l) = true.
Proof.
  unfold no_space. induction 1 as [|c l Hc _ IH]; [reflexivity|].
  cbn. now rewrite Hc, IH.
Qed.

Lemma token_sha256_no_space token : no_space (_token_sha256 token) = true.
Proof.
  unfold _token_sha256, SHA256.hexdigest. apply no_space_string_of_list.
  apply List.Forall_forall. intros c [w [_ Hc]]%in_flat_map.
  unfold SHA256.hex_word in Hc. apply in_map_iff in Hc as [i [<- _]].
  apply hex_digit_no_space.
Qed.

Lemma strip_key_line key value :
  valid_key key = true -> no_space value = true ->
  strip (key_line key value) = key_line key value.
Proof.
  intros Hk Hv. unfold strip. rewrite (rstrip_key_line_no_space _ _ Hv).
  unfold key_line. rewrite <- append_assoc. now apply lstrip_valid_key.
Qed.

(** The three keys of the store do not shadow one another. *)
Lemma store_keys_independent token :
  no_space token = true ->
  let h := _token_sha256 token in
  is_key_line "PUTER_TOKEN_SHA256" (key_line "PUTER_AUTH_TOKEN" token) = false
  /\ is_key_line "PUTER_AUTH_TOKEN" (key_line "PUTER_TOKEN_SHA256" h) = false
  /\ is_key_line "PUTER_DEFAULT_MODEL" (key_line "PUTER_AUTH_TOKEN" token) = false
  /\ is_key_line "PUTER_AUTH_TOKEN" (key_line "PUTER_DEFAULT_MODEL" "claude-opus-4-6") = false
  /\ is_key_line "PUTER_DEFAULT_MODEL" (key_line "PUTER_TOKEN_SHA256" h) = false
  /\ is_key_line "PUTER_TOKEN_SHA256" (key_line "PUTER_DEFAULT_MODEL" "claude-opus-4-6") = false.
Proof.
  intros Ht. cbv zeta. pose proof (token_sha256_no_space token) as Hh.
  unfold is_key_line.
  rewrite !strip_key_line by (assumption || reflexivity).
  repeat split; reflexivity.
Qed.

(** What the store writes is tidy and holds the token and its fingerprint
    (and the default model when it writes it). *)
Lemma stored_text_lines old token model_set :
  no_space token = true ->
  exists ls,
    stored_text old token model_set = join LF ls +:+ LF
    /\ tidy ls
    /\ holds "PUTER_AUTH_TOKEN" token ls
    /\ holds "PUTER_TOKEN_SHA256" (_token_sha256 token) ls
    /\ (model_set = false -> holds "PUTER_DEFAULT_MODEL" "claude-opus-4-6" ls).
Proof.
  intros Ht. pose proof (token_sha256_no_space token) as Hh.
  destruct (store_keys_independent token Ht) as (I1 & I2 & I3 & I4 & I5 & I6).
  pose proof (no_space_no_linebreak _ Ht) as Htl.
  pose proof (no_space_no_linebreak _ Hh) as Hhl.
  unfold stored_text. cbv zeta.
  set (l1 := trim_end (upserted_lines "PUTER_AUTH_TOKEN" token (read_lines old))).
  assert (upsert_env_text old "PUTER_AUTH_TOKEN" token = join LF l1 +:+ LF) as ->
    by apply upsert_env_text_lines.
  assert (tidy l1) as T1 by now apply tidy_upserted.
  assert (holds "PUTER_AUTH_TOKEN" token l1) as H1 by now apply holds_upserted.
  set (l2 := trim_end (upserted_lines "PUTER_TOKEN_SHA256" (_token_sha256 token) l1)).
  assert (upsert_env_text (Some (TextFile (join LF l1 +:+ LF))) "PUTER_TOKEN_SHA256"
            (_token_sha256 token) = join LF l2 +:+ LF) as E2.
  { rewrite upsert_env_text_lines. destruct T1 as (Hne & Hnl & _).
    now rewrite (read_lines_written l1 Hne Hnl). }
  rewrite E2.
  assert (tidy l2) as T2.
  { pose proof (tidy_upserted (Some (TextFile (join LF l1 +:+ LF))) "PUTER_TOKEN_SHA256"
                  (_token_sha256 token) eq_refl Hhl) as T.
    destruct T1 as (Hne & Hnl & _). now rewrite (read_lines_written l1 Hne Hnl) in T. }
  assert (holds "PUTER_TOKEN_SHA256" (_token_sha256 token) l2) as H22
    by now apply holds_upserted.
  assert (holds "PUTER_AUTH_TOKEN" token l2) as H21
    by now apply holds_other_key.
  destruct model_set.
  - exists l2. split; [reflexivity|]. split; [exact T2|].
    split; [exact H21|]. split; [exact H22 | discriminate].
  - set (l3 := trim_end (upserted_lines "PUTER_DEFAULT_MODEL" "claude-opus-4-6" l2)).
    assert (upsert_env_text (Some (TextFile (join LF l2 +:+ LF))) "PUTER_DEFAULT_MODEL"
              "claude-opus-4-6" = join LF l3 +:+ LF) as ->.
    { rewrite upsert_env_text_lines. destruct T2 as (Hne & Hnl & _).
      now rewrite (read_lines_written l2 Hne Hnl). }
    assert (tidy l3) as T3.
    { pose proof (tidy_upserted (Some (TextFile (join LF l2 +:+ LF))) "PUTER_DEFAULT_MODEL"
                    "claude-opus-4-6" eq_refl eq_refl) as T.
      destruct T2 as (Hne & Hnl & _). now rewrite (read_lines_written l2 Hne Hnl) in T. }
    exists l3. split; [reflexivity|]. split; [exact T3|].
    split; [now apply holds_other_key|]. split; [now apply holds_other_key|].
    intros _. now apply holds_upserted.
Qed.

(** Storing the same token again writes the same text. *)
Lemma stored_text_idem old token model_set :
  no_space token = true ->
  stored_text (Some (TextFile (stored_text old token model_set))) token model_set
  = stored_text old token model_set.
Proof.
  intros Ht.
  destruct (stored_text_lines old token model_set Ht) as (ls & -> & T & H1 & H2 & H3).
  unfold stored_text. cbv zeta.
  rewrite (upsert_env_text_fixed "PUTER_AUTH_TOKEN" token ls eq_refl T H1).
  rewrite (upsert_env_text_fixed "PUTER_TOKEN_SHA256" _ ls eq_refl T H2).
  destruct model_set; [reflexivity|].
  now rewrite (upsert_env_text_fixed "PUTER_DEFAULT_MODEL" _ ls eq_refl T (H3 eq_refl)).
Qed.

Lemma char_in_string_of_list c l :
  Forall (fun d => Ascii.eqb c d = false) l -> char_in c (string_of_list_ascii l) = false.
Proof.
  induction 1 as [|d l Hd _ IH]; [reflexivity|]. cbn. now rewrite Hd, IH.
Qed.

Lemma token_sha256_no_nul token : char_in NUL (_token_sha256 token) = false.
Proof.
  unfold _token_sha256, SHA256.hexdigest. apply char_in_string_of_list.
  apply List.Forall_forall. intros c [x [_ Hc]]%in_flat_map.
  unfold SHA256.hex_word in Hc. apply in_map_iff in Hc as [i [<- _]].
  unfold SHA256.hex_digit.
  destruct (nth_in_or_default (N.to_nat (N.shiftr x (4 * N.of_nat i) mod 16))
              SHA256.hex_digits "f"%char) as [Hin| ->]; [|reflexivity].
  repeat (destruct Hin as [<-|Hin]; [reflexivity|]). destruct Hin.
Qed.

End SinkStore.

(** ** The monad *)

Section MonadLemmas.

Context {A B : Type}.

Lemma bind_ok (m : M A) (f : A -> M B) w a w' :
  m w = (Ok a, w') -> bind m f w = f a w'.
Proof. unfold bind. now intros ->. Qed.

Lemma bind_raised (m : M A) (f : A -> M B) w e w' :
  m w = (Raised e, w') -> bind m f w = (Raised e, w').
Proof. unfold bind. now intros ->. Qed.

Lemma no_raise_ret (a : A) : no_raise (ret a).
Proof. intros w. now exists a. Qed.

Lemma no_raise_bind (m : M A) (f : A -> M B) :
  no_raise m -> (forall a, no_raise (f a)) -> no_raise (bind m f).
Proof.
  intros Hm Hf w. destruct (Hm w) as [a Ha]. unfold bind.
  destruct (m w) as [r w']. cbn in Ha. subst r. apply Hf.
Qed.

Lemma no_raise_try_except (body handler : M A) :
  no_raise handler -> no_raise (try_except body handler).
Proof.
  intros Hh w. unfold try_except. destruct (body w) as [[a|e] w'].
  - now exists a.
  - apply Hh.
Qed.

Section Frame.

Variable R : World -> World -> Prop.
Hypothesis R_refl : forall w, R w w.
Hypothesis R_trans : forall w1 w2 w3, R w1 w2 -> R w2 w3 -> R w1 w3.

Lemma preserves_ret (a : A) : preserves R (ret a).
Proof. intros w. apply R_refl. Qed.

Lemma preserves_raise (e : PyExc) : preserves R (@raise A e).
Proof. intros w. apply R_refl. Qed.

Lemma preserves_bind (m : M A) (f : A -> M B) :
  preserves R m -> (forall a, preserves R (f a)) -> preserves R (bind m f).
Proof.
  intros Hm Hf w. specialize (Hm w). unfold bind.
  destruct (m w) as [[a|e] w']; cbn in *; [|assumption].
  eapply R_trans; [exact Hm | apply Hf].
Qed.

Lemma preserves_try_except (body handler : M A) :
  preserves R body -> preserves R handler -> preserves R (try_except body handler).
Proof.
  intros Hb Hh w. specialize (Hb w). unfold try_except.
  destruct (body w) as [[a|e] w']; cbn in *; [assumption|].
  eapply R_trans; [exact Hb | apply Hh].
Qed.

End Frame.

End MonadLemmas.

Lemma no_raise_emit e : no_raise (emit e).
Proof. intros w. now exists tt. Qed.

Lemma no_raise_getenv k : no_raise (getenv k).
Proof. intros w. now eexists. Qed.

Lemma setenv_eq k v w :
  setenv k v w
  = if putenv_fails k v then (Raised ValueError, w)
    else (Ok tt, mkWorld (<[k := v]> (environ w)) (files w) (history w)).
Proof. reflexivity. Qed.

Lemma no_raise_setenv k v : putenv_fails k v = false -> no_raise (setenv k v).
Proof. intros H w. rewrite setenv_eq, H. now exists tt. Qed.

Lemma no_raise_get_environ : no_raise get_environ.
Proof. intros w. now eexists. Qed.

Lemma no_raise_get_history : no_raise get_history.
Proof. intros w. now eexists. Qed.

Lemma no_raise_path_exists p : no_raise (path_exists p).
Proof. intros w. now eexists. Qed.

Create HintDb pyrun.

#[local] Hint Resolve no_raise_ret no_raise_emit no_raise_getenv
  no_raise_get_environ no_raise_get_history no_raise_path_exists : pyrun.

(** Steps through a computation built from [bind], [try_except] and case
    distinctions, for [no_raise] goals. *)
Ltac no_raise_step :=
  repeat first
    [ solve [eauto with pyrun]
    | apply no_raise_try_except
    | apply no_raise_bind; [|intros]
    | match goal with
      | |- no_raise (if ?b then _ else _) => destruct b
      | |- no_raise (match ?x with _ => _ end) => destruct x
      end ].

(** What a computation may raise. *)
Section RaisesOnly.

Context {A B : Type} (P : PyExc -> Prop).

Lemma raises_only_no_raise (m : M A) : no_raise m -> raises_only P m.
Proof. intros H w e He. destruct (H w) as [a Ha]. congruence. Qed.

Lemma raises_only_raise e : P e -> raises_only P (@raise A e).
Proof. intros He w e' [= <-]. exact He. Qed.

Lemma raises_only_bind (m : M A) (f : A -> M B) :
  raises_only P m -> (forall a, raises_only P (f a)) -> raises_only P (bind m f).
Proof.
  intros Hm Hf w e. unfold bind. specialize (Hm w).
  destruct (m w) as [[a|e'] w']; cbn [fst] in *.
  - apply Hf.
  - intros [= <-]. now apply Hm.
Qed.

Lemma raises_only_try_except (body handler : M A) :
  raises_only P handler -> raises_only P (try_except body handler).
Proof.
  intros Hh w e. unfold try_except. destruct (body w) as [[a|e'] w']; cbn [fst].
  - discriminate.
  - apply Hh.
Qed.

End RaisesOnly.

Lemma raises_only_setenv k v : raises_only (eq ValueError) (setenv k v).
Proof.
  intros w e. rewrite setenv_eq. destruct (putenv_fails k v); cbn [fst]; congruence.
Qed.

(** Steps through a computation for [raises_only] goals; what never raises
    is closed by its [no_raise] lemma. *)
Ltac raises_only_step :=
  repeat first
    [ assumption
    | solve [auto]
    | solve [apply raises_only_no_raise; eauto with pyrun]
    | apply raises_only_try_except
    | apply raises_only_bind; [|intros]
    | match goal with
      | |- raises_only _ (if ?b then _ else _) => destruct b
      | |- raises_only _ (match ?x with _ => _ end) => destruct x
      end ].

Lemma same_files_refl w : same_files w w.
Proof. reflexivity. Qed.

Lemma same_files_trans w1 w2 w3 : same_files w1 w2 -> same_files w2 w3 -> same_files w1 w3.
Proof. unfold same_files. congruence. Qed.

Lemma same_store_refl w : same_store w w.
Proof. split; reflexivity. Qed.

Lemma same_store_trans w1 w2 w3 : same_store w1 w2 -> same_store w2 w3 -> same_store w1 w3.
Proof. unfold same_store. intros [] []. split; congruence. Qed.

Lemma history_grows_refl w : history_grows w w.
Proof. exists []. now rewrite app_nil_r. Qed.

Lemma history_grows_trans w1 w2 w3 :
  history_grows w1 w2 -> history_grows w2 w3 -> history_grows w1 w3.
Proof.
  intros [e1 H1] [e2 H2]. exists (e1 ++ e2). now rewrite H2, H1, app_assoc.
Qed.

Lemma bind_eq {A B} (m : M A) (f : A -> M B) w :
  bind m f w = match m w with
               | (Ok a, w') => f a w'
               | (Raised e, w') => (Raised e, w')
               end.
Proof. reflexivity. Qed.

Lemma try_except_eq {A} (body handler : M A) w :
  try_except body handler w = match body w with
                              | (Ok a, w') => (Ok a, w')
                              | (Raised _, w') => handler w'
                              end.
Proof. reflexivity. Qed.

Lemma emit_eq e w : emit e w = (Ok tt, after w [e]).
Proof. reflexivity. Qed.

Lemma get_history_eq w : get_history w = (Ok (history w), w).
Proof. reflexivity. Qed.

Lemma get_environ_eq w : get_environ w = (Ok (environ w), w).
Proof. reflexivity. Qed.

Lemma getenv_eq k w : getenv k w = (Ok (environ w !! k), w).
Proof. reflexivity. Qed.

Lemma path_exists_eq p w :
  path_exists p w = (Ok (bool_decide (is_Some (files w !! p))), w).
Proof. reflexivity. Qed.

Lemma ret_eq {A} (a : A) w : ret a w = (Ok a, w).
Proof. reflexivity. Qed.

Lemma raise_eq {A} e w : @raise A e w = (Raised e, w).
Proof. reflexivity. Qed.

Lemma after_after w e1 e2 : after (after w e1) e2 = after w (e1 ++ e2).
Proof. unfold after. cbn. now rewrite app_assoc. Qed.

Lemma after_nil w : after w [] = w.
Proof. destruct w. unfold after. cbn. now rewrite app_nil_r. Qed.

Lemma history_after w evs : history (after w evs) = history w ++ evs.
Proof. reflexivity. Qed.

Lemma environ_after w evs : environ (after w evs) = environ w.
Proof. reflexivity. Qed.

Lemma files_after w evs : files (after w evs) = files w.
Proof. reflexivity. Qed.

(** One step of symbolic execution. *)
Ltac run_step :=
  rewrite ?bind_eq, ?try_except_eq, ?emit_eq, ?get_history_eq, ?get_environ_eq,
    ?getenv_eq, ?path_exists_eq, ?ret_eq, ?raise_eq;
  cbv beta iota;
  rewrite ?after_after, ?history_after, ?environ_after, ?files_after.

(** ** The adapters: what never raises, what is left untouched *)

Section AdapterLemmas.

Import llm_adapters.

Context {RT : PyRuntime} (cfg : Config) (O : Outside).

Lemma _puter_token_spec w : _puter_token w = (Ok (cached_token (environ w)), w).
Proof. reflexivity. Qed.

Lemma no_raise__puter_token : no_raise _puter_token.
Proof. intros w. rewrite _puter_token_spec. now eexists. Qed.

Lemma no_raise_sdk_resolvable : no_raise (sdk_resolvable O).
Proof. unfold sdk_resolvable. no_raise_step. Qed.

Lemma no_raise__ensure_puter_sdk : no_raise (_ensure_puter_sdk cfg O).
Proof.
  unfold _ensure_puter_sdk. pose proof no_raise_sdk_resolvable. no_raise_step.
Qed.

(** The setter in full: nothing for a blank token, [ValueError] from the
    first assignment for a token that holds a NUL, and both variables set
    otherwise. *)
Lemma _set_puter_token_eq v w :
  _set_puter_token v w
  = let clean := remove_ws (str_or_empty v) in
    if negb (nonempty clean) then (Ok EmptyString, w)
    else if char_in NUL clean then (Raised ValueError, w)
    else (Ok clean, with_token w clean).
Proof.
  unfold _set_puter_token. cbv zeta.
  destruct (negb (nonempty (remove_ws (str_or_empty v)))); [reflexivity|].
  rewrite bind_eq, setenv_eq.
  change (putenv_fails "puterAuthToken" (remove_ws (str_or_empty v)))
    with (char_in NUL (remove_ws (str_or_empty v))).
  destruct (char_in NUL (remove_ws (str_or_empty v))) eqn:E; [reflexivity|].
  cbv beta iota. rewrite bind_eq, setenv_eq.
  change (putenv_fails "PUTER_AUTH_TOKEN" (remove_ws (str_or_empty v)))
    with (char_in NUL (remove_ws (str_or_empty v))).
  rewrite E. reflexivity.
Qed.

Lemma no_raise__set_puter_token v :
  char_in NUL (remove_ws (str_or_empty v)) = false -> no_raise (_set_puter_token v).
Proof.
  intros H w. rewrite _set_puter_token_eq. cbv zeta. rewrite H.
  destruct (negb _); now eexists.
Qed.

Lemma no_raise__run_puter_node_bridge argv rt :
  no_raise (_run_puter_node_bridge cfg O argv rt).
Proof.
  unfold _run_puter_node_bridge.
  pose proof no_raise__puter_token. pose proof no_raise__ensure_puter_sdk.
  no_raise_step.
Qed.

Lemma no_raise_keyed_attempt prompt chosen : no_raise (keyed_attempt cfg O prompt chosen).
Proof. unfold keyed_attempt. no_raise_step. Qed.

Lemma no_raise_keyed_loop prompt candidates : no_raise (keyed_loop cfg O prompt candidates).
Proof.
  induction candidates as [|c cs IH]; cbn [keyed_loop].
  - no_raise_step.
  - pose proof no_raise_keyed_attempt. no_raise_step.
Qed.

Lemma no_raise_query_ollama prompt model : no_raise (query_ollama cfg O prompt model).
Proof. unfold query_ollama. no_raise_step. Qed.

Lemma no_raise_gemini_ask prompt : no_raise (gemini_ask cfg O prompt).
Proof. unfold gemini_ask. no_raise_step. Qed.

(** The remote tier raises nothing but the [ValueError] of an assignment to
    the environment. *)
Lemma raises_only__set_puter_token v : raises_only (eq ValueError) (_set_puter_token v).
Proof.
  intros w e. rewrite _set_puter_token_eq. cbv zeta.
  destruct (negb _); [discriminate|]. destruct (char_in NUL _); cbn [fst]; congruence.
Qed.

#[local] Hint Resolve no_raise__puter_token no_raise__ensure_puter_sdk
  no_raise__run_puter_node_bridge no_raise_keyed_attempt no_raise_keyed_loop
  no_raise_query_ollama no_raise_gemini_ask : pyrun.

Lemma raises_only__bootstrap_puter_token force :
  raises_only (eq ValueError) (_bootstrap_puter_token cfg O force).
Proof.
  unfold _bootstrap_puter_token. pose proof raises_only__set_puter_token.
  raises_only_step.
Qed.

Lemma raises_only__run_puter_bridge_with_reauth argv :
  raises_only (eq ValueError) (_run_puter_bridge_with_reauth cfg O argv).
Proof.
  unfold _run_puter_bridge_with_reauth. pose proof raises_only__bootstrap_puter_token.
  raises_only_step.
Qed.

Lemma raises_only_bridge_loop prompt candidates :
  raises_only (eq ValueError) (bridge_loop cfg O prompt candidates).
Proof.
  induction candidates as [|c cs IH]; cbn [bridge_loop];
    pose proof raises_only__run_puter_bridge_with_reauth; raises_only_step.
Qed.

Lemma raises_only_call_puter_with_model prompt model :
  raises_only (eq ValueError) (call_puter_with_model cfg O prompt model).
Proof.
  unfold call_puter_with_model. pose proof raises_only_bridge_loop. raises_only_step.
Qed.

Lemma raises_only_call_puter prompt model :
  raises_only (eq ValueError) (call_puter cfg O prompt model).
Proof.
  unfold call_puter. pose proof raises_only_call_puter_with_model. raises_only_step.
Qed.

Lemma raises_only_ask_router prompt :
  raises_only (eq ValueError) (ask_router cfg O prompt).
Proof.
  unfold ask_router. pose proof raises_only_call_puter. raises_only_step.
Qed.

End AdapterLemmas.

(** Steps through a computation for [preserves] goals. *)
Ltac preserves_step R_refl R_trans :=
  repeat first
    [ assumption
    | solve [auto]
    | apply (preserves_ret _ R_refl)
    | apply (preserves_raise _ R_refl)
    | apply (preserves_try_except _ R_trans)
    | apply (preserves_bind _ R_trans); [|intros]
    | match goal with
      | |- preserves _ (if ?b then _ else _) => destruct b
      | |- preserves _ (match ?x with _ => _ end) => destruct x
      end ].

Section AdapterFrames.

Import llm_adapters.

Context {RT : PyRuntime} (cfg : Config) (O : Outside).

(** [R] is kept by recording an event of the class [allowed]. *)
Variable R : World -> World -> Prop.
Variable allowed : Event -> Prop.
Hypothesis R_refl : forall w, R w w.
Hypothesis R_trans : forall w1 w2 w3, R w1 w2 -> R w2 w3 -> R w1 w3.
Hypothesis R_emit : forall e, allowed e -> preserves R (emit e).

Lemma preserves_getenv k : preserves R (getenv k).
Proof. intros w. apply R_refl. Qed.

Lemma preserves_get_environ : preserves R get_environ.
Proof. intros w. apply R_refl. Qed.

Lemma preserves_get_history : preserves R get_history.
Proof. intros w. apply R_refl. Qed.

Lemma preserves_path_exists p : preserves R (path_exists p).
Proof. intros w. apply R_refl. Qed.

Lemma preserves__puter_token : preserves R _puter_token.
Proof. intros w. apply R_refl. Qed.

Lemma preserves_requests_post e : allowed e -> preserves R (requests_post O e).
Proof.
  intros He. unfold requests_post. pose proof preserves_get_history.
  pose proof (R_emit e He).
  preserves_step R_refl R_trans.
Qed.

Lemma preserves_subprocess_run argv env :
  allowed (Spawn argv env) -> preserves R (subprocess_run O argv env).
Proof.
  intros He. unfold subprocess_run. pose proof preserves_get_history.
  pose proof (R_emit _ He).
  preserves_step R_refl R_trans.
Qed.

Lemma preserves_keyed_attempt prompt chosen :
  (forall key, allowed (KeyedPost key chosen prompt)) ->
  preserves R (keyed_attempt cfg O prompt chosen).
Proof.
  intros He. unfold keyed_attempt, raise_for_status, response_json.
  pose proof (preserves_requests_post _ (He (or_str (PUTER_KEY cfg) EmptyString))).
  preserves_step R_refl R_trans.
Qed.

Lemma preserves_keyed_loop prompt candidates :
  (forall key chosen, allowed (KeyedPost key chosen prompt)) ->
  preserves R (keyed_loop cfg O prompt candidates).
Proof.
  intros He.
  pose proof (fun c => preserves_keyed_attempt prompt c (fun key => He key c)).
  induction candidates as [|c cs IH]; cbn [keyed_loop];
    preserves_step R_refl R_trans.
Qed.

Lemma preserves_query_ollama prompt model :
  (forall chosen, allowed (OllamaPost chosen prompt)) ->
  preserves R (query_ollama cfg O prompt model).
Proof.
  intros He. unfold query_ollama, raise_for_status, response_json.
  pose proof (fun chosen => preserves_requests_post _ (He chosen)).
  preserves_step R_refl R_trans.
Qed.

Lemma preserves_gemini_ask prompt :
  allowed (GeminiGenerate prompt) -> preserves R (gemini_ask cfg O prompt).
Proof.
  intros He. unfold gemini_ask. pose proof preserves_get_history.
  pose proof (R_emit _ He).
  preserves_step R_refl R_trans.
Qed.

(** The functions below spawn processes. *)
Hypothesis allowed_spawn : forall argv env, allowed (Spawn argv env).

Lemma preserves_sdk_resolvable : preserves R (sdk_resolvable O).
Proof.
  unfold sdk_resolvable.
  pose proof preserves_get_environ.
  pose proof (fun argv env => preserves_subprocess_run argv env (allowed_spawn argv env)).
  preserves_step R_refl R_trans.
Qed.

Lemma preserves__ensure_puter_sdk : preserves R (_ensure_puter_sdk cfg O).
Proof.
  unfold _ensure_puter_sdk.
  pose proof preserves_get_environ.
  pose proof (fun argv env => preserves_subprocess_run argv env (allowed_spawn argv env)).
  pose proof preserves_sdk_resolvable. pose proof preserves_path_exists.
  preserves_step R_refl R_trans.
Qed.

Lemma preserves__run_puter_node_bridge argv rt :
  allowed (CallBridge argv rt) ->
  preserves R (_run_puter_node_bridge cfg O argv rt).
Proof.
  intros He. unfold _run_puter_node_bridge.
  pose proof preserves_get_environ.
  pose proof (fun argv env => preserves_subprocess_run argv env (allowed_spawn argv env)).
  pose proof preserves__ensure_puter_sdk. pose proof preserves__puter_token.
  pose proof (R_emit _ He).
  preserves_step R_refl R_trans.
Qed.

(** The functions below may store a token. *)
Hypothesis R_setenv : forall k v, preserves R (setenv k v).

Lemma preserves__set_puter_token v : preserves R (_set_puter_token v).
Proof. unfold _set_puter_token. preserves_step R_refl R_trans. Qed.

(** The bootstrap after the record of its own call. *)
Lemma preserves_bootstrap_flow :
  allowed (CallBridge ["auth-token"] false) ->
  preserves R
    (payload ← _run_puter_node_bridge cfg O ["auth-token"] false;
     match payload with
     | PDict d =>
         if negb (truthy (dict_get d "ok")) then ret None else
         clean ← _set_puter_token (dict_get d "token");
         ret (Some clean)
     | _ => ret None
     end).
Proof.
  intros He.
  pose proof (preserves__run_puter_node_bridge _ _ He).
  pose proof preserves__set_puter_token.
  preserves_step R_refl R_trans.
Qed.

Lemma preserves__bootstrap_puter_token force :
  allowed (CallBootstrap force) ->
  allowed (CallBridge ["auth-token"] false) ->
  preserves R (_bootstrap_puter_token cfg O force).
Proof.
  intros He1 He2. unfold _bootstrap_puter_token.
  pose proof (preserves_bootstrap_flow He2).
  pose proof preserves__puter_token. pose proof preserves_path_exists.
  pose proof (R_emit _ He1).
  preserves_step R_refl R_trans.
Qed.

(** From here on every event is allowed. *)
Hypothesis allowed_all : forall e, allowed e.

Lemma preserves__run_puter_bridge_with_reauth argv :
  preserves R (_run_puter_bridge_with_reauth cfg O argv).
Proof.
  unfold _run_puter_bridge_with_reauth.
  pose proof (fun a b => preserves__run_puter_node_bridge a b (allowed_all _)).
  pose proof preserves__puter_token.
  pose proof (fun f => preserves__bootstrap_puter_token f (allowed_all _) (allowed_all _)).
  pose proof preserves_path_exists.
  preserves_step R_refl R_trans.
Qed.

Lemma preserves_bridge_loop prompt candidates :
  preserves R (bridge_loop cfg O prompt candidates).
Proof.
  induction candidates as [|c cs IH]; cbn [bridge_loop];
    pose proof preserves__run_puter_bridge_with_reauth; preserves_step R_refl R_trans.
Qed.

Lemma preserves_call_puter_with_model prompt model :
  preserves R (call_puter_with_model cfg O prompt model).
Proof.
  unfold call_puter_with_model.
  pose proof (fun p c => preserves_keyed_loop p c (fun _ _ => allowed_all _)).
  pose proof preserves_bridge_loop.
  preserves_step R_refl R_trans.
Qed.

Lemma preserves_ask_router prompt : preserves R (ask_router cfg O prompt).
Proof.
  unfold ask_router, call_puter.
  pose proof preserves_call_puter_with_model.
  pose proof (fun p m => preserves_query_ollama p m (fun _ => allowed_all _)).
  pose proof (fun p => preserves_gemini_ask p (allowed_all _)).
  pose proof preserves_getenv.
  preserves_step R_refl R_trans.
Qed.

End AdapterFrames.

Definition any_event (e : Event) : Prop := True.

Lemma same_files_emit e : any_event e -> preserves same_files (emit e).
Proof. intros _ w. reflexivity. Qed.

Lemma same_files_setenv k v : preserves same_files (setenv k v).
Proof. intros w. rewrite setenv_eq. now destruct (putenv_fails k v). Qed.

Lemma same_store_emit e : any_event e -> preserves same_store (emit e).
Proof. intros _ w. split; reflexivity. Qed.

Lemma history_grows_emit e : any_event e -> preserves history_grows (emit e).
Proof. intros _ w. now exists [e]. Qed.

Lemma history_grows_setenv k v : preserves history_grows (setenv k v).
Proof.
  intros w. exists []. rewrite setenv_eq.
  destruct (putenv_fails k v); cbn; now rewrite app_nil_r.
Qed.

(** ** The token cache and the bootstrap *)

Section Credentials.

Import llm_adapters.

Context {RT : PyRuntime} (cfg : Config) (O : Outside).

(** A bootstrap that is not forced, in a state with a cached token, from the
    world [w] after any further events. *)
Lemma bootstrap_cached_run (w : World) (evs : list Event) :
  cached_token (environ w) <> EmptyString ->
  _bootstrap_puter_token cfg O false (after w evs)
  = (Ok (if has_key cfg || negb (bool_decide (is_Some (files w !! PUTER_NODE_BRIDGE)))
         then None else Some (cached_token (environ w))),
     after w (evs ++ [CallBootstrap false])).
Proof.
  intros Hc. unfold _bootstrap_puter_token.
  rewrite bind_eq, emit_eq, after_after. cbv beta iota.
  destruct (has_key cfg); [reflexivity|].
  rewrite bind_eq, path_exists_eq, files_after. cbv beta iota.
  destruct (bool_decide (is_Some (files w !! PUTER_NODE_BRIDGE))); [|reflexivity].
  cbn [negb orb]. rewrite bind_eq, _puter_token_spec, environ_after. cbv beta iota.
  apply nonempty_true in Hc. rewrite Hc. reflexivity.
Qed.

(** C6 (as amended).  In every state in which a cached token exists, a
    bootstrap that is not forced spawns no process and leaves the environment
    and the files as they are: the only trace is the record of the call.  It
    returns the cached token when no static key is configured and the bridge
    helper is installed, and [None] otherwise; calling it again returns the
    same. *)
Theorem bootstrap_not_forced_with_cached_token (w : World) :
  cached_token (environ w) <> EmptyString ->
  let answer :=
    if has_key cfg || negb (bool_decide (is_Some (files w !! PUTER_NODE_BRIDGE)))
    then None else Some (cached_token (environ w)) in
  _bootstrap_puter_token cfg O false w = (Ok answer, after w [CallBootstrap false])
  /\ _bootstrap_puter_token cfg O false (after w [CallBootstrap false])
     = (Ok answer, after w [CallBootstrap false; CallBootstrap false]).
Proof.
  intros Hc. cbv zeta. split.
  - pose proof (bootstrap_cached_run w [] Hc) as Hrun.
    now rewrite after_nil in Hrun.
  - apply (bootstrap_cached_run w [CallBootstrap false] Hc).
Qed.

Lemma bridge_same_store argv rt w :
  same_store w (snd (_run_puter_node_bridge cfg O argv rt w)).
Proof.
  now apply (preserves__run_puter_node_bridge cfg O same_store any_event
               same_store_refl same_store_trans same_store_emit).
Qed.

Lemma str_or_empty_blank token :
  blank_token token = true -> remove_ws (str_or_empty token) = EmptyString.
Proof.
  destruct token as [| | | | s | |]; try discriminate; cbn.
  - reflexivity.
  - intros Hs. unfold str_or_empty. cbn.
    destruct (negb (String.eqb s EmptyString)); [|reflexivity].
    now apply remove_ws_only_space.
Qed.

Lemma _set_puter_token_blank token w :
  remove_ws (str_or_empty token) = EmptyString ->
  _set_puter_token token w = (Ok EmptyString, w).
Proof. intros E. unfold _set_puter_token. rewrite E. reflexivity. Qed.

Lemma _set_puter_token_clean token w :
  remove_ws (str_or_empty token) <> EmptyString ->
  char_in NUL (remove_ws (str_or_empty token)) = false ->
  _set_puter_token token w
  = (Ok (remove_ws (str_or_empty token)), with_token w (remove_ws (str_or_empty token))).
Proof.
  intros E Hnul. rewrite _set_puter_token_eq. cbv zeta.
  apply nonempty_true in E. now rewrite E, Hnul.
Qed.

(** A token that holds a NUL character is not stored: the first assignment
    raises. *)
Lemma _set_puter_token_nul token w :
  char_in NUL (remove_ws (str_or_empty token)) = true ->
  _set_puter_token token w = (Raised ValueError, w).
Proof.
  intros Hnul. rewrite _set_puter_token_eq. cbv zeta. rewrite Hnul.
  destruct (remove_ws (str_or_empty token)); [discriminate | reflexivity].
Qed.

(** With a static key, or without the bridge helper, the bootstrap gives up
    at once. *)
Lemma bootstrap_unavailable force w :
  has_key cfg = true \/ bool_decide (is_Some (files w !! PUTER_NODE_BRIDGE)) = false ->
  _bootstrap_puter_token cfg O force w = (Ok None, after w [CallBootstrap force]).
Proof.
  intros Hu. unfold _bootstrap_puter_token.
  unfold bind at 1. cbn [emit]. fold (after w [CallBootstrap force]).
  destruct (has_key cfg); [reflexivity|].
  destruct Hu as [|Hb]; [discriminate|].
  unfold bind at 1. unfold path_exists. cbn [files after]. rewrite Hb. reflexivity.
Qed.

(** The bootstrap once it has decided to run the login flow. *)
Lemma bootstrap_login_flow force w :
  has_key cfg = false ->
  is_Some (files w !! PUTER_NODE_BRIDGE) ->
  force = true \/ cached_token (environ w) = EmptyString ->
  _bootstrap_puter_token cfg O force w
  = bind (_run_puter_node_bridge cfg O ["auth-token"] false)
         (fun payload =>
            match payload with
            | PDict d =>
                if negb (truthy (dict_get d "ok")) then ret None
                else bind (_set_puter_token (dict_get d "token")) (fun clean => ret (Some clean))
            | _ => ret None
            end)
         (after w [CallBootstrap force]).
Proof.
  intros Hk Hb Hf.
  unfold _bootstrap_puter_token at 1.
  unfold bind at 1. cbn [emit]. fold (after w [CallBootstrap force]).
  rewrite Hk. unfold bind at 1. unfold path_exists. cbn [files after].
  rewrite (bool_decide_eq_true_2 _ Hb). cbn [negb].
  unfold bind at 1. rewrite _puter_token_spec. cbn [environ after].
  destruct Hf as [-> | ->]; [now rewrite andb_false_r | reflexivity].
Qed.

(** C10.  A token that is absent, empty or made of whitespace only is not
    stored: the setter returns the empty text and leaves the world, hence
    both credential keys, as it was; and a login reply that is [ok] but
    carries such a token makes the bootstrap return the empty text, which its
    callers take for a failure, with the environment unchanged. *)
Theorem blank_token_is_not_stored (token : pyval) (force : bool) (w w2 : World)
    (d : list (string * pyval)) :
  blank_token token = true ->
  has_key cfg = false ->
  is_Some (files w !! PUTER_NODE_BRIDGE) ->
  force = true \/ cached_token (environ w) = EmptyString ->
  _run_puter_node_bridge cfg O ["auth-token"] false (after w [CallBootstrap force])
  = (Ok (PDict d), w2) ->
  truthy (dict_get d "ok") = true ->
  dict_get d "token" = token ->
  _set_puter_token token w = (Ok EmptyString, w)
  /\ _bootstrap_puter_token cfg O force w = (Ok (Some EmptyString), w2)
  /\ token_truthy (Some EmptyString) = false
  /\ environ w2 = environ w.
Proof.
  intros Hblank Hk Hb Hf Hrun Hok Htok.
  pose proof (str_or_empty_blank _ Hblank) as Hclean.
  split; [now apply _set_puter_token_blank|].
  split; [|split; [reflexivity|]].
  - rewrite (bootstrap_login_flow force w Hk Hb Hf).
    rewrite (bind_ok _ _ _ _ _ Hrun). rewrite Hok. cbn [negb].
    rewrite Htok. unfold bind. now rewrite (_set_puter_token_blank _ _ Hclean).
  - pose proof (bridge_same_store ["auth-token"] false (after w [CallBootstrap force])) as [_ He].
    rewrite Hrun in He. exact He.
Qed.

Lemma cached_token_with_token env t :
  t <> EmptyString -> no_space t = true ->
  cached_token (<["PUTER_AUTH_TOKEN" := t]> (<["puterAuthToken" := t]> env)) = t.
Proof.
  intros Hne Hns. unfold cached_token.
  rewrite lookup_insert_ne by discriminate. rewrite lookup_insert_eq.
  cbn [or_str]. apply nonempty_true in Hne. unfold nonempty in Hne.
  destruct (String.eqb t EmptyString); [discriminate|].
  now apply remove_ws_fixed.
Qed.

(** What a bootstrap that returned a token has done. *)
Lemma bootstrap_success_inv (force : bool) (w w' : World) (t : string) :
  _bootstrap_puter_token cfg O force w = (Ok (Some t), w') ->
  t <> EmptyString ->
  no_space t = true
  /\ cached_token (environ w') = t
  /\ files w' = files w
  /\ environ w' !! "PUTER_TOKEN_SHA256" = environ w !! "PUTER_TOKEN_SHA256"
  /\ ((force = false /\ t = cached_token (environ w) /\ environ w' = environ w)
      \/ exists d,
           fst (_run_puter_node_bridge cfg O ["auth-token"] false
                  (after w [CallBootstrap force])) = Ok (PDict d)
           /\ truthy (dict_get d "ok") = true
           /\ t = remove_ws (str_or_empty (dict_get d "token"))
           /\ environ w'
              = <["PUTER_AUTH_TOKEN" := t]> (<["puterAuthToken" := t]> (environ w))).
Proof.
  intros Hrun Hne.
  destruct (has_key cfg) eqn:Hk.
  { rewrite bootstrap_unavailable in Hrun by now left. discriminate. }
  destruct (bool_decide (is_Some (files w !! PUTER_NODE_BRIDGE))) eqn:Hb.
  2:{ rewrite bootstrap_unavailable in Hrun by now right. discriminate. }
  apply bool_decide_eq_true_1 in Hb.
  destruct (nonempty (cached_token (environ w)) && negb force) eqn:Hcached.
  - (* the cached token is returned *)
    apply andb_prop in Hcached as [Hc Hf]. destruct force; [discriminate|].
    assert (cached_token (environ w) <> EmptyString) as Hc' by now apply nonempty_true.
    pose proof (bootstrap_cached_run w [] Hc') as Hspec.
    rewrite after_nil, Hk, (bool_decide_eq_true_2 _ Hb) in Hspec.
    cbn [orb negb app] in Hspec.
    rewrite Hspec in Hrun. injection Hrun as <- <-.
    repeat split; try reflexivity.
    + apply remove_ws_no_space.
    + left. repeat split.
  - (* the login flow *)
    assert (force = true \/ cached_token (environ w) = EmptyString) as Hf.
    { destruct force; [now left | right].
      rewrite andb_true_r in Hcached. now apply nonempty_false. }
    rewrite (bootstrap_login_flow force w Hk Hb Hf) in Hrun.
    pose proof (bridge_same_store ["auth-token"] false (after w [CallBootstrap force]))
      as [Hfiles Henv].
    unfold bind in Hrun at 1.
    destruct (_run_puter_node_bridge cfg O ["auth-token"] false
                (after w [CallBootstrap force])) as [[payload|e] w2] eqn:Hbridge;
      [|discriminate].
    cbn [snd files environ after] in Hfiles, Henv.
    destruct payload as [| | | | | |d]; try discriminate.
    destruct (truthy (dict_get d "ok")) eqn:Hok; [|discriminate]. cbn [negb] in Hrun.
    destruct (String.eqb (remove_ws (str_or_empty (dict_get d "token"))) EmptyString) eqn:Hclean.
    + apply String.eqb_eq in Hclean. unfold bind in Hrun.
      rewrite (_set_puter_token_blank _ _ Hclean) in Hrun. cbn in Hrun.
      injection Hrun as <- <-. congruence.
    + apply String.eqb_neq in Hclean. unfold bind in Hrun.
      destruct (char_in NUL (remove_ws (str_or_empty (dict_get d "token")))) eqn:Hnul.
      { rewrite (_set_puter_token_nul _ _ Hnul) in Hrun. discriminate. }
      rewrite (_set_puter_token_clean _ _ Hclean Hnul) in Hrun. cbn [ret] in Hrun.
      injection Hrun as <- <-. cbn [environ files with_token].
      pose proof (remove_ws_no_space (str_or_empty (dict_get d "token"))) as Hns.
      split; [exact Hns|]. split; [now apply cached_token_with_token|].
      split; [exact Hfiles|]. split.
      * rewrite !lookup_insert_ne by discriminate. now rewrite Henv.
      * right. exists d. cbn [fst]. rewrite Henv. repeat split; assumption.
Qed.

(** C7 (as amended).  Every successful bootstrap leaves a token without
    whitespace that the token cache reads back, and it writes no file and no
    fingerprint: either it returned the cached token and changed nothing, or
    it took the token field of the login reply, stripped it of all whitespace
    and assigned it to both credential keys of the environment. *)
Theorem successful_bootstrap_caches_token (force : bool) (w w' : World) (t : string) :
  _bootstrap_puter_token cfg O force w = (Ok (Some t), w') ->
  t <> EmptyString ->
  no_space t = true
  /\ cached_token (environ w') = t
  /\ files w' = files w
  /\ environ w' !! "PUTER_TOKEN_SHA256" = environ w !! "PUTER_TOKEN_SHA256"
  /\ ((force = false /\ t = cached_token (environ w) /\ environ w' = environ w)
      \/ exists d,
           fst (_run_puter_node_bridge cfg O ["auth-token"] false
                  (after w [CallBootstrap force])) = Ok (PDict d)
           /\ truthy (dict_get d "ok") = true
           /\ t = remove_ws (str_or_empty (dict_get d "token"))
           /\ environ w'
              = <["PUTER_AUTH_TOKEN" := t]> (<["puterAuthToken" := t]> (environ w))).
Proof. apply bootstrap_success_inv. Qed.

End Credentials.

Section CredentialRuns.

Import llm_adapters Examples.

Lemma bootstrap_not_forced_witness :
  cached_token (environ world_with_token) <> EmptyString
  /\ fst (_bootstrap_puter_token cfg_bridge offline false
            world_with_token) = Ok (Some "tok").
Proof.
  split; [vm_compute; discriminate|].
  rewrite (proj1 (bootstrap_not_forced_with_cached_token
                    cfg_bridge offline world_with_token
                    ltac:(vm_compute; discriminate))).
  vm_compute. reflexivity.
Defined.

(** C6 as stated fails when the bridge helper is not installed: without a
    static key and with the cached token [tok], the bootstrap that is not
    forced returns [None], not the token. *)
Lemma bootstrap_without_helper_returns_none :
  has_key cfg_bridge = false
  /\ cached_token (environ world_without_helper) = "tok"
  /\ fst (_bootstrap_puter_token cfg_bridge offline false world_without_helper) = Ok None
  /\ fst (_bootstrap_puter_token cfg_bridge offline false world_without_helper)
     <> Ok (Some "tok").
Proof. vm_compute. repeat split; congruence. Qed.

Lemma blank_token_witness :
  _set_puter_token (PStr "  ") world_without_token = (Ok EmptyString, world_without_token)
  /\ fst (_bootstrap_puter_token cfg_bridge (login_outside "  ") true world_without_token)
     = Ok (Some EmptyString).
Proof.
  assert (is_Some (files world_without_token !! PUTER_NODE_BRIDGE)) as Hb
    by (vm_compute; eexists; reflexivity).
  assert (_run_puter_node_bridge cfg_bridge (login_outside "  ") ["auth-token"] false
            (after world_without_token [CallBootstrap true])
          = (Ok (PDict [("ok", PBool true); ("token", PStr "  ")]),
             snd (_run_puter_node_bridge cfg_bridge (login_outside "  ") ["auth-token"] false
                    (after world_without_token [CallBootstrap true])))) as Hrun
    by (vm_compute; reflexivity).
  pose proof (blank_token_is_not_stored cfg_bridge (login_outside "  ")
                (PStr "  ") true world_without_token _ _
                eq_refl eq_refl Hb (or_introl eq_refl) Hrun eq_refl eq_refl)
    as [Hset [Hboot _]].
  split; [exact Hset|]. rewrite Hboot. reflexivity.
Defined.

Lemma successful_bootstrap_witness :
  no_space "tok" = true
  /\ cached_token
       (environ (snd (_bootstrap_puter_token cfg_bridge (login_outside "to k") true
                        world_without_token))) = "tok"
  /\ files (snd (_bootstrap_puter_token cfg_bridge (login_outside "to k") true
                   world_without_token)) = files world_without_token.
Proof.
  assert (_bootstrap_puter_token cfg_bridge (login_outside "to k") true world_without_token
          = (Ok (Some "tok"),
             snd (_bootstrap_puter_token cfg_bridge (login_outside "to k") true
                    world_without_token))) as Hrun
    by (vm_compute; reflexivity).
  assert ("tok" <> EmptyString) as Hne by discriminate.
  pose proof (successful_bootstrap_caches_token cfg_bridge (login_outside "to k") true
                world_without_token _ "tok" Hrun Hne)
    as [Hns [Hcache [Hfiles _]]].
  repeat split; assumption.
Defined.

(** C7 as stated fails: after a successful bootstrap (the login reply carries
    the token [to k], stored as [tok]) the durable sink does not exist, where
    the claim has it hold the upserted key, and no fingerprint is set. *)
Lemma bootstrap_does_not_write_the_sink :
  fst (_bootstrap_puter_token cfg_bridge (login_outside "to k") true world_without_token)
  = Ok (Some "tok")
  /\ files (snd (_bootstrap_puter_token cfg_bridge (login_outside "to k") true
                   world_without_token)) !! cognitive_system.LLM_ENV_PATH = None
  /\ files (snd (_bootstrap_puter_token cfg_bridge (login_outside "to k") true
                   world_without_token)) !! cognitive_system.LLM_ENV_PATH
     <> Some (TextFile (cognitive_system.upsert_env_text
                          (files world_without_token !! cognitive_system.LLM_ENV_PATH)
                          "PUTER_AUTH_TOKEN" "tok"))
  /\ environ (snd (_bootstrap_puter_token cfg_bridge (login_outside "to k") true
                     world_without_token)) !! "PUTER_TOKEN_SHA256" = None.
Proof. vm_compute. repeat split; congruence. Qed.

End CredentialRuns.

(** ** The durable sink *)

Section Sink.

Import cognitive_system.

Lemma lookup_map_line (f : string -> string) (ls : list string) i line :
  ls !! i = Some line -> map f ls !! i = Some (f line).
Proof.
  revert i. induction ls as [|l ls IH]; intros [|i]; cbn; try discriminate.
  - now intros [= ->].
  - apply IH.
Qed.

(** Line by line: the upsert rewrites the lines of the key where they stand
    and keeps the others. *)
Lemma upserted_lines_lookup key value lines i line :
  lines !! i = Some line ->
  upserted_lines key value lines !! i = Some (replace_line key value line).
Proof.
  intros Hi. unfold upserted_lines.
  destruct (existsb (is_key_line key) lines) eqn:E.
  - now apply lookup_map_line.
  - rewrite lookup_app_l by (eapply lookup_lt_Some; eassumption).
    rewrite Hi. f_equal. unfold replace_line.
    destruct (is_key_line key line) eqn:El; [|reflexivity].
    assert (existsb (is_key_line key) lines = true).
    { apply existsb_exists. exists line. split; [|assumption].
      apply list_elem_of_In. eapply list_elem_of_lookup_2. eassumption. }
    congruence.
Qed.

(** One run of the store, written out. *)
Lemma puter_login_store_run token w :
  char_in NUL token = false ->
  puter_login_store token w
  = (Ok tt,
     mkWorld (<["PUTER_TOKEN_SHA256" := _token_sha256 token]>
                (<["puterAuthToken" := token]>
                   (<["PUTER_AUTH_TOKEN" := token]> (environ w))))
             (<[LLM_ENV_PATH :=
                  TextFile (stored_text (files w !! LLM_ENV_PATH) token
                              (bool_decide (is_Some (environ w !! "PUTER_DEFAULT_MODEL"))))]>
                (files w))
             (history w)).
Proof.
  intros Hnul. pose proof (token_sha256_no_nul token) as Hh.
  unfold puter_login_store. cbv zeta.
  rewrite bind_eq, setenv_eq.
  change (putenv_fails "PUTER_AUTH_TOKEN" token) with (char_in NUL token).
  rewrite Hnul. cbv beta iota. rewrite bind_eq, setenv_eq.
  change (putenv_fails "puterAuthToken" token) with (char_in NUL token).
  rewrite Hnul. cbv beta iota. rewrite bind_eq, setenv_eq.
  change (putenv_fails "PUTER_TOKEN_SHA256" (_token_sha256 token))
    with (char_in NUL (_token_sha256 token)).
  rewrite Hh. cbv beta iota.
  unfold stored_text, try_except, bind, _upsert_env_var, get_environ, ret.
  cbn [fst snd environ files history].
  rewrite !lookup_insert_ne by discriminate.
  rewrite !lookup_insert_eq.
  destruct (bool_decide (is_Some (environ w !! "PUTER_DEFAULT_MODEL")));
    cbn [fst snd environ files history];
    rewrite ?lookup_insert_eq, !insert_insert_eq; reflexivity.
Qed.

(** A token that holds a NUL character is not stored: the first assignment
    to the environment raises, before the [try], and nothing is written. *)
Lemma puter_login_store_nul token w :
  char_in NUL token = true ->
  puter_login_store token w = (Raised ValueError, w).
Proof.
  intros Hnul. unfold puter_login_store. cbv zeta.
  rewrite bind_eq, setenv_eq.
  change (putenv_fails "PUTER_AUTH_TOKEN" token) with (char_in NUL token).
  now rewrite Hnul.
Qed.

(** Assigning the three variables again leaves the environment as it is. *)
Lemma store_environ_twice (env : gmap string string) (token h : string) :
  let env1 := <["PUTER_TOKEN_SHA256" := h]>
                (<["puterAuthToken" := token]> (<["PUTER_AUTH_TOKEN" := token]> env)) in
  <["PUTER_TOKEN_SHA256" := h]>
    (<["puterAuthToken" := token]> (<["PUTER_AUTH_TOKEN" := token]> env1)) = env1.
Proof.
  intros env1.
  assert (<["PUTER_AUTH_TOKEN" := token]> env1 = env1) as ->.
  { apply insert_id. subst env1.
    rewrite !lookup_insert_ne by discriminate. apply lookup_insert_eq. }
  assert (<["puterAuthToken" := token]> env1 = env1) as ->.
  { apply insert_id. subst env1.
    rewrite lookup_insert_ne by discriminate. apply lookup_insert_eq. }
  apply insert_id. subst env1. apply lookup_insert_eq.
Qed.

(** Storing the same token a second time changes nothing. *)
Lemma puter_login_store_twice token w :
  no_space token = true ->
  char_in NUL token = false ->
  puter_login_store token (snd (puter_login_store token w))
  = (Ok tt, snd (puter_login_store token w)).
Proof.
  intros Ht Hnul. rewrite (puter_login_store_run token w Hnul). cbn [snd].
  rewrite (puter_login_store_run _ _ Hnul). cbn [environ files history].
  rewrite lookup_insert_eq, !lookup_insert_ne by discriminate.
  rewrite (stored_text_idem _ _ _ Ht), insert_insert_eq.
  now rewrite store_environ_twice.
Qed.

(** The sink after a store holds the line of the fingerprint. *)
Lemma stored_fingerprint_line token w :
  no_space token = true ->
  char_in NUL token = false ->
  In (key_line "PUTER_TOKEN_SHA256" (_token_sha256 token))
     (read_lines (files (snd (puter_login_store token w)) !! LLM_ENV_PATH)).
Proof.
  intros Ht Hnul. rewrite (puter_login_store_run _ _ Hnul). cbn [snd files].
  rewrite lookup_insert_eq.
  destruct (stored_text_lines (files w !! LLM_ENV_PATH) token
              (bool_decide (is_Some (environ w !! "PUTER_DEFAULT_MODEL"))) Ht)
    as (ls & -> & (Hne & Hnl & _) & _ & H2 & _).
  rewrite (read_lines_written ls Hne Hnl). now apply holds_key_line_in.
Qed.

(** C8 (as amended).  For every state of the sink file, every key that
    holds no line boundary and does not start with a whitespace character,
    and every token that holds no line boundary, upserting the token a
    second time writes the very text the first upsert wrote.  The upsert
    rewrites every line of the key to [key=token] where it stands, or
    appends that line when the file has none, and keeps every other line;
    it then trims the whitespace that ends the file (blank last lines,
    blanks ending the last line) and closes the file with one line feed.
    The fingerprint of a token holds no line boundary, whatever the token:
    upserting it under its key is idempotent in the same way. *)
Theorem token_upsert_twice_is_identity (old : option file) (key token : string) :
  valid_key key = true ->
  no_linebreak token = true ->
  let once := upsert_env_text old key token in
  upsert_env_text (Some (TextFile once)) key token = once
  /\ read_lines (Some (TextFile once))
     = trim_end (upserted_lines key token (read_lines old))
  /\ (forall i line, read_lines old !! i = Some line ->
        upserted_lines key token (read_lines old) !! i
        = Some (if is_key_line key line then key_line key token else line))
  /\ (existsb (is_key_line key) (read_lines old) = false ->
        upserted_lines key token (read_lines old)
        = read_lines old ++ [key_line key token])
  /\ (forall any : string,
        let fingerprint := _token_sha256 any in
        let marked := upsert_env_text old "PUTER_TOKEN_SHA256" fingerprint in
        upsert_env_text (Some (TextFile marked)) "PUTER_TOKEN_SHA256" fingerprint
        = marked).
Proof.
  intros Hk Hl once.
  split; [now apply upsert_env_text_idem|].
  split; [now apply read_lines_upserted|].
  split; [intros i line Hi; now apply upserted_lines_lookup|].
  split; [intros E; unfold upserted_lines; now rewrite E|].
  intros any fingerprint marked. apply upsert_env_text_idem; [reflexivity|].
  apply no_space_no_linebreak, token_sha256_no_space.
Qed.

End Sink.

Section SinkRuns.

Import cognitive_system Examples.

(** A sink written by hand: the token of an earlier login, and a last line
    that ends in a blank. *)
Definition sink_by_hand : option file :=
  Some (TextFile ("PUTER_AUTH_TOKEN=old" +:+ LF +:+ "NOTE=two words " +:+ LF)).

Lemma token_upsert_twice_witness :
  valid_key "PUTER_AUTH_TOKEN" = true
  /\ no_linebreak "to k " = true
  /\ upsert_env_text sink_by_hand "PUTER_AUTH_TOKEN" "to k "
     = "PUTER_AUTH_TOKEN=to k " +:+ LF +:+ "NOTE=two words" +:+ LF
  /\ upsert_env_text
       (Some (TextFile (upsert_env_text sink_by_hand "PUTER_AUTH_TOKEN" "to k ")))
       "PUTER_AUTH_TOKEN" "to k "
     = upsert_env_text sink_by_hand "PUTER_AUTH_TOKEN" "to k ".
Proof.
  assert (valid_key "PUTER_AUTH_TOKEN" = true) as Hk by reflexivity.
  assert (no_linebreak "to k " = true) as Hl by reflexivity.
  pose proof (token_upsert_twice_is_identity sink_by_hand "PUTER_AUTH_TOKEN"
                "to k " Hk Hl) as (Htwice & _).
  split; [exact Hk|]. split; [exact Hl|]. split; [vm_compute; reflexivity|].
  exact Htwice.
Defined.

(** C8 as stated fails in four ways.  The upsert of a token changes a line
    that is not a line of the key: the last line of the file loses the
    blank that ends it.  A token that holds a line feed is read back as two
    lines, so the second upsert writes another text than the first.  A key
    that starts with a blank is never found again: every upsert appends
    one more line.  And so does every upsert of a key that holds a line
    feed. *)
Lemma upsert_trims_the_last_line :
  (read_lines sink_by_hand = ["PUTER_AUTH_TOKEN=old"; "NOTE=two words "]
   /\ is_key_line "PUTER_AUTH_TOKEN" "NOTE=two words " = false
   /\ read_lines (Some (TextFile (upsert_env_text sink_by_hand "PUTER_AUTH_TOKEN" "tok")))
      = ["PUTER_AUTH_TOKEN=tok"; "NOTE=two words"]
   /\ read_lines (Some (TextFile (upsert_env_text sink_by_hand "PUTER_AUTH_TOKEN" "tok")))
        !! 1%nat
      <> read_lines sink_by_hand !! 1%nat)
  /\ (upsert_env_text None "K" ("a" +:+ LF +:+ "b") = "K=a" +:+ LF +:+ "b" +:+ LF
      /\ upsert_env_text (Some (TextFile (upsert_env_text None "K" ("a" +:+ LF +:+ "b"))))
           "K" ("a" +:+ LF +:+ "b")
         = "K=a" +:+ LF +:+ "b" +:+ LF +:+ "b" +:+ LF
      /\ upsert_env_text (Some (TextFile (upsert_env_text None "K" ("a" +:+ LF +:+ "b"))))
           "K" ("a" +:+ LF +:+ "b")
         <> upsert_env_text None "K" ("a" +:+ LF +:+ "b"))
  /\ (upsert_env_text None " K" "v" = " K=v" +:+ LF
      /\ upsert_env_text (Some (TextFile (upsert_env_text None " K" "v"))) " K" "v"
         = " K=v" +:+ LF +:+ " K=v" +:+ LF
      /\ upsert_env_text (Some (TextFile (upsert_env_text None " K" "v"))) " K" "v"
         <> upsert_env_text None " K" "v")
  /\ (upsert_env_text None ("K" +:+ LF +:+ "L") "v" = "K" +:+ LF +:+ "L=v" +:+ LF
      /\ upsert_env_text (Some (TextFile (upsert_env_text None ("K" +:+ LF +:+ "L") "v")))
           ("K" +:+ LF +:+ "L") "v"
         = "K" +:+ LF +:+ "L=v" +:+ LF +:+ "K" +:+ LF +:+ "L=v" +:+ LF
      /\ upsert_env_text (Some (TextFile (upsert_env_text None ("K" +:+ LF +:+ "L") "v")))
           ("K" +:+ LF +:+ "L") "v"
         <> upsert_env_text None ("K" +:+ LF +:+ "L") "v").
Proof. vm_compute. repeat split; congruence. Qed.

End SinkRuns.

(** ** The bridge parser *)

Section BridgeParser.

Import llm_adapters.

Context {RT : PyRuntime} (cfg : Config) (O : Outside).

Lemma first_json_head candidates :
  first_json candidates = default PNone (head (omap json_object candidates)).
Proof.
  induction candidates as [|c cs IH]; [reflexivity|].
  cbn [first_json omap list_omap]. unfold json_object at 1.
  destruct (nonempty c); cbn [negb andb]; [|exact IH].
  destruct (looks_like_object c); cbn [negb]; [|exact IH].
  destruct (json_loads c); [reflexivity | exact IH].
Qed.

(** The outcome of [_run_puter_node_bridge] in full: [None] when a token is
    required and missing or the SDK cannot be resolved, and otherwise what
    the helper process gives. *)
Lemma _run_puter_node_bridge_unfold argv rt w :
  _run_puter_node_bridge cfg O argv rt w
  = let w0 := after w [CallBridge argv rt] in
    let token := cached_token (environ w) in
    if rt && negb (nonempty token) then (Ok PNone, w0) else
    match _ensure_puter_sdk cfg O w0 with
    | (Ok true, w1) =>
        let w2 := after w1 [Spawn ("node" :: PUTER_NODE_BRIDGE :: argv)
                                  (bridge_env token (environ w1))] in
        match process_answer O (history w2) with
        | ProcRaises _ => (Ok PNone, w2)
        | ProcCompleted _ out => (Ok (parse_bridge_stdout out), w2)
        end
    | (Ok false, w1) => (Ok PNone, w1)
    | (Raised e, w1) => (Raised e, w1)
    end.
Proof.
  unfold _run_puter_node_bridge. cbv zeta.
  unfold bind at 1. cbn [emit]. fold (after w [CallBridge argv rt]).
  unfold bind at 1. rewrite _puter_token_spec. cbn [environ after].
  destruct (rt && negb (nonempty (cached_token (environ w)))); [reflexivity|].
  unfold bind at 1.
  destruct (_ensure_puter_sdk cfg O (after w [CallBridge argv rt])) as [[[|]|e] w1];
    cbn [negb]; try reflexivity.
  cbv [bind try_except subprocess_run get_environ get_history emit ret raise after
       history environ files].
  destruct (process_answer O _); reflexivity.
Qed.

Lemma parse_bridge_stdout_head stdout :
  parse_bridge_stdout stdout
  = default PNone
      (head (omap json_object (bridge_candidates (strip (or_str stdout EmptyString))))).
Proof.
  unfold parse_bridge_stdout.
  destruct (nonempty (strip (or_str stdout EmptyString))) eqn:E; cbn [negb].
  - apply first_json_head.
  - apply nonempty_false in E. rewrite E. reflexivity.
Qed.

(** The bridge invoker gives [None] or the parse of what a completed helper
    printed. *)
Lemma bridge_result_cases argv require_token w :
  fst (_run_puter_node_bridge cfg O argv require_token w) = Ok PNone
  \/ exists rc printed,
       process_answer O (history (snd (_run_puter_node_bridge cfg O argv require_token w)))
       = ProcCompleted rc printed
       /\ fst (_run_puter_node_bridge cfg O argv require_token w)
          = Ok (parse_bridge_stdout printed).
Proof.
  rewrite _run_puter_node_bridge_unfold. cbv zeta.
  destruct (require_token && negb (nonempty (cached_token (environ w)))); [now left|].
  destruct (no_raise__ensure_puter_sdk cfg O (after w [CallBridge argv require_token]))
    as [ok Hok].
  destruct (_ensure_puter_sdk cfg O (after w [CallBridge argv require_token]))
    as [r w1]. cbn [fst] in Hok. subst r.
  destruct ok; [|now left].
  destruct (process_answer O _) as [e|rc printed] eqn:Ep; [now left|].
  right. exists rc, printed. cbn [fst snd]. now rewrite Ep.
Qed.

(** The first candidate that parses wins, and nothing before it parses. *)
Lemma parse_bridge_stdout_first stdout v :
  parse_bridge_stdout stdout = v ->
  v <> PNone ->
  exists i c,
    bridge_candidates (strip (or_str stdout EmptyString)) !! i = Some c
    /\ json_object c = Some v
    /\ forall j c', (j < i)%nat ->
         bridge_candidates (strip (or_str stdout EmptyString)) !! j = Some c' ->
         json_object c' = None.
Proof.
  intros Hp Hv.
  rewrite parse_bridge_stdout_head in Hp.
  set (cands := bridge_candidates (strip (or_str stdout EmptyString))) in *.
  clearbody cands. revert Hp.
  induction cands as [|c cs IH]; cbn [omap list_omap head default].
  - intros <-. congruence.
  - destruct (json_object c) as [v'|] eqn:Ec.
    + cbn. intros <-. exists 0%nat, c. repeat split; [assumption|]. intros j c' Hj. lia.
    + intros Hp. destruct (IH Hp) as (i & c0 & Hi & Hc0 & Hbefore).
      exists (S i), c0. repeat split; [assumption | assumption |].
      intros [|j] c' Hj Hl; cbn in Hl; [congruence|].
      apply (Hbefore j c'); [lia | assumption].
Qed.

(** C4.  The parser takes the whole trimmed output first and then its lines
    from the last to the first, each trimmed, and returns the parsed form of
    the first of these that is a JSON object text, [None] when there is
    none.  The bridge invoker never raises, whatever the outside does: it
    returns [None] without running the helper when a token is required and
    none is cached and when the SDK cannot be resolved; otherwise it runs
    the helper and returns the parse of what the helper printed, and [None]
    when the process could not be started or timed out. *)
Theorem bridge_parser_first_json_object (stdout : option string) (argv : list string)
    (require_token : bool) (w : World) :
  let out := strip (or_str stdout EmptyString) in
  let candidates := out :: map strip (rev (splitlines out)) in
  let token := cached_token (environ w) in
  let w0 := after w [CallBridge argv require_token] in
  let w1 := snd (_ensure_puter_sdk cfg O w0) in
  let w2 := after w1 [Spawn ("node" :: PUTER_NODE_BRIDGE :: argv)
                            (bridge_env token (environ w1))] in
  parse_bridge_stdout stdout = default PNone (head (omap json_object candidates))
  /\ (forall v, parse_bridge_stdout stdout = v -> v <> PNone ->
        exists i c,
          candidates !! i = Some c
          /\ json_object c = Some v
          /\ forall j c', (j < i)%nat -> candidates !! j = Some c' ->
               json_object c' = None)
  /\ exists sdk_ok,
       fst (_ensure_puter_sdk cfg O w0) = Ok sdk_ok
       /\ _run_puter_node_bridge cfg O argv require_token w
          = if require_token && negb (nonempty token) then (Ok PNone, w0)
            else if sdk_ok
                 then (Ok (helper_reply (process_answer O (history w2))), w2)
                 else (Ok PNone, w1).
Proof.
  cbv zeta. split; [apply parse_bridge_stdout_head|].
  split; [apply parse_bridge_stdout_first|].
  destruct (no_raise__ensure_puter_sdk cfg O (after w [CallBridge argv require_token]))
    as [ok Hok].
  exists ok. split; [exact Hok|].
  rewrite _run_puter_node_bridge_unfold. cbv zeta.
  destruct (require_token && negb (nonempty (cached_token (environ w)))); [reflexivity|].
  destruct (_ensure_puter_sdk cfg O (after w [CallBridge argv require_token]))
    as [r w1]. cbn [fst snd] in *. subst r.
  destruct ok; [|reflexivity].
  unfold helper_reply. now destruct (process_answer O _).
Qed.

End BridgeParser.

(** ** The login flow: what it records, and when it raises *)

Section LoginLemmas.

Import llm_adapters.

Context {RT : PyRuntime} (cfg : Config) (O : Outside).

Lemma subprocess_run_eq argv env w :
  subprocess_run O argv env w
  = match process_answer O (history w ++ [Spawn argv env]) with
    | ProcRaises x => (Raised x, after w [Spawn argv env])
    | ProcCompleted rc out => (Ok (rc, out), after w [Spawn argv env])
    end.
Proof.
  unfold subprocess_run. run_step. run_step.
  destruct (process_answer O (history w ++ [Spawn argv env])); reflexivity.
Qed.

Lemma ensure_sdk_resolves w :
  sdk_resolves O ->
  is_Some (files w !! PUTER_NODE_BRIDGE) ->
  _ensure_puter_sdk cfg O w = (Ok true, after w [Spawn sdk_check_argv (environ w)]).
Proof.
  intros Hsdk Hb. unfold _ensure_puter_sdk.
  rewrite bind_eq, path_exists_eq, (bool_decide_eq_true_2 _ Hb). cbv beta iota.
  cbn [negb]. rewrite bind_eq. unfold sdk_resolvable.
  rewrite try_except_eq, bind_eq, get_environ_eq. cbv beta iota.
  rewrite bind_eq, subprocess_run_eq.
  destruct (Hsdk (history w) (environ w)) as [out ->]. cbv beta iota.
  rewrite ret_eq. cbn [fst]. reflexivity.
Qed.

(** A reply of the bridge invoker that is not [None] is the parse of what
    the helper printed, and the helper was run last. *)
Lemma bridge_reply_source argv rt w p w' :
  _run_puter_node_bridge cfg O argv rt w = (Ok p, w') ->
  p <> PNone ->
  exists h env rc printed,
    history w' = h ++ [Spawn ("node" :: PUTER_NODE_BRIDGE :: argv) env]
    /\ process_answer O (history w') = ProcCompleted rc printed
    /\ p = parse_bridge_stdout printed.
Proof.
  rewrite _run_puter_node_bridge_unfold. cbv zeta.
  destruct (rt && negb (nonempty (cached_token (environ w)))).
  { intros [= <- <-]. congruence. }
  destruct (_ensure_puter_sdk cfg O (after w [CallBridge argv rt])) as [[[|]|e] w1];
    [|intros [= <- <-]; congruence | discriminate].
  destruct (process_answer O _) as [e|rc printed] eqn:Ep.
  { intros [= <- <-]. congruence. }
  intros [= <- <-] _.
  exists (history w1), (bridge_env (cached_token (environ w)) (environ w1)), rc, printed.
  split; [reflexivity|]. split; [exact Ep | reflexivity].
Qed.

(** When no login reply carries a NUL, the token the bootstrap stores holds
    none. *)
Lemma login_reply_nul_free w d w' :
  logins_nul_free O ->
  _run_puter_node_bridge cfg O ["auth-token"] false w = (Ok (PDict d), w') ->
  truthy (dict_get d "ok") = true ->
  char_in NUL (remove_ws (str_or_empty (dict_get d "token"))) = false.
Proof.
  intros Hclean Hrun Hok.
  destruct (bridge_reply_source _ _ _ _ _ Hrun ltac:(discriminate))
    as (h & env & rc & printed & Hh & Hp & Hd).
  rewrite Hh in Hp. specialize (Hclean h env rc printed Hp).
  unfold login_token in Hclean. now rewrite <- Hd, Hok in Hclean.
Qed.

Lemma quietly_refl w : quietly w w.
Proof. split; [reflexivity|]. exists []. now rewrite app_nil_r. Qed.

Lemma quietly_trans w1 w2 w3 : quietly w1 w2 -> quietly w2 w3 -> quietly w1 w3.
Proof.
  intros [Hf1 (e1 & H1 & Hq1)] [Hf2 (e2 & H2 & Hq2)]. split; [congruence|].
  exists (e1 ++ e2). rewrite H2, H1, app_assoc. split; [reflexivity|].
  now rewrite forallb_app, Hq1, Hq2.
Qed.

Lemma quietly_emit e : quiet e = true -> preserves quietly (emit e).
Proof.
  intros He w. split; [reflexivity|]. exists [e]. cbn. now rewrite He.
Qed.

Lemma quietly_setenv k v : preserves quietly (setenv k v).
Proof.
  intros w. rewrite setenv_eq.
  destruct (putenv_fails k v); (split; [reflexivity|]); exists [];
    cbn; now rewrite app_nil_r.
Qed.

(** The three ways the login flow of the bootstrap ends once the helper has
    answered. *)
Lemma bootstrap_flow_cases force w :
  has_key cfg = false ->
  is_Some (files w !! PUTER_NODE_BRIDGE) ->
  force = true \/ cached_token (environ w) = EmptyString ->
  exists payload w1,
    _run_puter_node_bridge cfg O ["auth-token"] false (after w [CallBootstrap force])
    = (Ok payload, w1)
    /\ environ w1 = environ w
    /\ files w1 = files w
    /\ _bootstrap_puter_token cfg O force w
       = match payload with
         | PDict d =>
             if negb (truthy (dict_get d "ok")) then (Ok None, w1)
             else let clean := remove_ws (str_or_empty (dict_get d "token")) in
                  if negb (nonempty clean) then (Ok (Some EmptyString), w1)
                  else if char_in NUL clean then (Raised ValueError, w1)
                  else (Ok (Some clean), with_token w1 clean)
         | _ => (Ok None, w1)
         end.
Proof.
  intros Hk Hb Hf.
  destruct (no_raise__run_puter_node_bridge cfg O ["auth-token"] false
              (after w [CallBootstrap force])) as [payload Hp].
  pose proof (bridge_same_store cfg O ["auth-token"] false (after w [CallBootstrap force]))
    as [Hfiles Henv].
  destruct (_run_puter_node_bridge cfg O ["auth-token"] false
              (after w [CallBootstrap force])) as [r w1] eqn:Hrun.
  cbn [fst snd] in *. subst r. cbn [files environ after] in Hfiles, Henv.
  exists payload, w1. split; [reflexivity|]. split; [exact Henv|]. split; [exact Hfiles|].
  rewrite (bootstrap_login_flow cfg O force w Hk Hb Hf), bind_eq, Hrun. cbv beta iota.
  destruct payload as [| | | | | |d]; try reflexivity.
  destruct (negb (truthy (dict_get d "ok"))); [reflexivity|].
  rewrite bind_eq, _set_puter_token_eq. cbv zeta.
  destruct (negb (nonempty (remove_ws (str_or_empty (dict_get d "token")))));
    [reflexivity|].
  destruct (char_in NUL (remove_ws (str_or_empty (dict_get d "token")))); reflexivity.
Qed.

(** A bootstrap that gave no usable token left the environment alone. *)
Lemma bootstrap_failure_inv force w b w2 :
  _bootstrap_puter_token cfg O force w = (Ok b, w2) ->
  token_truthy b = false ->
  environ w2 = environ w.
Proof.
  intros Hrun Hb.
  destruct (has_key cfg) eqn:Hk.
  { rewrite bootstrap_unavailable in Hrun by now left. now injection Hrun as <- <-. }
  destruct (bool_decide (is_Some (files w !! PUTER_NODE_BRIDGE))) eqn:Hex.
  2:{ rewrite bootstrap_unavailable in Hrun by now right. now injection Hrun as <- <-. }
  apply bool_decide_eq_true_1 in Hex.
  destruct (nonempty (cached_token (environ w)) && negb force) eqn:Hcached.
  - apply andb_prop in Hcached as [Hc Hf]. destruct force; [discriminate|].
    assert (cached_token (environ w) <> EmptyString) as Hc' by now apply nonempty_true.
    pose proof (bootstrap_cached_run cfg O w [] Hc') as Hspec.
    rewrite after_nil, Hk, (bool_decide_eq_true_2 _ Hex) in Hspec.
    cbn [orb negb app] in Hspec. rewrite Hspec in Hrun. now injection Hrun as <- <-.
  - assert (force = true \/ cached_token (environ w) = EmptyString) as Hf.
    { destruct force; [now left | right].
      rewrite andb_true_r in Hcached. now apply nonempty_false. }
    destruct (bootstrap_flow_cases force w Hk Hex Hf)
      as (payload & w1 & _ & Henv & _ & Heq).
    rewrite Heq in Hrun.
    destruct payload as [| | | | | |d]; try (injection Hrun as <- <-; exact Henv).
    destruct (negb (truthy (dict_get d "ok"))); [injection Hrun as <- <-; exact Henv|].
    cbv zeta in Hrun.
    destruct (negb (nonempty (remove_ws (str_or_empty (dict_get d "token"))))) eqn:Hne;
      [injection Hrun as <- <-; exact Henv|].
    destruct (char_in NUL (remove_ws (str_or_empty (dict_get d "token"))));
      [discriminate|].
    injection Hrun as <- <-. cbn [token_truthy] in Hb.
    apply negb_false_iff in Hne. congruence.
Qed.

(** A bootstrap raises nothing but the [ValueError] of a login token
    that holds a NUL, and then the environment is as it was. *)
Lemma bootstrap_raise_inv force w e w2 :
  _bootstrap_puter_token cfg O force w = (Raised e, w2) ->
  e = ValueError /\ environ w2 = environ w /\ ~ logins_nul_free O.
Proof.
  intros Hrun.
  destruct (has_key cfg) eqn:Hk.
  { rewrite bootstrap_unavailable in Hrun by now left. discriminate. }
  destruct (bool_decide (is_Some (files w !! PUTER_NODE_BRIDGE))) eqn:Hex.
  2:{ rewrite bootstrap_unavailable in Hrun by now right. discriminate. }
  apply bool_decide_eq_true_1 in Hex.
  destruct (nonempty (cached_token (environ w)) && negb force) eqn:Hcached.
  - apply andb_prop in Hcached as [Hc Hf]. destruct force; [discriminate|].
    assert (cached_token (environ w) <> EmptyString) as Hc' by now apply nonempty_true.
    pose proof (bootstrap_cached_run cfg O w [] Hc') as Hspec.
    rewrite after_nil in Hspec. rewrite Hspec in Hrun. discriminate.
  - assert (force = true \/ cached_token (environ w) = EmptyString) as Hf.
    { destruct force; [now left | right].
      rewrite andb_true_r in Hcached. now apply nonempty_false. }
    destruct (bootstrap_flow_cases force w Hk Hex Hf)
      as (payload & w1 & Hbridge & Henv & _ & Heq).
    rewrite Heq in Hrun.
    destruct payload as [| | | | | |d]; try discriminate.
    destruct (negb (truthy (dict_get d "ok"))) eqn:Hok; [discriminate|].
    cbv zeta in Hrun.
    destruct (negb (nonempty (remove_ws (str_or_empty (dict_get d "token")))));
      [discriminate|].
    destruct (char_in NUL (remove_ws (str_or_empty (dict_get d "token")))) eqn:Hnul;
      [|discriminate].
    injection Hrun as <- <-. split; [reflexivity|]. split; [exact Henv|].
    intros Hclean. apply negb_false_iff in Hok.
    rewrite (login_reply_nul_free _ _ _ Hclean Hbridge Hok) in Hnul. discriminate.
Qed.

(** A bootstrap, forced or not: its call is recorded once, what follows is
    quiet, the files are kept; a token it returns is then cached, and
    otherwise the environment is as it was. *)
Lemma bootstrap_outcome force w :
  exists r w2 evs,
    _bootstrap_puter_token cfg O force w = (r, w2)
    /\ history w2 = history w ++ CallBootstrap force :: evs
    /\ forallb quiet evs = true
    /\ files w2 = files w
    /\ match r with
       | Ok b => if token_truthy b then cached_token (environ w2) <> EmptyString
                 else environ w2 = environ w
       | Raised e => e = ValueError /\ environ w2 = environ w
       end.
Proof.
  destruct (_bootstrap_puter_token cfg O force w) as [r w2] eqn:Hrun.
  assert (match r with
          | Ok b => if token_truthy b then cached_token (environ w2) <> EmptyString
                    else environ w2 = environ w
          | Raised e => e = ValueError /\ environ w2 = environ w
          end) as Hres.
  { destruct r as [b|e].
    - destruct (token_truthy b) eqn:Ht.
      + destruct b as [t|]; [|discriminate]. cbn in Ht. apply nonempty_true in Ht.
        destruct (bootstrap_success_inv cfg O force w w2 t Hrun Ht) as (_ & -> & _).
        exact Ht.
      + exact (bootstrap_failure_inv force w b w2 Hrun Ht).
    - destruct (bootstrap_raise_inv force w e w2 Hrun) as (He & Henv & _). now split. }
  exists r, w2.
  destruct (has_key cfg) eqn:Hk.
  { rewrite bootstrap_unavailable in Hrun by now left. injection Hrun as <- <-.
    exists []. repeat split; auto. }
  destruct (bool_decide (is_Some (files w !! PUTER_NODE_BRIDGE))) eqn:Hex.
  2:{ rewrite bootstrap_unavailable in Hrun by now right. injection Hrun as <- <-.
      exists []. repeat split; auto. }
  apply bool_decide_eq_true_1 in Hex.
  destruct (nonempty (cached_token (environ w)) && negb force) eqn:Hcached.
  { apply andb_prop in Hcached as [Hc Hf]. destruct force; [discriminate|].
    assert (cached_token (environ w) <> EmptyString) as Hc' by now apply nonempty_true.
    pose proof (bootstrap_cached_run cfg O w [] Hc') as Hspec.
    rewrite after_nil in Hspec. cbn [app] in Hspec.
    rewrite Hspec in Hrun. injection Hrun as <- <-.
    exists []. repeat split; auto. }
  assert (force = true \/ cached_token (environ w) = EmptyString) as Hf.
  { destruct force; [now left | right].
    rewrite andb_true_r in Hcached. now apply nonempty_false. }
  rewrite (bootstrap_login_flow cfg O force w Hk Hex Hf) in Hrun.
  pose proof (preserves_bootstrap_flow cfg O quietly (fun e => quiet e = true)
                quietly_refl quietly_trans quietly_emit
                (fun argv env => eq_refl) quietly_setenv eq_refl
                (after w [CallBootstrap force])) as [Hfiles (evs & Hhist & Hquiet)].
  rewrite Hrun in Hfiles, Hhist. cbn [snd] in Hfiles, Hhist.
  exists evs. split; [reflexivity|]. split.
  { rewrite Hhist, history_after, <- app_assoc. reflexivity. }
  repeat split; assumption.
Qed.

(** ** What never raises when no login reply carries a NUL *)

Hypothesis logins_clean : logins_nul_free O.

Lemma no_raise__bootstrap_puter_token force :
  no_raise (_bootstrap_puter_token cfg O force).
Proof.
  intros w. destruct (_bootstrap_puter_token cfg O force w) as [[b|e] w2] eqn:Hrun.
  - now exists b.
  - now destruct (bootstrap_raise_inv force w e w2 Hrun) as (_ & _ & Hno).
Qed.

Lemma no_raise__run_puter_bridge_with_reauth argv :
  no_raise (_run_puter_bridge_with_reauth cfg O argv).
Proof.
  unfold _run_puter_bridge_with_reauth.
  pose proof (no_raise__puter_token). pose proof (no_raise__run_puter_node_bridge cfg O).
  pose proof no_raise__bootstrap_puter_token.
  no_raise_step.
Qed.

Lemma no_raise_bridge_loop prompt candidates : no_raise (bridge_loop cfg O prompt candidates).
Proof.
  induction candidates as [|c cs IH]; cbn [bridge_loop].
  - no_raise_step.
  - pose proof no_raise__run_puter_bridge_with_reauth. no_raise_step.
Qed.

Lemma no_raise_call_puter_with_model prompt model :
  no_raise (call_puter_with_model cfg O prompt model).
Proof.
  unfold call_puter_with_model.
  pose proof (no_raise_keyed_loop cfg O). pose proof no_raise_bridge_loop.
  no_raise_step.
Qed.

Lemma no_raise_call_puter prompt model : no_raise (call_puter cfg O prompt model).
Proof.
  unfold call_puter. pose proof no_raise_call_puter_with_model. no_raise_step.
Qed.

Lemma no_raise_ask_router prompt : no_raise (ask_router cfg O prompt).
Proof.
  unfold ask_router.
  pose proof no_raise_call_puter. pose proof (no_raise_query_ollama cfg O).
  pose proof (no_raise_gemini_ask cfg O).
  no_raise_step.
Qed.

End LoginLemmas.

(** ** The router *)

Section Router.

Import llm_adapters.

Context {RT : PyRuntime} (cfg : Config) (O : Outside).

(** The local tier posts once, or twice when the first answer is 404 and the
    model was not the default one; it never raises. *)
Lemma requests_post_eq e w :
  requests_post O e w
  = match http_answer O (history w ++ [e]) with
    | HttpRaises x => (Raised x, after w [e])
    | HttpResponse st j => (Ok (st, j), after w [e])
    end.
Proof.
  unfold requests_post. run_step. run_step.
  destruct (http_answer O (history w ++ [e])); reflexivity.
Qed.

Lemma query_ollama_posts prompt model w :
  exists v evs,
    query_ollama cfg O prompt model w = (Ok v, after w evs)
    /\ forallb is_ollama_post evs = true
    /\ (1 <= length evs <= 2)%nat.
Proof.
  unfold query_ollama.
  set (chosen := or_str model (OLLAMA_MODEL cfg)).
  rewrite try_except_eq, bind_eq, requests_post_eq.
  destruct (http_answer O (history w ++ [OllamaPost chosen prompt])) as [e|st j].
  { exists PNone, [OllamaPost chosen prompt]. repeat split; cbn; lia. }
  cbv iota beta. rewrite bind_eq. cbn [fst snd].
  destruct ((st =? 404) && negb (String.eqb chosen "llama3:latest")).
  - rewrite requests_post_eq, history_after.
    destruct (http_answer O _) as [e|st2 j2].
    { exists PNone, [OllamaPost chosen prompt; OllamaPost "llama3:latest" prompt].
      rewrite after_after. repeat split; cbn; lia. }
    cbv iota beta. rewrite after_after, bind_eq. cbn [fst snd].
    unfold raise_for_status.
    destruct ((400 <=? st2) && (st2 <? 600)).
    { eexists; exists [OllamaPost chosen prompt; OllamaPost "llama3:latest" prompt].
      repeat split; cbn; lia. }
    rewrite ret_eq. cbv iota beta. rewrite bind_eq.
    destruct j2 as [[| | | | | |d]|];
      eexists; exists [OllamaPost chosen prompt; OllamaPost "llama3:latest" prompt];
      repeat split; cbn; lia.
  - rewrite ret_eq. cbv iota beta. rewrite bind_eq. cbn [fst snd].
    unfold raise_for_status.
    destruct ((400 <=? st) && (st <? 600)).
    { eexists; exists [OllamaPost chosen prompt]. repeat split; cbn; lia. }
    rewrite ret_eq. cbv iota beta. rewrite bind_eq.
    destruct j as [[| | | | | |d]|];
      eexists; exists [OllamaPost chosen prompt];
      repeat split; cbn; lia.
Qed.

(** C5.  With [QTM_LOCAL_ONLY] set to 1, or unset, the router only posts to
    the local inference server, once or twice: it makes no keyed call,
    spawns no process, does not call Gemini, and leaves the environment and
    the files as they are, whatever the configured candidates are. *)
Theorem local_only_router_stays_local (prompt : string) (w : World) :
  default "1" (environ w !! "QTM_LOCAL_ONLY") = "1" ->
  exists r evs,
    ask_router cfg O prompt w = (Ok r, after w evs)
    /\ forallb is_ollama_post evs = true
    /\ (1 <= length evs <= 2)%nat
    /\ (snd r = "ollama" \/ r = (PNone, "none")).
Proof.
  intros Hlocal. unfold ask_router.
  unfold bind at 1. unfold getenv. rewrite Hlocal. cbn [String.eqb Ascii.eqb Bool.eqb negb andb].
  unfold bind at 1. cbn [ret token_truthy].
  destruct (query_ollama_posts prompt None w) as (v & evs & Hq & Hev & Hlen).
  unfold bind at 1. rewrite Hq.
  destruct (truthy v) eqn:Hv.
  - exists (v, "ollama"), evs. cbn. auto.
  - unfold bind. cbn [ret truthy].
    exists (PNone, "none"), evs. auto.
Qed.

End Router.

(** ** The dispatcher *)

Section Dispatch.

Import llm_adapters.

Context {RT : PyRuntime} (cfg : Config) (O : Outside).

Lemma candidates_for_nonempty model : candidates_for cfg model <> [].
Proof.
  unfold candidates_for.
  destruct (nonempty (strip (or_str model (PUTER_DEFAULT_MODEL cfg))));
    destruct (nonempty (strip (PUTER_FALLBACK_MODEL cfg)) && _); cbn; congruence.
Qed.

(** A keyed attempt posts once and never raises. *)
Lemma keyed_attempt_run prompt chosen w :
  exists r,
    keyed_attempt cfg O prompt chosen w = (Ok r, after w (keyed_posts cfg prompt [chosen])).
Proof.
  unfold keyed_attempt, keyed_posts. cbn [map].
  rewrite try_except_eq, bind_eq, requests_post_eq.
  destruct (http_answer O _) as [e|st j]; [now eexists|].
  cbv beta iota. rewrite bind_eq. cbn [fst snd]. unfold raise_for_status.
  destruct ((400 <=? st) && (st <? 600)); [now eexists|].
  rewrite ret_eq. cbv beta iota. rewrite bind_eq.
  destruct j as [v|]; cbn [response_json]; [|now eexists].
  rewrite ret_eq. cbv beta iota.
  destruct (_extract_chat_content v) as [c|]; [|now eexists].
  destruct (nonempty c); now eexists.
Qed.

(** The keyed loop posts for the first [n] candidates in order: every
    attempt before the last one fails, and the loop stops either at the
    first attempt that gives a content or after the last candidate. *)
Lemma keyed_loop_run prompt candidates w :
  exists n r,
    (n <= length candidates)%nat
    /\ keyed_loop cfg O prompt candidates w
       = (Ok r, after w (keyed_posts cfg prompt (take n candidates)))
    /\ (forall i m, (i < n)%nat -> candidates !! i = Some m ->
          fst (keyed_attempt cfg O prompt m
                 (after w (keyed_posts cfg prompt (take i candidates))))
          = Ok (if Nat.eqb (S i) n then option_map fst r else None))
    /\ match r with
       | Some (_, chosen) => (1 <= n)%nat /\ candidates !! (n - 1)%nat = Some chosen
       | None => n = length candidates
       end.
Proof.
  revert w. induction candidates as [|c cs IH]; intros w.
  - exists 0%nat, None. cbn [take keyed_posts map length]. rewrite after_nil.
    split; [lia|]. split; [reflexivity|]. split; [|reflexivity].
    intros i m Hi. lia.
  - cbn [keyed_loop]. rewrite bind_eq.
    destruct (keyed_attempt_run prompt c w) as [r0 Hr]. rewrite Hr. cbv beta iota.
    destruct r0 as [content|].
    + exists 1%nat, (Some (content, c)). cbn [length]. split; [lia|].
      split; [reflexivity|]. split; [|split; [lia | reflexivity]].
      intros [|i] m Hi Hm; [|lia]. cbn in Hm. injection Hm as <-.
      cbn [take keyed_posts map]. rewrite after_nil, Hr. reflexivity.
    + destruct (IH (after w (keyed_posts cfg prompt [c])))
        as (n & r & Hn & Hrun & Hattempts & Hlast).
      exists (S n), r. cbn [length]. split; [lia|]. split.
      { rewrite Hrun, after_after. reflexivity. }
      split.
      * intros [|i] m Hi Hm.
        -- cbn in Hm. injection Hm as <-.
           cbn [take keyed_posts map]. rewrite after_nil, Hr. cbn [fst].
           destruct n as [|n']; [|reflexivity].
           destruct r as [[? ?]|]; [lia | reflexivity].
        -- cbn in Hm. specialize (Hattempts i m ltac:(lia) Hm).
           rewrite after_after in Hattempts. exact Hattempts.
      * destruct r as [[content chosen]|].
        -- destruct Hlast as [H1 Hnth]. split; [lia|].
           replace (S n - 1)%nat with (S (n - 1)) by lia. exact Hnth.
        -- now rewrite Hlast.
Qed.

(** C1 (as amended).  With a static key configured, the candidate list is
    not empty and the dispatcher makes the keyed calls first, for the
    candidates in order, one post each: every attempt before the last one
    made fails; when an attempt gives a content the dispatcher returns it at
    once with that candidate's model, having made no bridge call and tried no
    later candidate; only when the keyed attempts of all candidates have
    failed does the bridge loop run, over the same candidates in order. *)
Theorem keyed_calls_precede_bridge_calls (prompt : string) (model : option string)
    (w : World) :
  has_key cfg = true ->
  let candidates := candidates_for cfg model in
  candidates <> []
  /\ exists n r,
       (n <= length candidates)%nat
       /\ (forall i m, (i < n)%nat -> candidates !! i = Some m ->
             fst (keyed_attempt cfg O prompt m
                    (after w (keyed_posts cfg prompt (take i candidates))))
             = Ok (if Nat.eqb (S i) n then r else None))
       /\ match r with
          | Some content =>
              exists chosen,
                (1 <= n)%nat
                /\ candidates !! (n - 1)%nat = Some chosen
                /\ call_puter_with_model cfg O prompt model w
                   = (Ok (Some content, Some chosen),
                      after w (keyed_posts cfg prompt (take n candidates)))
          | None =>
              n = length candidates
              /\ call_puter_with_model cfg O prompt model w
                 = bridge_loop cfg O prompt candidates
                     (after w (keyed_posts cfg prompt candidates))
          end.
Proof.
  intros Hkey. cbv zeta. split; [apply candidates_for_nonempty|].
  unfold call_puter_with_model. rewrite Hkey.
  destruct (keyed_loop_run prompt (candidates_for cfg model) w)
    as (n & r & Hn & Hrun & Hattempts & Hlast).
  exists n, (option_map fst r). split; [exact Hn|]. split; [exact Hattempts|].
  rewrite bind_eq, Hrun. cbv beta iota.
  destruct r as [[content chosen]|]; cbn [option_map fst].
  - destruct Hlast as [H1 Hnth]. exists chosen. repeat split; assumption.
  - subst n. rewrite firstn_all. split; reflexivity.
Qed.

(** The keyed loop gives nothing exactly when every keyed attempt gives
    nothing; it has then posted for every candidate. *)
Lemma keyed_loop_none_iff prompt candidates w :
  fst (keyed_loop cfg O prompt candidates w) = Ok None
  <-> forall i m, candidates !! i = Some m ->
        fst (keyed_attempt cfg O prompt m
               (after w (keyed_posts cfg prompt (take i candidates)))) = Ok None.
Proof.
  destruct (keyed_loop_run prompt candidates w) as (n & r & Hn & Hrun & Hattempts & Hlast).
  rewrite Hrun. cbn [fst]. split.
  - intros [= ->]. subst n. intros i m Hi.
    rewrite (Hattempts i m (lookup_lt_Some _ _ _ Hi) Hi).
    now destruct (Nat.eqb (S i) (length candidates)).
  - intros Hall. destruct r as [[content chosen]|]; [|reflexivity].
    destruct Hlast as [H1 Hnth].
    pose proof (Hattempts (n - 1)%nat chosen ltac:(lia) Hnth) as Ha.
    rewrite (Hall _ _ Hnth) in Ha.
    replace (S (n - 1)) with n in Ha by lia. rewrite Nat.eqb_refl in Ha.
    discriminate.
Qed.

Lemma keyed_loop_none_world prompt candidates w :
  fst (keyed_loop cfg O prompt candidates w) = Ok None ->
  snd (keyed_loop cfg O prompt candidates w) = after w (keyed_posts cfg prompt candidates).
Proof.
  destruct (keyed_loop_run prompt candidates w) as (n & r & Hn & Hrun & _ & Hlast).
  rewrite Hrun. cbn [fst snd]. intros [= ->]. subst n. now rewrite firstn_all.
Qed.

(** The keyed loop never raises, and what it gives is nothing or a content
    with a model. *)
Lemma keyed_loop_result prompt candidates w :
  exists r, fst (keyed_loop cfg O prompt candidates w) = Ok r.
Proof. apply no_raise_keyed_loop. Qed.

(** The bridge loop gives the pair of nothing exactly when every bridge
    attempt fails. *)
Lemma bridge_loop_none_iff prompt candidates w :
  fst (bridge_loop cfg O prompt candidates w) = Ok (None, None)
  <-> Forall attempt_failed (bridge_attempts cfg O prompt candidates w).
Proof.
  revert w. induction candidates as [|c cs IH]; intros w.
  - cbn. split; [constructor | reflexivity].
  - cbn [bridge_loop bridge_attempts]. rewrite bind_eq.
    destruct (_run_puter_bridge_with_reauth cfg O (chat_argv c prompt) w)
      as [[p|e] w1]; cbn [fst snd].
    + destruct (bridge_success p) as [[content m]|] eqn:Es.
      * split; [discriminate|].
        intros H. apply Forall_cons_1 in H as [(p' & Hp & Hp') _].
        injection Hp as <-. congruence.
      * rewrite IH. split.
        -- intros H. constructor; [now exists p | exact H].
        -- intros H. now apply Forall_cons_1 in H as [_ H].
    + split; [discriminate|].
      intros H. apply Forall_cons_1 in H as [(p' & Hp & _) _]. discriminate.
Qed.

(** What the bridge loop returns is the pair of nothing or a content with
    the name of a model. *)
Lemma bridge_loop_result prompt candidates w r :
  fst (bridge_loop cfg O prompt candidates w) = Ok r ->
  r = (None, None) \/ exists content used, r = (Some content, Some used).
Proof.
  revert w. induction candidates as [|c cs IH]; intros w.
  - cbn. intros [= <-]. now left.
  - cbn [bridge_loop]. rewrite bind_eq.
    destruct (_run_puter_bridge_with_reauth cfg O (chat_argv c prompt) w)
      as [[p|e] w1]; [|discriminate].
    cbv beta iota. destruct (bridge_success p) as [[content m]|].
    + intros [= <-]. right. now eexists; eexists.
    + apply IH.
Qed.

(** The dispatcher in terms of its two loops. *)
Lemma call_puter_with_model_eq prompt model w :
  call_puter_with_model cfg O prompt model w
  = if has_key cfg
    then match keyed_loop cfg O prompt (candidates_for cfg model) w with
         | (Ok (Some (content, chosen)), w1) => (Ok (Some content, Some chosen), w1)
         | (Ok None, w1) => bridge_loop cfg O prompt (candidates_for cfg model) w1
         | (Raised e, w1) => (Raised e, w1)
         end
    else bridge_loop cfg O prompt (candidates_for cfg model) w.
Proof.
  unfold call_puter_with_model. rewrite bind_eq.
  destruct (has_key cfg); [|reflexivity].
  destruct (keyed_loop cfg O prompt (candidates_for cfg model) w) as [[[[? ?]|]|e] w1];
    reflexivity.
Qed.

Lemma dispatch_exhausted_iff prompt model w :
  every_candidate_fails cfg O prompt (candidates_for cfg model) w
  <-> fst (call_puter_with_model cfg O prompt model w) = Ok (None, None).
Proof.
  unfold every_candidate_fails. rewrite call_puter_with_model_eq.
  destruct (has_key cfg).
  - pose proof (keyed_loop_none_iff prompt (candidates_for cfg model) w) as Hk.
    pose proof (keyed_loop_none_world prompt (candidates_for cfg model) w) as Hw.
    destruct (keyed_loop cfg O prompt (candidates_for cfg model) w)
      as [[[[content chosen]|]|e] w1]; cbn [fst snd] in *.
    + split; [|discriminate]. intros [Hall _].
      pose proof (proj2 Hk (Hall eq_refl)). discriminate.
    + rewrite (Hw eq_refl), bridge_loop_none_iff. split.
      * now intros [_ H].
      * intros H. split; [intros _; now apply Hk | exact H].
    + split; [|discriminate]. intros [Hall _].
      pose proof (proj2 Hk (Hall eq_refl)). discriminate.
  - rewrite bridge_loop_none_iff. split; [now intros [_ H] | intros H; split; [discriminate | exact H]].
Qed.

Lemma dispatch_result prompt model w r :
  fst (call_puter_with_model cfg O prompt model w) = Ok r ->
  r = (None, None) \/ exists content used, r = (Some content, Some used).
Proof.
  rewrite call_puter_with_model_eq. destruct (has_key cfg).
  - destruct (keyed_loop cfg O prompt (candidates_for cfg model) w)
      as [[[[content chosen]|]|e] w1]; [| |discriminate].
    + intros [= <-]. right. now eexists; eexists.
    + apply bridge_loop_result.
  - apply bridge_loop_result.
Qed.

(** When the remote tier is exhausted or skipped, and the local tier and
    Gemini give nothing, the router gives [None] and the engine name
    [none]. *)
Lemma ask_router_exhausted prompt w :
  let local_only := String.eqb (default "1" (environ w !! "QTM_LOCAL_ONLY")) "1" in
  let remote := call_puter_with_model cfg O prompt None w in
  let w1 := if local_only then w else snd remote in
  let w2 := snd (query_ollama cfg O prompt None w1) in
  (local_only = false -> fst remote = Ok (None, None)) ->
  (forall v, fst (query_ollama cfg O prompt None w1) = Ok v -> truthy v = false) ->
  (local_only = false -> gemini_enabled cfg = true ->
   forall v, fst (gemini_ask cfg O prompt w2) = Ok v -> truthy v = false) ->
  fst (ask_router cfg O prompt w) = Ok (PNone, "none").
Proof.
  cbv zeta. intros Hp Ho Hg. unfold ask_router.
  rewrite bind_eq, getenv_eq. cbv beta iota.
  destruct (String.eqb (default "1" (environ w !! "QTM_LOCAL_ONLY")) "1") eqn:Hlo;
    cbn [negb andb] in *.
  - rewrite bind_eq, ret_eq. cbv beta iota. cbn [token_truthy]. rewrite bind_eq.
    destruct (no_raise_query_ollama cfg O prompt None w) as [v Hv].
    specialize (Ho v Hv).
    destruct (query_ollama cfg O prompt None w) as [r w2]. cbn [fst] in Hv. subst r.
    cbv beta iota. rewrite Ho. rewrite bind_eq, ret_eq. reflexivity.
  - specialize (Hp eq_refl). rewrite bind_eq. unfold call_puter. rewrite bind_eq.
    destruct (call_puter_with_model cfg O prompt None w) as [r w1]. cbn [fst snd] in *.
    subst r. cbv beta iota. rewrite ret_eq. cbv beta iota. cbn [fst token_truthy].
    rewrite bind_eq.
    destruct (no_raise_query_ollama cfg O prompt None w1) as [v Hv].
    specialize (Ho v Hv).
    destruct (query_ollama cfg O prompt None w1) as [r w2]. cbn [fst snd] in *. subst r.
    cbv beta iota. rewrite Ho. rewrite bind_eq.
    destruct (gemini_enabled cfg).
    + destruct (no_raise_gemini_ask cfg O prompt w2) as [g Hgv].
      specialize (Hg eq_refl eq_refl g Hgv).
      destruct (gemini_ask cfg O prompt w2) as [r w3]. cbn [fst] in Hgv. subst r.
      cbv beta iota. now rewrite Hg.
    + rewrite ret_eq. reflexivity.
Qed.


End Dispatch.

(** ** Re-authentication *)

Section Reauth.

Import llm_adapters.

Context {RT : PyRuntime} (cfg : Config) (O : Outside).

(** A chat call that the provider rejects: the call is recorded, the SDK
    check and the helper are spawned, and the reply carries the signature. *)
Lemma rejected_chat_call chosen prompt w :
  sdk_resolves O ->
  chat_rejected O chosen prompt ->
  is_Some (files w !! PUTER_NODE_BRIDGE) ->
  cached_token (environ w) <> EmptyString ->
  exists p evs,
    _run_puter_node_bridge cfg O (chat_argv chosen prompt) true w = (Ok p, after w evs)
    /\ count_events (is_call_bridge (chat_argv chosen prompt)) evs = 1%nat
    /\ count_events (is_call_bootstrap true) evs = 0%nat
    /\ count_events (is_call_bootstrap false) evs = 0%nat
    /\ _is_bridge_auth_failure p = true
    /\ bridge_success p = None.
Proof.
  intros Hsdk Hrej Hb Htok.
  rewrite _run_puter_node_bridge_unfold. cbv zeta.
  apply nonempty_true in Htok. rewrite Htok. cbn [negb andb].
  rewrite ensure_sdk_resolves by assumption.
  rewrite !after_after, !history_after, !environ_after. cbn [app].
  destruct (Hrej (history w ++ [CallBridge (chat_argv chosen prompt) true;
                                Spawn sdk_check_argv (environ w)])
                 (bridge_env (cached_token (environ w)) (environ w)))
    as (rc & out & Hans & Hauth & Hfail).
  rewrite <- app_assoc in Hans. cbn [app] in Hans. rewrite Hans.
  eexists; eexists. split; [reflexivity|].
  unfold count_events. cbn [List.filter is_call_bridge is_call_bootstrap app length].
  rewrite bool_decide_eq_true_2 by reflexivity. cbn [length].
  repeat split; assumption.
Qed.

Lemma count_events_app p evs1 evs2 :
  count_events p (evs1 ++ evs2) = (count_events p evs1 + count_events p evs2)%nat.
Proof. unfold count_events. now rewrite List.filter_app, length_app. Qed.

Lemma count_events_quiet p evs :
  (forall e, quiet e = true -> p e = false) ->
  forallb quiet evs = true -> count_events p evs = 0%nat.
Proof.
  intros Hp. unfold count_events. induction evs as [|e evs IH]; [reflexivity|].
  cbn. intros [He Hevs]%andb_prop. rewrite (Hp e He). now apply IH.
Qed.

Lemma quiet_not_bootstrap force e : quiet e = true -> is_call_bootstrap force e = false.
Proof. destruct e; cbn; congruence. Qed.

Lemma quiet_not_chat chosen prompt e :
  quiet e = true -> is_call_bridge (chat_argv chosen prompt) e = false.
Proof.
  destruct e; cbn; try congruence.
  unfold quiet. cbn. intros Ha%bool_decide_eq_true_1. subst argv.
  apply bool_decide_eq_false_2. discriminate.
Qed.

Lemma auth_failure_not_none p : _is_bridge_auth_failure p = true -> is_none p = false.
Proof. destruct p; [discriminate | reflexivity..]. Qed.

(** Without a cached token the bridge call is recorded and gives [None]
    at once. *)
Lemma tokenless_chat_call argv w :
  cached_token (environ w) = EmptyString ->
  _run_puter_node_bridge cfg O argv true w = (Ok PNone, after w [CallBridge argv true]).
Proof.
  intros Htok. rewrite _run_puter_node_bridge_unfold. cbv zeta. now rewrite Htok.
Qed.

(** The bridge path, from its first lines to [reauth_tail]. *)
Lemma _run_puter_bridge_with_reauth_eq argv w :
  _run_puter_bridge_with_reauth cfg O argv w
  = if bool_decide (is_Some (files w !! PUTER_NODE_BRIDGE)) then
      if nonempty (cached_token (environ w)) then reauth_tail cfg O argv w
      else match _bootstrap_puter_token cfg O false w with
           | (Ok _, w0) => reauth_tail cfg O argv w0
           | (Raised e, w0) => (Raised e, w0)
           end
    else (Ok PNone, w).
Proof.
  unfold _run_puter_bridge_with_reauth.
  rewrite bind_eq, path_exists_eq. cbv beta iota.
  destruct (bool_decide (is_Some (files w !! PUTER_NODE_BRIDGE))); [|reflexivity].
  cbn [negb]. rewrite bind_eq, _puter_token_spec. cbv beta iota. rewrite bind_eq.
  destruct (nonempty (cached_token (environ w))); cbn [negb].
  - rewrite ret_eq. reflexivity.
  - rewrite bind_eq.
    destruct (_bootstrap_puter_token cfg O false w) as [[b|e] w0]; reflexivity.
Qed.

Ltac count_quiet :=
  rewrite ?count_events_app;
  repeat match goal with
         | H : forallb quiet ?evs = true |- context [count_events ?p ?evs] =>
             rewrite (count_events_quiet p evs) by
               (assumption || (intros ? He; first [apply (quiet_not_bootstrap _ _ He)
                                                 | apply (quiet_not_chat _ _ _ He)]))
         end.

(** The bridge path from the bridge call on, for a candidate whose chats
    are always rejected: one forced bootstrap, and a second bridge call
    exactly when that bootstrap gave a token. *)
Lemma reauth_tail_run chosen prompt w0 :
  sdk_resolves O ->
  chat_rejected O chosen prompt ->
  is_Some (files w0 !! PUTER_NODE_BRIDGE) ->
  let argv := chat_argv chosen prompt in
  let w1 := snd (_run_puter_node_bridge cfg O argv true w0) in
  let forced := _bootstrap_puter_token cfg O true w1 in
  exists r w' evs,
    reauth_tail cfg O argv w0 = (r, w')
    /\ history w' = history w0 ++ evs
    /\ count_events (is_call_bootstrap false) evs = 0%nat
    /\ count_events (is_call_bootstrap true) evs = 1%nat
    /\ count_events (is_call_bridge argv) evs
       = (if refreshed (fst forced) then 2 else 1)%nat
    /\ match r with
       | Ok payload =>
           bridge_success payload = None
           /\ (_is_bridge_auth_failure payload = true \/ payload = PNone)
       | Raised e => e = ValueError /\ fst forced = Raised ValueError
       end.
Proof.
  intros Hsdk Hrej Hb. cbv zeta.
  assert (exists p1 E1,
            _run_puter_node_bridge cfg O (chat_argv chosen prompt) true w0
            = (Ok p1, after w0 E1)
            /\ count_events (is_call_bridge (chat_argv chosen prompt)) E1 = 1%nat
            /\ count_events (is_call_bootstrap true) E1 = 0%nat
            /\ count_events (is_call_bootstrap false) E1 = 0%nat
            /\ bridge_success p1 = None
            /\ ((_is_bridge_auth_failure p1 = true /\ cached_token (environ w0) <> EmptyString)
                \/ (p1 = PNone /\ cached_token (environ w0) = EmptyString)))
    as (p1 & E1 & Hcall1 & Hc1 & Hbt1 & Hbf1 & Hfail1 & Hkind).
  { destruct (String.eqb_spec (cached_token (environ w0)) EmptyString) as [Htok|Htok].
    - exists PNone, [CallBridge (chat_argv chosen prompt) true].
      split; [now apply tokenless_chat_call|].
      unfold count_events. cbn [List.filter is_call_bridge is_call_bootstrap].
      rewrite bool_decide_eq_true_2 by reflexivity. cbn [length].
      repeat split; auto.
    - destruct (rejected_chat_call chosen prompt w0 Hsdk Hrej Hb Htok)
        as (p1 & E1 & Hcall1 & Hc1 & Hbt1 & Hbf1 & Hauth1 & Hfail1).
      exists p1, E1. repeat split; auto. }
  rewrite Hcall1. cbn [snd].
  destruct (bootstrap_outcome cfg O true (after w0 E1))
    as (rf & w2 & Eb & Hboot & Hhist2 & Hquiet & Hfiles2 & Hres).
  rewrite history_after in Hhist2. rewrite files_after in Hfiles2.
  rewrite environ_after in Hres.
  rewrite Hboot. cbn [fst].
  assert (is_Some (files w2 !! PUTER_NODE_BRIDGE)) as Hb2 by now rewrite Hfiles2.
  (* The tail runs the forced bootstrap in both cases. *)
  assert (reauth_tail cfg O (chat_argv chosen prompt) w0
          = match rf with
            | Ok b =>
                if token_truthy b
                then match _run_puter_node_bridge cfg O (chat_argv chosen prompt) true w2 with
                     | (Ok retry, w3) =>
                         (Ok (if is_none p1 then retry
                              else if negb (is_none retry) then retry else p1), w3)
                     | (Raised e, w3) => (Raised e, w3)
                     end
                else (Ok p1, w2)
            | Raised e => (Raised e, w2)
            end) as Hrun.
  { unfold reauth_tail. rewrite bind_eq, Hcall1. cbv beta iota.
    rewrite bind_eq, _puter_token_spec, environ_after. cbv beta iota.
    destruct Hkind as [[Hauth1 Htok]|[-> Htok]].
    - rewrite (auth_failure_not_none _ Hauth1). cbn [andb]. rewrite Hauth1.
      rewrite bind_eq, Hboot. destruct rf as [b|e]; [|reflexivity].
      cbv beta iota. destruct (token_truthy b); [|reflexivity].
      rewrite bind_eq.
      destruct (_run_puter_node_bridge cfg O (chat_argv chosen prompt) true w2)
        as [[retry|e] w3]; [|reflexivity].
      cbv beta iota. destruct (negb (is_none retry)); reflexivity.
    - rewrite Htok. cbn [is_none nonempty String.eqb negb andb].
      rewrite bind_eq, Hboot. destruct rf as [b|e]; [|reflexivity].
      cbv beta iota. destruct (token_truthy b); [|reflexivity].
      destruct (_run_puter_node_bridge cfg O (chat_argv chosen prompt) true w2)
        as [[retry|e] w3]; reflexivity. }
  rewrite Hrun. clear Hrun.
  destruct rf as [b|e]; cbn [refreshed].
  - destruct (token_truthy b) eqn:Ht.
    + destruct (rejected_chat_call chosen prompt w2 Hsdk Hrej Hb2 Hres)
        as (p2 & E2 & Hcall2 & Hc2 & Hbt2 & Hbf2 & Hauth2 & Hfail2).
      rewrite Hcall2.
      exists (Ok (if is_none p1 then p2 else if negb (is_none p2) then p2 else p1)),
        (after w2 E2), (E1 ++ CallBootstrap true :: Eb ++ E2).
      split; [reflexivity|]. split.
      { rewrite history_after, Hhist2, <- !app_assoc. reflexivity. }
      change (CallBootstrap true :: Eb ++ E2) with ([CallBootstrap true] ++ Eb ++ E2).
      count_quiet. rewrite Hbt1, Hbf1, Hc1, Hbt2, Hbf2, Hc2.
      split; [reflexivity|]. split; [reflexivity|]. split; [reflexivity|].
      rewrite (auth_failure_not_none _ Hauth2). cbn [negb].
      destruct (is_none p1); (split; [exact Hfail2 | now left]).
    + exists (Ok p1), w2, (E1 ++ CallBootstrap true :: Eb).
      split; [reflexivity|]. split.
      { rewrite Hhist2, <- !app_assoc. reflexivity. }
      change (CallBootstrap true :: Eb) with ([CallBootstrap true] ++ Eb).
      count_quiet. rewrite Hbt1, Hbf1, Hc1.
      split; [reflexivity|]. split; [reflexivity|]. split; [reflexivity|].
      split; [exact Hfail1|].
      destruct Hkind as [[Hauth1 _]|[-> _]]; [now left | now right].
  - destruct Hres as [-> _].
    exists (Raised ValueError), w2, (E1 ++ CallBootstrap true :: Eb).
    split; [reflexivity|]. split.
    { rewrite Hhist2, <- !app_assoc. reflexivity. }
    change (CallBootstrap true :: Eb) with ([CallBootstrap true] ++ Eb).
    count_quiet. rewrite Hbt1, Hbf1, Hc1.
    repeat split; reflexivity.
Qed.


End Reauth.

(** ** Runs of the dispatcher and the router *)

Section DispatchRuns.

Import llm_adapters Examples.

Lemma with_bridge_sdk_resolves reply : sdk_resolves (with_bridge reply).
Proof.
  intros h env. exists None. cbn [process_answer with_bridge]. unfold bridge_process.
  rewrite last_snoc. reflexivity.
Qed.

Lemma rejected_chat_fresh_login_rejects chosen prompt :
  chat_rejected rejected_chat_fresh_login chosen prompt.
Proof.
  intros h env. exists 0, rejection.
  cbn [process_answer rejected_chat_fresh_login with_bridge]. unfold bridge_process.
  rewrite last_snoc. split; [reflexivity|]. split; vm_compute; reflexivity.
Qed.

Lemma rejected_chat_fresh_login_nul_free : logins_nul_free rejected_chat_fresh_login.
Proof.
  intros h env rc printed.
  cbn [process_answer rejected_chat_fresh_login with_bridge]. unfold bridge_process.
  rewrite last_snoc. intros [= <- <-]. vm_compute. reflexivity.
Qed.



Lemma keyed_first_witness :
  has_key cfg_keyed = true
  /\ candidates_for cfg_keyed None <> []
  /\ exists n r,
       (n <= length (candidates_for cfg_keyed None))%nat
       /\ (forall i m, (i < n)%nat -> candidates_for cfg_keyed None !! i = Some m ->
             fst (keyed_attempt cfg_keyed all_up "hi" m
                    (after world_with_token
                       (keyed_posts cfg_keyed "hi" (take i (candidates_for cfg_keyed None)))))
             = Ok (if Nat.eqb (S i) n then r else None))
       /\ match r with
          | Some content =>
              exists chosen,
                (1 <= n)%nat
                /\ candidates_for cfg_keyed None !! (n - 1)%nat = Some chosen
                /\ call_puter_with_model cfg_keyed all_up "hi" None world_with_token
                   = (Ok (Some content, Some chosen),
                      after world_with_token
                        (keyed_posts cfg_keyed "hi" (take n (candidates_for cfg_keyed None))))
          | None =>
              n = length (candidates_for cfg_keyed None)
              /\ call_puter_with_model cfg_keyed all_up "hi" None world_with_token
                 = bridge_loop cfg_keyed all_up "hi" (candidates_for cfg_keyed None)
                     (after world_with_token
                        (keyed_posts cfg_keyed "hi" (candidates_for cfg_keyed None)))
          end.
Proof.
  split; [reflexivity|].
  exact (keyed_calls_precede_bridge_calls cfg_keyed all_up "hi" None world_with_token eq_refl).
Defined.

(** C1 as stated fails: with the candidates [model-a] and [model-b], a keyed
    call that fails for [model-a] and succeeds for [model-b], and a bridge
    that would answer for [model-a], the dispatcher returns the keyed reply
    of [model-b] without any bridge call, where the dispatcher the claim
    describes returns the bridge reply of [model-a]. *)
Lemma keyed_failure_does_not_fall_through :
  has_key cfg_keyed = true
  /\ candidates_for cfg_keyed None = ["model-a"; "model-b"]
  /\ fst (keyed_attempt cfg_keyed all_up "hi" "model-a" world_with_token) = Ok None
  /\ call_puter_with_model cfg_keyed all_up "hi" None world_with_token
     = (Ok (Some "hello from b", Some "model-b"),
        after world_with_token
          [KeyedPost "sk-static" "model-a" "hi"; KeyedPost "sk-static" "model-b" "hi"])
  /\ fst (dispatch_per_candidate cfg_keyed all_up "hi" ["model-a"; "model-b"]
            world_with_token)
     = Ok (Some "hi from the bridge", Some "model-a")
  /\ fst (call_puter_with_model cfg_keyed all_up "hi" None world_with_token)
     <> fst (dispatch_per_candidate cfg_keyed all_up "hi" ["model-a"; "model-b"]
               world_with_token).
Proof. vm_compute. repeat split; congruence. Qed.

Lemma offline_nul_free : logins_nul_free offline.
Proof. intros h env rc printed. discriminate. Qed.



(** The invoker on a helper that prints two lines of log around its reply:
    the whole output is no object, the last line looks like one and does
    not parse, and the reply is the parse of the line before it. *)
Lemma bridge_parser_witness :
  parse_bridge_stdout noisy_reply = PDict [("ok", PBool true); ("content", PStr "hi")]
  /\ fst (_run_puter_node_bridge cfg_bridge (with_bridge (fun _ => noisy_reply))
            (chat_argv "claude-opus-4-6" "hi") true world_with_token)
     = Ok (PDict [("ok", PBool true); ("content", PStr "hi")])
  /\ fst (_run_puter_node_bridge cfg_bridge offline
            (chat_argv "claude-opus-4-6" "hi") true world_with_token) = Ok PNone.
Proof.
  destruct (bridge_parser_first_json_object cfg_bridge (with_bridge (fun _ => noisy_reply))
              noisy_reply (chat_argv "claude-opus-4-6" "hi") true world_with_token)
    as (Hparse & _ & ok & Hok & Hrun).
  destruct (bridge_parser_first_json_object cfg_bridge offline
              noisy_reply (chat_argv "claude-opus-4-6" "hi") true world_with_token)
    as (_ & _ & ok' & Hok' & Hrun').
  split; [rewrite Hparse; vm_compute; reflexivity|].
  split.
  - rewrite Hrun. vm_compute in Hok. injection Hok as <-. vm_compute. reflexivity.
  - rewrite Hrun'. vm_compute in Hok'. injection Hok' as <-. vm_compute. reflexivity.
Defined.

Lemma local_only_witness :
  default "1" (environ world_with_token !! "QTM_LOCAL_ONLY") = "1"
  /\ exists r evs,
       ask_router cfg_keyed all_up "hi" world_with_token = (Ok r, after world_with_token evs)
       /\ forallb is_ollama_post evs = true
       /\ (1 <= length evs <= 2)%nat
       /\ (snd r = "ollama" \/ r = (PNone, "none")).
Proof.
  split; [reflexivity|].
  exact (local_only_router_stays_local cfg_keyed all_up "hi" world_with_token eq_refl).
Defined.

(** The router with every tier up: local only by default, and the keyed tier
    first once [QTM_LOCAL_ONLY] is 0. *)
Example ask_router_runs :
  ask_router cfg_keyed all_up "hi" world_with_token
  = (Ok (PStr "local hi", "ollama"), after world_with_token [OllamaPost "llama3:latest" "hi"])
  /\ fst (ask_router cfg_keyed all_up "hi"
            (mkWorld {[ "QTM_LOCAL_ONLY" := "0" ]} bridge_installed []))
     = Ok (PStr "hello from b", "puter").
Proof. vm_compute. split; reflexivity. Qed.

(** The parser on the outputs of the specification's examples. *)
Example parse_noisy_output :
  parse_bridge_stdout
    (Some ("log line" +:+ LF
           +:+ object [member "ok" "true"; member "content" (quoted "hi")] +:+ LF))
  = PDict [("ok", PBool true); ("content", PStr "hi")]
  /\ parse_bridge_stdout (Some ("log line" +:+ LF +:+ "{not json}" +:+ LF)) = PNone
  /\ parse_bridge_stdout (Some EmptyString) = PNone
  /\ parse_bridge_stdout None = PNone
  /\ parse_bridge_stdout
       (Some (object [member "n" "1"] +:+ LF +:+ "warning" +:+ CR +:+ LF
              +:+ object [member "n" "2"] +:+ LF +:+ "bye"))
     = PDict [("n", PInt 2)].
Proof. vm_compute. repeat split; reflexivity. Qed.

End DispatchRuns.

(** ** Task classification *)

Section Classification.

Import route_prompt.

Lemma mem_char_chars_of c cs : mem_char c cs = true <-> In c (chars_of cs).
Proof.
  induction cs as [|c' cs IH]; cbn; [split; [discriminate | tauto]|].
  rewrite orb_true_iff, IH. split; intros [Hc|Hin]; auto.
  - left. symmetry. now apply Ascii.eqb_eq.
  - left. apply Ascii.eqb_eq. congruence.
Qed.

Lemma accepts_expand alt w : accepts alt w = true <-> In w (expand alt).
Proof.
  revert w. induction alt as [|a alt IH]; intros w.
  - destruct w; cbn; split; try tauto; try discriminate.
    + intros [H|[]]. discriminate.
  - destruct w as [|c w].
    + cbn. split; [discriminate|]. destruct a; cbn.
      * intros [x [Hx _]]%in_map_iff. discriminate.
      * intros [x [_ [y [Hy _]]%in_map_iff]]%in_flat_map. discriminate.
    + cbn [accepts]. rewrite andb_true_iff, IH. destruct a as [c'|cs]; cbn [atom_matches expand].
      * rewrite in_map_iff. split.
        -- intros [Hc Hin]. apply Ascii.eqb_eq in Hc. subst. eauto.
        -- intros [x [Hx Hin]]. injection Hx as -> ->. split; [apply Ascii.eqb_refl | assumption].
      * rewrite in_flat_map, mem_char_chars_of. split.
        -- intros [Hc Hin]. exists c. split; [assumption|]. apply in_map_iff. eauto.
        -- intros [x [Hx [y [Hy Hin]]%in_map_iff]]. injection Hy as -> ->. tauto.
Qed.

Lemma atom_matches_wordy a c :
  wordy_atom a = true -> atom_matches a c = true -> is_word_char c = true.
Proof.
  destruct a as [c'|cs]; cbn.
  - intros Hw Hc. apply Ascii.eqb_eq in Hc. now subst.
  - induction cs as [|c' cs IH]; cbn; [discriminate|].
    intros [Hc' Hcs]%andb_prop [Hc|Hin]%orb_prop; [|now apply IH].
    apply Ascii.eqb_eq in Hc. now subst.
Qed.

(** What [match_atoms] reads is a text the atoms accept. *)
Lemma match_atoms_spec alt prev s p rest :
  match_atoms alt prev s = Some (p, rest)
  <-> exists w, accepts alt w = true /\ s = w +:+ rest /\ p = last_char prev w.
Proof.
  revert prev s. induction alt as [|a alt IH]; intros prev s.
  - cbn. split.
    + intros [= <- <-]. exists EmptyString. auto.
    + intros (w & Hw & -> & ->). destruct w; [reflexivity | discriminate].
  - cbn [match_atoms]. destruct s as [|c s].
    + split; [discriminate|]. intros (w & Hw & Hs & _). destruct w; discriminate.
    + destruct (atom_matches a c) eqn:Hc.
      * rewrite IH. split.
        -- intros (w & Hw & -> & ->). exists (String c w). cbn. rewrite Hc, Hw. auto.
        -- intros (w & Hw & Hs & ->). destruct w as [|c' w]; [discriminate|].
           rewrite append_cons in Hs. injection Hs as <- ->.
           cbn in Hw. apply andb_prop in Hw as [_ Hw]. exists w. auto.
      * split; [discriminate|]. intros (w & Hw & Hs & _).
        destruct w as [|c' w]; [discriminate|].
        rewrite append_cons in Hs. injection Hs as <- ->.
        cbn in Hw. rewrite Hc in Hw. discriminate.
Qed.

Lemma accepts_wordy_head alt w rest :
  wordy alt = true -> accepts alt w = true ->
  is_word (head_char (w +:+ rest)) = true.
Proof.
  destruct alt as [|a alt]; [discriminate|]. cbn [wordy forallb].
  intros [Ha _]%andb_prop. destruct w as [|c w]; [discriminate|].
  cbn [accepts]. intros [Hc _]%andb_prop.
  rewrite append_cons. cbn. now apply (atom_matches_wordy a).
Qed.

Lemma accepts_wordy_last alt w prev :
  forallb wordy_atom alt = true -> accepts alt w = true ->
  is_word (last_char prev w) = (match w with EmptyString => is_word prev | _ => true end).
Proof.
  revert w prev. induction alt as [|a alt IH]; intros w prev.
  - destruct w; [reflexivity | discriminate].
  - cbn [forallb]. intros [Ha Halt]%andb_prop. destruct w as [|c w]; [discriminate|].
    cbn [accepts last_char]. intros [Hc Hw]%andb_prop.
    rewrite (IH w (Some c) Halt Hw). destruct w; [|reflexivity].
    cbn. now apply (atom_matches_wordy a).
Qed.

Lemma wordy_forallb alt : wordy alt = true -> forallb wordy_atom alt = true.
Proof. destruct alt; [discriminate | auto]. Qed.

Lemma accepts_wordy_nonempty alt w :
  wordy alt = true -> accepts alt w = true -> w <> EmptyString.
Proof. destruct alt; [discriminate|]. destruct w; [discriminate | congruence]. Qed.

(** [match_here] finds an accepted text at the start of [s], between two
    word boundaries. *)
Lemma match_here_spec alts prev s :
  forallb wordy alts = true ->
  match_here alts prev s = true
  <-> exists w post,
        In w (flat_map expand alts)
        /\ s = w +:+ post
        /\ is_word prev = false
        /\ is_word (head_char post) = false.
Proof.
  intros Hwordy. unfold match_here. rewrite andb_true_iff, existsb_exists. split.
  - intros [Hstart (alt & Hin & Hend)].
    destruct (match_atoms alt prev s) as [[p rest]|] eqn:Hm; [|discriminate].
    apply match_atoms_spec in Hm as (w & Hw & -> & ->).
    assert (wordy alt = true) as Halt
      by (rewrite forallb_forall in Hwordy; now apply Hwordy).
    exists w, rest. split; [|split; [reflexivity|]].
    { apply in_flat_map. exists alt. split; [assumption | now apply accepts_expand]. }
    unfold at_boundary in *.
    rewrite (accepts_wordy_head alt w rest Halt Hw) in Hstart.
    rewrite (accepts_wordy_last alt w prev (wordy_forallb _ Halt) Hw) in Hend.
    pose proof (accepts_wordy_nonempty alt w Halt Hw) as Hne.
    destruct w; [congruence|].
    destruct (is_word prev); [discriminate|].
    destruct (is_word (head_char rest)); [discriminate | auto].
  - intros (w & post & [alt [Hin Hw]]%in_flat_map & -> & Hprev & Hpost).
    apply accepts_expand in Hw.
    assert (wordy alt = true) as Halt
      by (rewrite forallb_forall in Hwordy; now apply Hwordy).
    unfold at_boundary.
    rewrite (accepts_wordy_head alt w post Halt Hw), Hprev. split; [reflexivity|].
    exists alt. split; [assumption|].
    assert (match_atoms alt prev (w +:+ post) = Some (last_char prev w, post)) as ->
      by (apply match_atoms_spec; eauto).
    rewrite (accepts_wordy_last alt w prev (wordy_forallb _ Halt) Hw), Hpost.
    pose proof (accepts_wordy_nonempty alt w Halt Hw) as Hne.
    destruct w; [congruence | reflexivity].
Qed.

Lemma search_from_spec alts prev s :
  forallb wordy alts = true ->
  search_from alts prev s = true
  <-> exists pre w post,
        In w (flat_map expand alts)
        /\ s = pre +:+ w +:+ post
        /\ is_word (last_char prev pre) = false
        /\ is_word (head_char post) = false.
Proof.
  intros Hwordy. revert prev. induction s as [|c s IH]; intros prev.
  - cbn [search_from]. rewrite orb_false_r, (match_here_spec _ _ _ Hwordy). split.
    + intros (w & post & Hin & Hs & Hp & Hq). exists EmptyString, w, post. auto.
    + intros (pre & w & post & Hin & Hs & Hp & Hq).
      destruct pre; [|discriminate]. exists w, post. auto.
  - cbn [search_from]. rewrite orb_true_iff, (match_here_spec _ _ _ Hwordy), IH. split.
    + intros [(w & post & Hin & Hs & Hp & Hq) | (pre & w & post & Hin & Hs & Hp & Hq)].
      * exists EmptyString, w, post. auto.
      * exists (String c pre), w, post. rewrite append_cons, Hs. auto.
    + intros (pre & w & post & Hin & Hs & Hp & Hq). destruct pre as [|c' pre].
      * left. exists w, post. auto.
      * right. rewrite append_cons in Hs. injection Hs as -> ->.
        exists pre, w, post. auto.
Qed.

(** A search for [\b(...)\b] succeeds exactly when one of the accepted words
    occurs as a whole word. *)
Lemma re_search_whole_word alts t :
  forallb wordy alts = true ->
  re_search alts t = true
  <-> exists w, In w (flat_map expand alts) /\ whole_word w t.
Proof.
  intros Hwordy. unfold re_search, whole_word.
  rewrite (search_from_spec _ _ _ Hwordy). split.
  - intros (pre & w & post & Hin & Hs & Hp & Hq). eauto 8.
  - intros (w & Hin & pre & post & Hs & Hp & Hq). eauto 8.
Qed.

Lemma lower_char_idem c : lower_char (lower_char c) = lower_char c.
Proof. destruct c as [[] [] [] [] [] [] [] []]; reflexivity. Qed.

Lemma lower_idem t : lower (lower t) = lower t.
Proof.
  induction t as [|c t IH]; [reflexivity|]. cbn. now rewrite lower_char_idem, IH.
Qed.

Lemma infer_class_cases task :
  (re_search coding_pattern (lower task) = true /\ _infer_task_class task = "coding")
  \/ (re_search coding_pattern (lower task) = false
      /\ re_search docs_pattern (lower task) = true
      /\ _infer_task_class task = "docs")
  \/ (re_search coding_pattern (lower task) = false
      /\ re_search docs_pattern (lower task) = false
      /\ re_search reasoning_pattern (lower task) = true
      /\ _infer_task_class task = "reasoning")
  \/ (re_search coding_pattern (lower task) = false
      /\ re_search docs_pattern (lower task) = false
      /\ re_search reasoning_pattern (lower task) = false
      /\ _infer_task_class task = "fast").
Proof.
  unfold _infer_task_class.
  destruct (re_search coding_pattern (lower task)); [now left|].
  destruct (re_search docs_pattern (lower task)); [right; now left|].
  destruct (re_search reasoning_pattern (lower task)); [right; right; now left|].
  right; right; right. auto.
Qed.

Lemma coding_search task :
  re_search coding_pattern (lower task) = true <-> mentions coding_words task.
Proof. apply (re_search_whole_word coding_pattern). reflexivity. Qed.

Lemma docs_search task :
  re_search docs_pattern (lower task) = true <-> mentions docs_words task.
Proof. apply (re_search_whole_word docs_pattern). reflexivity. Qed.

Lemma reasoning_search task :
  re_search reasoning_pattern (lower task) = true <-> mentions reasoning_words task.
Proof. apply (re_search_whole_word reasoning_pattern). reflexivity. Qed.

(** C9.  Candidate resolution without an explicit model is a total function
    of the task text.  The class is the first, in the order coding, docs,
    reasoning, whose keywords the lower-cased text holds as a whole word, and
    fast when none does; it only depends on the text in lower case; and the
    fixed candidate list of each class ends with the local model. *)
Theorem task_class_by_keyword_priority (task : string) :
  (_infer_task_class task = "coding" <-> mentions coding_words task)
  /\ (_infer_task_class task = "docs"
      <-> ~ mentions coding_words task /\ mentions docs_words task)
  /\ (_infer_task_class task = "reasoning"
      <-> ~ mentions coding_words task /\ ~ mentions docs_words task
          /\ mentions reasoning_words task)
  /\ (_infer_task_class task = "fast"
      <-> ~ mentions coding_words task /\ ~ mentions docs_words task
          /\ ~ mentions reasoning_words task)
  /\ _infer_task_class (lower task) = _infer_task_class task
  /\ _auto_candidates task
     = (if String.eqb (_infer_task_class task) "coding"
        then [DEFAULT_CODING; DEFAULT_REASONING; DEFAULT_FAST; DEFAULT_LOCAL]
        else if String.eqb (_infer_task_class task) "docs"
        then [DEFAULT_DOCS; DEFAULT_REASONING; DEFAULT_FAST; DEFAULT_LOCAL]
        else if String.eqb (_infer_task_class task) "reasoning"
        then [DEFAULT_REASONING; DEFAULT_FAST; DEFAULT_LOCAL]
        else [DEFAULT_FAST; DEFAULT_REASONING; DEFAULT_LOCAL])
  /\ last (_auto_candidates task) = Some DEFAULT_LOCAL.
Proof.
  assert (_infer_task_class (lower task) = _infer_task_class task) as Hlower
    by (unfold _infer_task_class; now rewrite lower_idem).
  assert (last (_auto_candidates task) = Some DEFAULT_LOCAL) as Hlast.
  { unfold _auto_candidates.
    destruct (infer_class_cases task)
      as [[_ ->]|[(_ & _ & ->)|[(_ & _ & _ & ->)|(_ & _ & _ & ->)]]]; reflexivity. }
  rewrite <- (coding_search task), <- (docs_search task), <- (reasoning_search task).
  split; [|split; [|split; [|split; [|split; [exact Hlower
                                            |split; [reflexivity | exact Hlast]]]]]];
    unfold _infer_task_class;
    destruct (re_search coding_pattern (lower task)),
             (re_search docs_pattern (lower task)),
             (re_search reasoning_pattern (lower task));
    split; intros; try discriminate; intuition congruence.
Qed.

(** The classes of a few tasks: the first class wins, and a keyword inside a
    longer word does not count. *)
Example task_class_examples :
  map _infer_task_class
      ["Please fix this Python bug"; "scan my docs"; "decode this"; "ANALYZE it";
       "hello"; "my_code here"; "plan the code"; "a deep doc"]
  = ["coding"; "docs"; "fast"; "reasoning"; "fast"; "fast"; "coding"; "docs"].
Proof. reflexivity. Qed.

End Classification.

Example sha256_abc :
  SHA256.hexdigest "abc"
  = "ba7816bf8f01cfea414140de5dae2223b00361a396177a9cb410ff61f20015ad".
Proof. vm_compute. reflexivity. Qed.

Example sha256_empty :
  SHA256.hexdigest ""
  = "e3b0c44298fc1c149afbf4c8996fb92427ae41e4649b934ca495991b7852b855".
Proof. vm_compute. reflexivity. Qed.


(** * Further properties of the adapters *)

Section MoreText.

Lemma rstrip_fixed_tail c s : rstrip (String c s) = String c s -> rstrip s = s.
Proof.
  cbn [rstrip]. destruct (rstrip s) as [|x r] eqn:E.
  - destruct (isspace c); [discriminate|]. now intros [= <-].
  - now intros [= <-].
Qed.

Lemma rstrip_lstrip_fixed s : rstrip s = s -> rstrip (lstrip s) = lstrip s.
Proof.
  induction s as [|c s IH]; [reflexivity|]. intros H. cbn [lstrip].
  destruct (isspace c); [|exact H].
  apply IH. eapply rstrip_fixed_tail, H.
Qed.

Lemma lstrip_idem s : lstrip (lstrip s) = lstrip s.
Proof.
  induction s as [|c s IH]; [reflexivity|]. cbn [lstrip].
  destruct (isspace c) eqn:E; [assumption|]. cbn [lstrip]. now rewrite E.
Qed.

Lemma strip_idem s : strip (strip s) = strip s.
Proof.
  unfold strip. rewrite (rstrip_lstrip_fixed (rstrip s)) by apply rstrip_idem.
  apply lstrip_idem.
Qed.

End MoreText.

Section Candidates.

Import llm_adapters.

Context (cfg : Config).

(** X1.  The candidate list of the dispatcher holds one or two models, never
    the same model twice and never a blank one; every model is stripped of
    the whitespace around it.  The selected model, when it is not blank,
    comes first, and the fallback model, when it is not blank, comes last.
    Every candidate is one of these two, except that the built-in model
    is the whole list when the selected model and the fallback model are
    both blank, the only case in which another model is a candidate. *)
Theorem candidates_are_distinct_and_stripped (model : option string) :
  let candidates := candidates_for cfg model in
  let selected := strip (or_str model (PUTER_DEFAULT_MODEL cfg)) in
  let fallback := strip (PUTER_FALLBACK_MODEL cfg) in
  (1 <= length candidates <= 2)%nat
  /\ NoDup candidates
  /\ Forall (fun m => m <> EmptyString /\ stripped m) candidates
  /\ (selected <> EmptyString -> head candidates = Some selected)
  /\ (fallback <> EmptyString -> last candidates = Some fallback)
  /\ (forall m, In m candidates ->
        m = selected \/ m = fallback
        \/ (selected = EmptyString /\ fallback = EmptyString /\ m = "claude-opus-4-6"))
  /\ (selected = EmptyString -> fallback = EmptyString ->
      candidates = ["claude-opus-4-6"]).
Proof.
  cbv zeta. unfold candidates_for.
  set (selected := strip (or_str model (PUTER_DEFAULT_MODEL cfg))).
  set (fallback := strip (PUTER_FALLBACK_MODEL cfg)).
  assert (stripped selected) as Hs by apply strip_idem.
  assert (stripped fallback) as Hf by apply strip_idem.
  assert (forall a b : string, a <> b -> NoDup [a; b]) as Hnd2.
  { intros a b Hab. apply NoDup_cons. split; [|apply NoDup_singleton].
    intros ->%list_elem_of_singleton. congruence. }
  destruct (nonempty selected) eqn:Es; destruct (nonempty fallback) eqn:Ef;
    cbn [existsb orb negb andb app length head];
    try (destruct (String.eqb fallback selected) eqn:E;
         [apply String.eqb_eq in E | apply String.eqb_neq in E]);
    cbn [existsb orb negb andb app length head last];
    rewrite ?nonempty_true, ?nonempty_false in *;
    (split; [cbn; lia|]);
    (split; [first [apply NoDup_singleton | apply Hnd2; congruence]|]);
    (split; [repeat constructor; first [assumption | discriminate | reflexivity]|]);
    (split; [congruence|]);
    (split; [congruence|]);
    (split; [|congruence]);
    intros m Hin; cbn [In] in Hin; intuition congruence.
Qed.

End Candidates.

Section RouterOutcomes.

Import llm_adapters.

Context {RT : PyRuntime} (cfg : Config) (O : Outside).

(** A computation that never raises, run from a world. *)
Lemma no_raise_run {A} (m : M A) w : no_raise m -> exists a w', m w = (Ok a, w').
Proof.
  intros H. destruct (H w) as [a Ha]. destruct (m w) as [r w'].
  cbn in Ha. subst r. now exists a, w'.
Qed.


End RouterOutcomes.

Section LocalTier.

Import llm_adapters.

Context {RT : PyRuntime} (cfg : Config) (O : Outside).

Lemma query_ollama_run (prompt : string) (model : option string) (w : World) :
  let chosen := or_str model (OLLAMA_MODEL cfg) in
  let first := http_answer O (history w ++ [OllamaPost chosen prompt]) in
  let retry :=
    match first with
    | HttpResponse st _ => (st =? 404) && negb (String.eqb chosen "llama3:latest")
    | HttpRaises _ => false
    end in
  let posts :=
    OllamaPost chosen prompt
    :: (if retry then [OllamaPost "llama3:latest" prompt] else []) in
  query_ollama cfg O prompt model w
  = (Ok (ollama_reply (if retry then http_answer O (history w ++ posts) else first)),
     after w posts).
Proof.
  cbv zeta. unfold query_ollama.
  set (chosen := or_str model (OLLAMA_MODEL cfg)).
  rewrite try_except_eq, bind_eq, requests_post_eq.
  destruct (http_answer O (history w ++ [OllamaPost chosen prompt])) as [e|st j] eqn:E1.
  { reflexivity. }
  cbv iota beta. rewrite bind_eq. cbn [fst snd].
  destruct ((st =? 404) && negb (String.eqb chosen "llama3:latest")) eqn:Er.
  - rewrite requests_post_eq, history_after, <- app_assoc. cbn [app].
    destruct (http_answer O (history w ++ [OllamaPost chosen prompt;
                                          OllamaPost "llama3:latest" prompt]))
      as [e|st2 j2].
    { now rewrite after_after. }
    cbv iota beta. rewrite after_after, bind_eq. cbn [fst snd app].
    unfold raise_for_status, ollama_reply.
    destruct ((400 <=? st2) && (st2 <? 600)).
    { rewrite raise_eq. now destruct j2 as [[| | | | | |d]|]. }
    rewrite ret_eq. cbv iota beta. rewrite bind_eq.
    destruct j2 as [[| | | | | |d]|]; reflexivity.
  - rewrite ret_eq. cbv iota beta. rewrite bind_eq. cbn [fst snd].
    unfold raise_for_status, ollama_reply.
    destruct ((400 <=? st) && (st <? 600)).
    { rewrite raise_eq. now destruct j as [[| | | | | |d]|]. }
    rewrite ret_eq. cbv iota beta. rewrite bind_eq.
    destruct j as [[| | | | | |d]|]; reflexivity.
Qed.


(** X8.  The local tier posts the prompt with the chosen model. It posts a second
    time, with the model [llama3:latest], exactly when the first answer has
    the status 404 and the chosen model is another one. It never raises and
    touches neither the environment nor the files; its result is the
    [response] field of the last answer, and [None] when that answer is an
    error, has an error status or is no JSON object. *)
Theorem query_ollama_retries_once_on_404 (prompt : string) (model : option string)
    (w : World) :
  let chosen := or_str model (OLLAMA_MODEL cfg) in
  let first := http_answer O (history w ++ [OllamaPost chosen prompt]) in
  let retry :=
    match first with
    | HttpResponse st _ => (st =? 404) && negb (String.eqb chosen "llama3:latest")
    | HttpRaises _ => false
    end in
  let posts :=
    OllamaPost chosen prompt
    :: (if retry then [OllamaPost "llama3:latest" prompt] else []) in
  query_ollama cfg O prompt model w
  = (Ok (ollama_reply (if retry then http_answer O (history w ++ posts) else first)),
     after w posts).
Proof. exact (query_ollama_run prompt model w). Qed.

End LocalTier.

(** ** What the remote tier leaves alone *)

Section PuterFrames.

Import llm_adapters.

Context {RT : PyRuntime} (cfg : Config) (O : Outside).

(** [R] is kept by the events of the class [allowed], among them those of
    the bridge path, and by an assignment of one of the token variables. *)
Variable R : World -> World -> Prop.
Variable allowed : Event -> Prop.
Hypothesis R_refl : forall w, R w w.
Hypothesis R_trans : forall w1 w2 w3, R w1 w2 -> R w2 w3 -> R w1 w3.
Hypothesis R_emit : forall e, allowed e -> preserves R (emit e).
Hypothesis allowed_side : forall e, is_bridge_side e = true -> allowed e.
Hypothesis R_token1 : forall v, preserves R (setenv "puterAuthToken" v).
Hypothesis R_token2 : forall v, preserves R (setenv "PUTER_AUTH_TOKEN" v).

Lemma frame__run_puter_node_bridge argv rt :
  preserves R (_run_puter_node_bridge cfg O argv rt).
Proof.
  apply (preserves__run_puter_node_bridge cfg O R allowed R_refl R_trans R_emit).
  - intros a e. now apply allowed_side.
  - now apply allowed_side.
Qed.

Lemma frame__set_puter_token v : preserves R (_set_puter_token v).
Proof. unfold _set_puter_token. preserves_step R_refl R_trans. Qed.

Lemma frame__bootstrap_puter_token force :
  preserves R (_bootstrap_puter_token cfg O force).
Proof.
  unfold _bootstrap_puter_token.
  pose proof frame__run_puter_node_bridge. pose proof frame__set_puter_token.
  pose proof (preserves__puter_token R R_refl).
  pose proof (preserves_path_exists R R_refl).
  pose proof (R_emit (CallBootstrap force) (allowed_side (CallBootstrap force) eq_refl)).
  preserves_step R_refl R_trans.
Qed.

Lemma frame__run_puter_bridge_with_reauth argv :
  preserves R (_run_puter_bridge_with_reauth cfg O argv).
Proof.
  unfold _run_puter_bridge_with_reauth.
  pose proof frame__run_puter_node_bridge. pose proof frame__bootstrap_puter_token.
  pose proof (preserves__puter_token R R_refl).
  pose proof (preserves_path_exists R R_refl).
  preserves_step R_refl R_trans.
Qed.

Lemma frame_bridge_loop prompt candidates :
  preserves R (bridge_loop cfg O prompt candidates).
Proof.
  induction candidates as [|c cs IH]; cbn [bridge_loop];
    pose proof frame__run_puter_bridge_with_reauth; preserves_step R_refl R_trans.
Qed.

Lemma frame_call_puter_with_model prompt model :
  (has_key cfg = true -> forall key chosen, allowed (KeyedPost key chosen prompt)) ->
  preserves R (call_puter_with_model cfg O prompt model).
Proof.
  intros Hkeyed. unfold call_puter_with_model.
  pose proof frame_bridge_loop.
  destruct (has_key cfg).
  - pose proof (preserves_keyed_loop cfg O R allowed R_refl R_trans R_emit prompt
                  (candidates_for cfg model) (Hkeyed eq_refl)).
    preserves_step R_refl R_trans.
  - preserves_step R_refl R_trans.
Qed.

End PuterFrames.

Section Isolation.

Import llm_adapters.

Context {RT : PyRuntime} (cfg : Config) (O : Outside).

Lemma grows_by_refl P w : grows_by P w w.
Proof. split; [reflexivity|]. exists []. now rewrite app_nil_r. Qed.

Lemma grows_by_trans P w1 w2 w3 : grows_by P w1 w2 -> grows_by P w2 w3 -> grows_by P w1 w3.
Proof.
  intros [Hf1 (e1 & H1 & Hq1)] [Hf2 (e2 & H2 & Hq2)]. split; [congruence|].
  exists (e1 ++ e2). rewrite H2, H1, app_assoc. split; [reflexivity|].
  now rewrite forallb_app, Hq1, Hq2.
Qed.

Lemma grows_by_emit P e : P e = true -> preserves (grows_by P) (emit e).
Proof. intros He w. split; [reflexivity|]. exists [e]. cbn. now rewrite He. Qed.

Lemma grows_by_setenv P k v : preserves (grows_by P) (setenv k v).
Proof.
  intros w. rewrite setenv_eq.
  destruct (putenv_fails k v); (split; [reflexivity|]); exists [];
    cbn; now rewrite app_nil_r.
Qed.

Lemma same_but_token_refl w : same_but_token w w.
Proof. now intros k _ _. Qed.

Lemma same_but_token_trans w1 w2 w3 :
  same_but_token w1 w2 -> same_but_token w2 w3 -> same_but_token w1 w3.
Proof. intros H1 H2 k Ha Hb. now rewrite (H2 k Ha Hb), (H1 k Ha Hb). Qed.

Lemma remote_frame_refl P w : remote_frame P w w.
Proof. split; [apply grows_by_refl | apply same_but_token_refl]. Qed.

Lemma remote_frame_trans P w1 w2 w3 :
  remote_frame P w1 w2 -> remote_frame P w2 w3 -> remote_frame P w1 w3.
Proof.
  intros [G1 S1] [G2 S2].
  split; [eapply grows_by_trans | eapply same_but_token_trans]; eassumption.
Qed.

Lemma remote_frame_emit P e : P e = true -> preserves (remote_frame P) (emit e).
Proof.
  intros He w. split; [now apply grows_by_emit | now intros k _ _].
Qed.

Lemma remote_frame_setenv P k v :
  k = "puterAuthToken" \/ k = "PUTER_AUTH_TOKEN" -> preserves (remote_frame P) (setenv k v).
Proof.
  intros Hk w. split; [apply grows_by_setenv|].
  intros k' Ha Hb. rewrite setenv_eq. destruct (putenv_fails k v); [reflexivity|].
  cbn. apply lookup_insert_ne. destruct Hk; congruence.
Qed.

Lemma dispatcher_frame (P : Event -> bool) prompt model :
  (forall e, is_bridge_side e = true -> P e = true) ->
  (has_key cfg = true -> forall e, is_keyed_post e = true -> P e = true) ->
  preserves (remote_frame P) (call_puter_with_model cfg O prompt model).
Proof.
  intros Hside Hkeyed.
  apply (frame_call_puter_with_model cfg O (remote_frame P) (fun e => P e = true)).
  - apply remote_frame_refl.
  - apply remote_frame_trans.
  - apply remote_frame_emit.
  - exact Hside.
  - intros v. apply remote_frame_setenv. now left.
  - intros v. apply remote_frame_setenv. now right.
  - intros Hk key chosen. now apply Hkeyed.
Qed.

Lemma dispatcher_stays_remote prompt model w :
  exists r w' evs,
    call_puter_with_model cfg O prompt model w = (r, w')
    /\ history w' = history w ++ evs
    /\ forallb is_puter_side evs = true.
Proof.
  destruct (call_puter_with_model cfg O prompt model w) as [r w'] eqn:Hrun.
  pose proof (dispatcher_frame is_puter_side prompt model) as Hall.
  specialize (Hall ltac:(intros e He; unfold is_puter_side; rewrite He; apply orb_true_r)
                   ltac:(intros _ e He; unfold is_puter_side; now rewrite He) w).
  rewrite Hrun in Hall. destruct Hall as [[_ (evs & Hhist & Hevs)] _].
  now exists r, w', evs.
Qed.


End Isolation.

(** ** The SDK check and the bridge invoker *)

Section BridgeRuns.

Import llm_adapters.

Context {RT : PyRuntime} (cfg : Config) (O : Outside).

Lemma sdk_resolvable_eq w :
  sdk_resolvable O w
  = (Ok (check_passed (process_answer O (history w ++ [Spawn sdk_check_argv (environ w)]))),
     after w [Spawn sdk_check_argv (environ w)]).
Proof.
  unfold sdk_resolvable.
  rewrite try_except_eq, bind_eq, get_environ_eq. cbv beta iota.
  rewrite bind_eq, (subprocess_run_eq O).
  destruct (process_answer O _) as [e|rc out]; reflexivity.
Qed.

Lemma ensure_sdk_run (w : World) :
  let env := environ w in
  let check := Spawn sdk_check_argv env in
  let install := Spawn npm_install_argv env in
  exists ok evs,
    _ensure_puter_sdk cfg O w = (Ok ok, after w evs)
    /\ (evs = [] \/ evs = [check] \/ evs = [check; install]
        \/ evs = [check; install; check])
    /\ (files w !! PUTER_NODE_BRIDGE = None -> ok = false /\ evs = [])
    /\ (PUTER_AUTO_INSTALL_SDK cfg = false -> evs = [] \/ evs = [check])
    /\ (check_passed (process_answer O (history w ++ [check])) = true ->
        is_Some (files w !! PUTER_NODE_BRIDGE) -> ok = true /\ evs = [check])
    /\ (ok = true ->
        exists before, evs = before ++ [check]
          /\ check_passed (process_answer O (history w ++ evs)) = true).
Proof.
  cbv zeta. unfold _ensure_puter_sdk.
  rewrite bind_eq, path_exists_eq. cbv beta iota.
  destruct (files w !! PUTER_NODE_BRIDGE) as [f|] eqn:Ef.
  2:{ rewrite bool_decide_eq_false_2 by (intros [? ?]; discriminate). cbn [negb].
      exists false, []. rewrite after_nil, ret_eq.
      split; [reflexivity|]. split; [auto|]. split; [auto|]. split; [auto|].
      split; [intros _ [? ?]; discriminate | discriminate]. }
  rewrite bool_decide_eq_true_2 by (now eexists). cbn [negb].
  rewrite bind_eq, sdk_resolvable_eq. cbv beta iota.
  destruct (check_passed (process_answer O (history w ++ [Spawn sdk_check_argv (environ w)])))
    eqn:E1.
  { exists true, [Spawn sdk_check_argv (environ w)]. rewrite ret_eq.
    split; [reflexivity|]. split; [auto|]. split; [discriminate|].
    split; [auto|]. split; [auto|]. intros _. exists []. now split. }
  destruct (PUTER_AUTO_INSTALL_SDK cfg) eqn:Ea; cbn [negb].
  2:{ exists false, [Spawn sdk_check_argv (environ w)]. rewrite ret_eq.
      split; [reflexivity|]. split; [auto|]. split; [discriminate|].
      split; [auto|]. split; [discriminate | discriminate]. }
  rewrite bind_eq, try_except_eq, bind_eq, get_environ_eq. cbv beta iota.
  rewrite bind_eq, (subprocess_run_eq O), history_after, environ_after, after_after.
  cbn [app].
  destruct (process_answer O ((history w ++ [Spawn sdk_check_argv (environ w)])
                              ++ [Spawn npm_install_argv (environ w)]))
    as [e|rc out]; cbv beta iota.
  { rewrite ret_eq. cbn [negb].
    exists false, [Spawn sdk_check_argv (environ w); Spawn npm_install_argv (environ w)].
    rewrite ret_eq. split; [reflexivity|]. split; [auto|]. split; [discriminate|].
    split; [discriminate|]. split; [discriminate | discriminate]. }
  rewrite ret_eq. cbn [negb]. rewrite sdk_resolvable_eq, history_after, environ_after,
    after_after, <- app_assoc. cbn [app].
  eexists.
  exists [Spawn sdk_check_argv (environ w); Spawn npm_install_argv (environ w);
          Spawn sdk_check_argv (environ w)].
  split; [reflexivity|]. split; [auto|]. split; [discriminate|].
  split; [discriminate|]. split; [discriminate|].
  intros Hok.
  exists [Spawn sdk_check_argv (environ w); Spawn npm_install_argv (environ w)].
  split; [reflexivity | exact Hok].
Qed.



End BridgeRuns.

Section BridgeCalls.

Import llm_adapters.

Context {RT : PyRuntime} (cfg : Config) (O : Outside).

Lemma or_str_nonempty a b : or_str a b <> EmptyString -> b = EmptyString ->
  exists s, a = Some s /\ s <> EmptyString /\ or_str a b = s.
Proof.
  intros H ->. destruct a as [s|]; cbn [or_str] in H |- *; [|congruence].
  destruct (String.eqb_spec s EmptyString) as [E|Hs]; [congruence|].
  now exists s.
Qed.

Lemma remove_ws_nonempty s : remove_ws s <> EmptyString -> s <> EmptyString.
Proof. intros H E. apply H. now rewrite E. Qed.

(** The environment prepared for the helper gives the token of the parent. *)
Lemma bridge_env_token env :
  cached_token (bridge_env (cached_token env) env) = cached_token env.
Proof.
  unfold bridge_env. destruct (nonempty (cached_token env)) eqn:Ht; [|reflexivity].
  apply nonempty_true in Ht.
  assert (forall e, cached_token e
                    = remove_ws (or_str (e !! "puterAuthToken")
                                        (or_str (e !! "PUTER_AUTH_TOKEN") EmptyString)))
    as Hc by reflexivity.
  destruct (env !! "puterAuthToken") as [s|] eqn:Ea;
    destruct (env !! "PUTER_AUTH_TOKEN") as [s'|] eqn:Eb;
    unfold setdefault; rewrite ?Ea, ?Eb, ?lookup_insert_ne by discriminate;
    rewrite ?Ea, ?Eb.
  - reflexivity.
  - rewrite (Hc (<[_ := _]> env)), lookup_insert_ne, Ea, lookup_insert_eq by discriminate.
    rewrite (Hc env), Ea, Eb in Ht |- *. cbn [or_str] in Ht |- *.
    destruct (String.eqb s EmptyString); [now cbn in Ht | reflexivity].
  - rewrite (Hc (<[_ := _]> env)), lookup_insert_eq, lookup_insert_ne, Eb by discriminate.
    cbn [or_str]. rewrite (proj2 (String.eqb_neq _ _) Ht). apply remove_ws_idem.
  - rewrite (Hc env), Ea, Eb in Ht. now cbn in Ht.
Qed.

Lemma bridge_env_subseteq token env : env ⊆ bridge_env token env.
Proof.
  unfold bridge_env, setdefault. destruct (nonempty token); [|reflexivity].
  destruct (env !! "puterAuthToken") eqn:Ea.
  - destruct (env !! "PUTER_AUTH_TOKEN") eqn:Eb; [reflexivity|].
    now apply insert_subseteq.
  - destruct (<["puterAuthToken" := token]> env !! "PUTER_AUTH_TOKEN") eqn:Eb.
    + now apply insert_subseteq.
    + etransitivity; [apply (insert_subseteq env "puterAuthToken" token Ea)|].
      now apply insert_subseteq.
Qed.

(** One call of the bridge invoker, written out: the record of the call,
    then the processes of the SDK check, then the helper. *)
Lemma bridge_call_run argv rt w :
  let token := cached_token (environ w) in
  let helper := Spawn ("node" :: PUTER_NODE_BRIDGE :: argv) (bridge_env token (environ w)) in
  exists p spawns,
    _run_puter_node_bridge cfg O argv rt w = (Ok p, after w (CallBridge argv rt :: spawns))
    /\ forallb is_spawn spawns = true
    /\ ((rt = true /\ token = EmptyString) \/ files w !! PUTER_NODE_BRIDGE = None ->
        p = PNone /\ spawns = [])
    /\ (p <> PNone -> exists checks, spawns = checks ++ [helper])
    /\ (forall e, In e spawns -> e = helper \/ exists a, e = Spawn a (environ w)).
Proof.
  cbv zeta. rewrite _run_puter_node_bridge_unfold. cbv zeta.
  destruct (rt && negb (nonempty (cached_token (environ w)))) eqn:Eg.
  { exists PNone, []. repeat split; try reflexivity; try congruence. intros e []. }
  destruct (ensure_sdk_run cfg O (after w [CallBridge argv rt]))
    as (ok & evs & -> & Hshape & Hmissing & _).
  rewrite environ_after, history_after, files_after in *.
  assert (forallb is_spawn evs = true) as Hsp
    by (destruct Hshape as [-> | [-> | [-> | ->]]]; reflexivity).
  assert (forall e, In e evs -> exists a, e = Spawn a (environ w)) as Hin.
  { intros e He.
    destruct Hshape as [-> | [-> | [-> | ->]]]; cbn in He;
      repeat (destruct He as [<-|He]; [eexists; reflexivity|]); destruct He. }
  assert (~ (rt = true /\ cached_token (environ w) = EmptyString)) as Hguard.
  { intros [-> Ht]. rewrite Ht in Eg. discriminate. }
  destruct ok.
  - rewrite !after_after, !history_after, !environ_after. cbn [app].
    assert (files w !! PUTER_NODE_BRIDGE <> None) as Hb.
    { intros Hb. destruct (Hmissing Hb); discriminate. }
    set (helper := Spawn _ _).
    assert (forallb is_spawn (evs ++ [helper]) = true) as Hsp'
      by (rewrite forallb_app, Hsp; reflexivity).
    assert (forall e, In e (evs ++ [helper]) ->
                      e = helper \/ exists a, e = Spawn a (environ w)) as Hin'.
    { intros e [He|[<-|[]]]%in_app_or; [right; now apply Hin | now left]. }
    destruct (process_answer O _) as [e|rc out].
    + exists PNone, (evs ++ [helper]). split; [reflexivity|]. split; [exact Hsp'|].
      split; [intros [?|?]; [tauto | congruence]|]. split; [congruence | exact Hin'].
    + exists (parse_bridge_stdout out), (evs ++ [helper]).
      split; [reflexivity|]. split; [exact Hsp'|].
      split; [intros [?|?]; [tauto | congruence]|].
      split; [intros _; now exists evs | exact Hin'].
  - rewrite after_after. cbn [app]. exists PNone, evs.
    split; [reflexivity|]. split; [exact Hsp|].
    split; [intros [?|Hb]; [tauto | now destruct (Hmissing Hb)]|].
    split; [congruence|]. intros e He. right. now apply Hin.
Qed.

(** X5.  The bridge invoker records its call and then only spawns processes; it
    keeps the environment and the files. It gives [None] without spawning
    anything when a token is required and none is cached, and when the bridge
    script is missing. A reply other than [None] comes from the helper, run
    last, in an environment that holds every variable of the parent and
    yields the very token the parent has cached. *)
Theorem bridge_helper_sees_the_cached_token (argv : list string) (rt : bool) (w : World) :
  let token := cached_token (environ w) in
  let child := bridge_env token (environ w) in
  let helper := Spawn ("node" :: PUTER_NODE_BRIDGE :: argv) child in
  cached_token child = token
  /\ environ w ⊆ child
  /\ exists p spawns,
       _run_puter_node_bridge cfg O argv rt w
       = (Ok p, after w (CallBridge argv rt :: spawns))
       /\ forallb is_spawn spawns = true
       /\ ((rt = true /\ token = EmptyString) \/ files w !! PUTER_NODE_BRIDGE = None ->
           p = PNone /\ spawns = [])
       /\ (p <> PNone -> exists checks, spawns = checks ++ [helper])
       /\ (forall e, In e spawns -> e = helper \/ exists a, e = Spawn a (environ w)).
Proof.
  cbv zeta. split; [apply bridge_env_token|]. split; [apply bridge_env_subseteq|].
  apply bridge_call_run.
Qed.

(** X3.  A reply of the bridge that carries no authentication-failure signature
    is returned as it is: with a token cached, the bridge path makes the one
    bridge call and nothing else, so it calls no bootstrap, forced or not. *)
Theorem healthy_reply_needs_no_login (argv : list string) (w w1 : World) (p : pyval) :
  is_Some (files w !! PUTER_NODE_BRIDGE) ->
  cached_token (environ w) <> EmptyString ->
  _run_puter_node_bridge cfg O argv true w = (Ok p, w1) ->
  _is_bridge_auth_failure p = false ->
  _run_puter_bridge_with_reauth cfg O argv w = (Ok p, w1)
  /\ exists spawns,
       w1 = after w (CallBridge argv true :: spawns)
       /\ forallb is_spawn spawns = true
       /\ count_events is_call_of_bootstrap (CallBridge argv true :: spawns) = 0%nat.
Proof.
  intros Hb Htok Hrun Hok.
  destruct (bridge_call_run argv true w) as (p' & spawns & Hrun' & Hsp & _).
  rewrite Hrun in Hrun'. injection Hrun' as -> ->.
  split.
  - unfold _run_puter_bridge_with_reauth.
    rewrite bind_eq, path_exists_eq, (bool_decide_eq_true_2 _ Hb). cbv beta iota.
    cbn [negb]. rewrite bind_eq, _puter_token_spec. cbv beta iota.
    rewrite (proj2 (nonempty_true _) Htok). cbn [negb].
    rewrite bind_eq, ret_eq. cbv beta iota.
    rewrite bind_eq, Hrun. cbv beta iota.
    rewrite bind_eq, _puter_token_spec, environ_after. cbv beta iota.
    rewrite (proj2 (nonempty_true _) Htok). cbn [negb]. rewrite andb_false_r.
    now rewrite Hok.
  - exists spawns. split; [reflexivity|]. split; [exact Hsp|].
    unfold count_events. cbn [List.filter is_call_of_bootstrap].
    assert (List.filter is_call_of_bootstrap spawns = []) as ->; [|reflexivity].
    clear -Hsp. induction spawns as [|e es IH]; [reflexivity|].
    cbn in Hsp. apply andb_prop in Hsp as [He Hes]. cbn [List.filter].
    destruct e; try discriminate. cbn. now apply IH.
Qed.

(** X4.  A reply is taken for an authentication failure only when it is a
    JSON object with an [error] or a [detail] that is not empty: [None], a
    list, a text and an object without both, a successful reply for
    instance, are never taken for one. *)
Theorem auth_failure_needs_error_or_detail (p : pyval) :
  _is_bridge_auth_failure p = true ->
  exists d, p = PDict d
            /\ (truthy (dict_get d "error") = true \/ truthy (dict_get d "detail") = true).
Proof.
  destruct p as [| | | | | |d]; try discriminate.
  intros H. exists d. split; [reflexivity|].
  destruct (truthy (dict_get d "error")) eqn:Ee; [now left|].
  destruct (truthy (dict_get d "detail")) eqn:Ed; [now right|].
  unfold _is_bridge_auth_failure, _bridge_error, _bridge_detail, str_or_empty in H.
  rewrite Ee, Ed in H. discriminate.
Qed.


End BridgeCalls.

(** * The env-file loader *)

Section Loader.

Import llm_adapters_more cognitive_system.

Lemma load_entries_keeps lines : forall env k v,
  env !! k = Some v -> load_entries lines env !! k = Some v.
Proof.
  induction lines as [|line rest IH]; intros env k v Hk; [exact Hk|].
  cbn [load_entries]. destruct (env_entry line) as [[key val]|]; [|now apply IH].
  destruct (env !! key) eqn:Ekey; [now apply IH|].
  destruct (putenv_fails key val); [exact Hk|].
  apply IH. rewrite lookup_insert_ne; [exact Hk | congruence].
Qed.

Lemma load_entries_subseteq lines env : env ⊆ load_entries lines env.
Proof.
  apply map_subseteq_spec. intros k v. apply load_entries_keeps.
Qed.

Lemma load_entries_provenance lines : forall env k v,
  load_entries lines env !! k = Some v ->
  env !! k = Some v \/ exists line, In line lines /\ env_entry line = Some (k, v).
Proof.
  induction lines as [|line rest IH]; intros env k v Hk; [now left|].
  cbn [load_entries] in Hk.
  assert (forall e, load_entries rest e !! k = Some v -> e !! k = Some v \/
            exists l, In l (line :: rest) /\ env_entry l = Some (k, v)) as IH'.
  { intros e He. destruct (IH e k v He) as [?|(l & Hl & El)]; [now left|].
    right. exists l. split; [now right | exact El]. }
  destruct (env_entry line) as [[key val]|] eqn:E; [|now apply IH'].
  destruct (env !! key) eqn:Ekey; [now apply IH'|].
  destruct (putenv_fails key val); [now left|].
  destruct (IH' _ Hk) as [Hins|?]; [|now right].
  destruct (decide (key = k)) as [->|Hne].
  - rewrite lookup_insert_eq in Hins. injection Hins as ->.
    right. exists line. split; [now left | exact E].
  - rewrite lookup_insert_ne in Hins by exact Hne. now left.
Qed.

Lemma load_entries_idem lines : forall env,
  load_entries lines (load_entries lines env) = load_entries lines env.
Proof.
  induction lines as [|line rest IH]; intros env; [reflexivity|].
  cbn [load_entries]. destruct (env_entry line) as [[key val]|] eqn:E; [|apply IH].
  destruct (env !! key) as [old|] eqn:Ekey.
  - rewrite (load_entries_keeps rest env key old Ekey). apply IH.
  - destruct (putenv_fails key val) eqn:Ef.
    + now rewrite Ekey.
    + rewrite (load_entries_keeps rest _ key val (lookup_insert_eq _ _ _)). apply IH.
Qed.

Lemma load_entries_first_wins lines : forall env k,
  loadable lines -> env !! k = None ->
  load_entries lines env !! k = first_value k lines.
Proof.
  induction lines as [|line rest IH]; intros env k Hclean Hk; [exact Hk|].
  assert (loadable rest) as Hrest.
  { intros l key val Hl. apply Hclean. now right. }
  cbn [load_entries first_value].
  destruct (env_entry line) as [[key val]|] eqn:E; [|now apply IH].
  rewrite (Hclean line key val (or_introl eq_refl) E).
  destruct (String.eqb_spec key k) as [->|Hne].
  - rewrite Hk. apply load_entries_keeps, lookup_insert_eq.
  - destruct (env !! key); [now apply IH|].
    apply IH; [exact Hrest|]. now rewrite lookup_insert_ne.
Qed.

(** X11.  Loading an env file never raises and touches neither the files nor the
    history. It never overrides: every variable the environment holds keeps
    its value. Every variable it adds is the assignment of a line of the
    file; a file that is missing or cannot be decoded adds nothing. *)
Theorem env_file_never_overrides (path : string) (w : World) :
  let lines := read_lines (files w !! path) in
  let w' := snd (_load_env_fallback path w) in
  fst (_load_env_fallback path w) = Ok tt
  /\ files w' = files w
  /\ history w' = history w
  /\ environ w ⊆ environ w'
  /\ (forall k v, environ w' !! k = Some v ->
        environ w !! k = Some v
        \/ exists line, In line lines /\ env_entry line = Some (k, v))
  /\ (lines = [] -> w' = w).
Proof.
  cbv zeta. unfold _load_env_fallback. cbn [fst snd environ files history].
  split; [reflexivity|]. split; [reflexivity|]. split; [reflexivity|].
  split; [apply load_entries_subseteq|].
  split; [intros k v; apply load_entries_provenance|].
  intros ->. now destruct w.
Qed.

(** X12.  Loading the same env file a second time changes nothing. *)
Theorem env_file_load_is_idempotent (path : string) (w : World) :
  let w' := snd (_load_env_fallback path w) in
  _load_env_fallback path w' = (Ok tt, w').
Proof.
  cbv zeta. unfold _load_env_fallback. cbn [fst snd environ files history].
  now rewrite load_entries_idem.
Qed.

(** X13.  In a file whose assignments hold no NUL character, the first assignment
    of a variable wins: a variable the environment does not hold gets the
    value of its first assignment in the file, and stays unset when the file
    does not assign it. At import the project file is loaded before the one
    of the [llm] directory, so what the project file assigns is not changed
    by the second file. *)
Theorem env_file_first_assignment_wins (path key : string) (w : World) :
  let lines := read_lines (files w !! path) in
  loadable lines ->
  environ w !! key = None ->
  environ (snd (_load_env_fallback path w)) !! key = first_value key lines
  /\ (path = ".env" -> forall v, first_value key lines = Some v ->
      environ (snd (load_env_files w)) !! key = Some v).
Proof.
  cbv zeta. intros Hclean Hk. unfold load_env_files, _load_env_fallback.
  cbn [fst snd environ files history bind].
  split; [now apply load_entries_first_wins|].
  intros -> v Hv. cbn [snd environ files].
  apply load_entries_keeps. rewrite <- Hv. now apply load_entries_first_wins.
Qed.

End Loader.

(** * The chat helper *)

Section ChatHelper.

Import llm_adapters llm_adapters_more.

Context {RT : PyRuntime} (cfg : Config) (O : Outside).

(** The two passes over the messages, as one filter. *)
Lemma spoken_texts ms :
  match message_contents ms with
  | Some cs => texts_of cs
  | None => None
  end
  = if forallb readable_message ms then Some (spoken ms) else None.
Proof.
  induction ms as [|m ms IH]; [reflexivity|].
  destruct m as [| | | | | |d]; try reflexivity.
  cbn [message_contents forallb readable_message spoken flat_map].
  fold (spoken ms).
  destruct (message_contents ms) as [cs|].
  - destruct (speaks (dict_get d "role")).
    + destruct (dict_get_or d "content" (PStr EmptyString)) as [| | | |s| |];
        try reflexivity.
      cbn [texts_of andb app]. rewrite IH.
      now destruct (forallb readable_message ms).
    + cbn [andb app]. exact IH.
  - destruct (forallb readable_message ms); [discriminate|].
    now rewrite andb_false_r.
Qed.

Lemma chat_prompt_of_list ms :
  chat_prompt (PList ms)
  = if forallb readable_message ms then Some (strip (join LF (spoken ms))) else None.
Proof.
  unfold chat_prompt.
  assert ((if truthy (PList ms) then PList ms else PList []) = PList ms) as ->
    by now destruct ms.
  pose proof (spoken_texts ms) as H.
  destruct (message_contents ms) as [cs|].
  - rewrite H. now destruct (forallb readable_message ms).
  - now destruct (forallb readable_message ms).
Qed.

(** X10.  [chat_ollama] never raises and only ever posts to the local
    inference server, at most twice, keeping the environment and the files.
    Its prompt is made of the contents of the user and system messages, in
    order, joined by line feeds and stripped.  When that prompt is not empty
    the helper does exactly what [query_ollama] does with it, so it posts
    the prompt and returns the reply of the local tier; when the prompt is
    empty, or the value is no list, or an item is no JSON object, or the
    content of a user or system message is no text, it returns [None]
    without any post. *)
Theorem chat_ollama_posts_only_with_a_prompt (messages : pyval) (model : option string)
    (w : World) :
  let run := chat_ollama cfg O messages model w in
  (forall ms, messages = PList ms ->
     if forallb readable_message ms
     then let prompt := strip (join LF (spoken ms)) in
          if nonempty prompt
          then run = query_ollama cfg O prompt model w
               /\ exists more,
                    history (snd run)
                    = history w ++ OllamaPost (or_str model (OLLAMA_MODEL cfg)) prompt :: more
          else run = (Ok PNone, w)
     else run = (Ok PNone, w))
  /\ ((forall ms, messages <> PList ms) -> run = (Ok PNone, w))
  /\ exists v evs,
       run = (Ok v, after w evs)
       /\ forallb is_ollama_post evs = true
       /\ (length evs <= 2)%nat.
Proof.
  cbv zeta. split; [|split].
  - intros ms ->. unfold chat_ollama. rewrite chat_prompt_of_list.
    destruct (forallb readable_message ms); [|reflexivity].
    destruct (nonempty (strip (join LF (spoken ms)))); cbn [negb]; [|reflexivity].
    split; [reflexivity|].
    pose proof (query_ollama_run cfg O (strip (join LF (spoken ms))) model w) as Hrun.
    cbv zeta in Hrun. rewrite Hrun. cbn [snd].
    rewrite history_after. now eexists.
  - intros Hno. unfold chat_ollama, chat_prompt.
    destruct messages as [| b | z | f t | s | l | d];
      try reflexivity;
      first [ now destruct b | now destruct z | now destruct f | now destruct s
            | now destruct (Hno l) | now destruct d ].
  - unfold chat_ollama.
    destruct (chat_prompt messages) as [prompt|].
    2:{ exists PNone, []. rewrite after_nil. repeat split. cbn. lia. }
    destruct (negb (nonempty prompt)).
    { exists PNone, []. rewrite after_nil. repeat split. cbn. lia. }
    destruct (query_ollama_posts cfg O prompt model w) as (v & evs & Hrun & Hposts & Hlen).
    exists v, evs. split; [exact Hrun|]. split; [exact Hposts | lia].
Qed.

End ChatHelper.

(** * The HTTP tool backend *)

Section ServerText.

Import llm_adapters qtmos_server.

Context {RT : PyRuntime}.

Lemma lstrip_empty_only_space s : lstrip s = EmptyString -> only_space s = true.
Proof.
  unfold only_space. induction s as [|c s IH]; [reflexivity|]. cbn.
  destruct (isspace c); [exact IH | discriminate].
Qed.

Lemma strip_empty_only_space s : strip s = EmptyString -> only_space s = true.
Proof.
  unfold strip. intros H%lstrip_empty_only_space.
  apply rstrip_only_space. apply rstrip_only_space in H.
  now rewrite rstrip_idem in H.
Qed.

Lemma strip_nonempty_of_remove_ws s : remove_ws s <> EmptyString -> strip s <> EmptyString.
Proof.
  intros H E. apply H, remove_ws_only_space, strip_empty_only_space, E.
Qed.

(** X26.  Whenever the adapters read a token from the environment, the health
    endpoint reports a token as present. *)
Theorem cached_token_is_reported_present (env : gmap string string) :
  cached_token env <> EmptyString -> _token_present env = true.
Proof.
  unfold cached_token, _token_present. intros H.
  apply strip_nonempty_of_remove_ws in H.
  destruct (env !! "puterAuthToken") as [a|] eqn:Ea; cbn [or_str] in H |- *.
  - destruct (String.eqb a EmptyString) eqn:E.
    + destruct (env !! "PUTER_AUTH_TOKEN") as [b|]; cbn [or_str] in H |- *.
      * destruct (String.eqb b EmptyString); [now cbn in H|].
        apply nonempty_true in H. rewrite H. apply orb_true_iff. left. apply orb_true_r.
      * now cbn in H.
    + apply nonempty_true in H. rewrite H. apply orb_true_r.
  - destruct (env !! "PUTER_AUTH_TOKEN") as [b|]; cbn [or_str] in H |- *.
    + destruct (String.eqb b EmptyString); [now cbn in H|].
      apply nonempty_true in H. rewrite H. apply orb_true_iff. left. apply orb_true_r.
    + now cbn in H.
Qed.

Lemma nonblank_text_spec v t :
  nonblank_text v = Some t -> t <> EmptyString /\ stripped t.
Proof.
  destruct v as [| | | | c | |]; try discriminate. cbn.
  destruct (nonempty (strip c)) eqn:E; [|discriminate].
  intros [= <-]. split; [now apply nonempty_true | apply strip_idem].
Qed.

Lemma or_else_spec (P : string -> Prop) a b t :
  (forall x, a = Some x -> P x) -> (forall x, b = Some x -> P x) ->
  or_else a b = Some t -> P t.
Proof. destruct a; cbn; intros Ha Hb E; [now apply Ha | now apply Hb]. Qed.

Lemma wrapped_text_spec payload t :
  wrapped_text payload = Some t -> t <> EmptyString /\ stripped t.
Proof.
  unfold wrapped_text.
  apply (or_else_spec (fun t => t <> EmptyString /\ stripped t)).
  { intros x. destruct (dict_get payload "message"); try discriminate.
    apply nonblank_text_spec. }
  intros x. apply (or_else_spec (fun t => t <> EmptyString /\ stripped t)).
  { apply nonblank_text_spec. }
  intros y. destruct (dict_get payload "choices") as [| | | | |[|[| | | | | |c0] ?]|];
    try discriminate.
  destruct (truthy (PDict c0)); [|discriminate].
  apply (or_else_spec (fun t => t <> EmptyString /\ stripped t)).
  - intros z. destruct (dict_get c0 "message") as [| | | | | |c0m]; try discriminate.
    destruct (truthy (PDict c0m)); [|discriminate]. apply nonblank_text_spec.
  - apply nonblank_text_spec.
Qed.

(** X24.  A reply that is a text is normalised as follows. A blank reply gives
    the empty text. A reply whose stripped text does not both start with an
    opening brace and end with a closing one, or is not the text of a JSON
    object, or is the text of a JSON object that wraps no text, is returned
    byte for byte. A reply whose stripped text is the text of a JSON object
    that wraps a text is replaced by that text, stripped and not empty: the
    content of its [message] when that is a text that is not blank, else
    its [content] when that is one. *)
Theorem normalized_reply_is_the_reply_or_its_wrapped_text (r : string) :
  let out := _normalize_model_reply (PStr r) in
  let text := strip r in
  let braced := startswith "{" text && endswith "}" text in
  (text = EmptyString -> out = EmptyString)
  /\ (text <> EmptyString -> braced = false -> out = r)
  /\ (text <> EmptyString -> (forall payload, json_loads text <> Some (PDict payload)) ->
      out = r)
  /\ (forall payload,
        text <> EmptyString -> braced = true -> json_loads text = Some (PDict payload) ->
        (wrapped_text payload = None -> out = r)
        /\ (forall t, wrapped_text payload = Some t ->
                      out = t /\ t <> EmptyString /\ stripped t)
        /\ (forall msg c,
              dict_get payload "message" = PDict msg -> dict_get msg "content" = PStr c ->
              strip c <> EmptyString -> out = strip c)
        /\ (forall c,
              (forall msg, dict_get payload "message" <> PDict msg) ->
              dict_get payload "content" = PStr c ->
              strip c <> EmptyString -> out = strip c)).
Proof.
  cbv zeta. unfold _normalize_model_reply. cbv zeta.
  destruct (nonempty (strip r)) eqn:En; cbn [negb].
  2:{ apply nonempty_false in En. rewrite En.
      split; [reflexivity|]. split; [congruence|]. split; [congruence|].
      intros payload H. congruence. }
  apply nonempty_true in En.
  split; [congruence|].
  destruct (startswith "{" (strip r) && endswith "}" (strip r)) eqn:Eb.
  2:{ split; [reflexivity|]. split; [reflexivity|]. intros payload _ H. discriminate. }
  split; [discriminate|]. split.
  { intros _ Hno. destruct (json_loads (strip r)) as [[| | | | | |payload]|]; try reflexivity.
    now destruct (Hno payload). }
  intros payload _ _ ->.
  split; [now intros ->|]. split.
  { intros t Ht. rewrite Ht. cbn [default]. split; [reflexivity|].
    now apply wrapped_text_spec with payload. }
  split.
  - intros msg c Hm Hc Hs. unfold wrapped_text. rewrite Hm, Hc. cbn [nonblank_text].
    apply nonempty_true in Hs. now rewrite Hs.
  - intros c Hm Hc Hs. unfold wrapped_text. rewrite Hc. cbn [nonblank_text].
    apply nonempty_true in Hs. rewrite Hs.
    destruct (dict_get payload "message") as [| | | | | |msg]; try reflexivity.
    now destruct (Hm msg).
Qed.

End ServerText.

Section CommandFilter.

Import qtmos_server.

Variable shlex_split : string -> string + list string.

Lemma member_of_In x S : member_of x S = true <-> In x S.
Proof.
  unfold member_of. rewrite existsb_exists. split.
  - intros (y & Hy & ->%String.eqb_eq). exact Hy.
  - intros H. exists x. split; [exact H | apply String.eqb_refl].
Qed.

(** X25.  A command line passes the filter only when its first word, in lower
    case, is on the allowlist and not on the blocklist, and, for [claw],
    when its second word is one of the safe subcommands. The words returned
    are those [shlex.split] gave for the stripped line. A line that does not
    pass is refused with the status 400 when it cannot be split or has no
    word, and with 403 otherwise. *)
Theorem validated_command_is_allowlisted (line : string) :
  match _validate_safe_command shlex_split line with
  | inr parts =>
      shlex_split (strip line) = inr parts
      /\ exists first others,
           parts = first :: others
           /\ In (lower first) SAFE_COMMANDS
           /\ ~ In (lower first) BLOCKED_COMMANDS
           /\ (lower first = "claw" ->
               exists second rest,
                 others = second :: rest /\ In (lower second) SAFE_CLAW_SUBCOMMANDS)
  | inl e =>
      match shlex_split (strip line) with
      | inl _ | inr [] => status_code e = 400
      | inr (_ :: _) => status_code e = 403
      end
  end.
Proof.
  unfold _validate_safe_command.
  destruct (shlex_split (strip line)) as [e|[|first others]]; [reflexivity..|].
  cbv zeta.
  destruct (member_of (lower first) BLOCKED_COMMANDS) eqn:Eb; [reflexivity|].
  destruct (member_of (lower first) SAFE_COMMANDS) eqn:Es; cbn [negb]; [|reflexivity].
  destruct (String.eqb (lower first) "claw") eqn:Ec; cbn [andb].
  - destruct (member_of _ SAFE_CLAW_SUBCOMMANDS) eqn:Esub; cbn [negb]; [|reflexivity].
    split; [reflexivity|]. exists first, others. split; [reflexivity|].
    split; [now apply member_of_In|].
    split; [intros H%member_of_In; congruence|].
    intros _. destruct others as [|second rest]; [discriminate Esub|].
    exists second, rest. split; [reflexivity | now apply member_of_In].
  - split; [reflexivity|]. exists first, others. split; [reflexivity|].
    split; [now apply member_of_In|].
    split; [intros H%member_of_In; congruence|].
    intros H. apply String.eqb_neq in Ec. contradiction.
Qed.

End CommandFilter.

Section AskEndpoint.

Import llm_adapters qtmos_server.

Context {RT : PyRuntime} (cfg : Config) (O : Outside).

Lemma has_puter_auth_eq w :
  has_puter_auth cfg w = (Ok (has_key cfg || nonempty (cached_token (environ w))), w).
Proof. unfold has_puter_auth. now rewrite bind_eq, _puter_token_spec. Qed.

Lemma local_attempt_run req fm w :
  exists v w1,
    query_ollama cfg O (prompt req) (Some fm) w = (Ok v, w1)
    /\ local_attempt cfg O req fm w
       = (Ok (if truthy v then Some (ask_answer "ollama" (PStr fm) req v true) else None),
          w1).
Proof.
  destruct (no_raise_run _ w (no_raise_query_ollama cfg O (prompt req) (Some fm)))
    as (v & w1 & Hq).
  exists v, w1. split; [exact Hq|]. unfold local_attempt.
  rewrite bind_eq, Hq. cbv beta iota. now destruct (truthy v).
Qed.

(** The path of [/ask] for a model without the [ollama/] prefix. *)
Lemma ask_remote_path req w :
  startswith "ollama/" (lower (strip (or_str (model req) EmptyString))) = false ->
  let fm := default "llama3:latest" (environ w !! "QTMOS_LOCAL_FALLBACK_MODEL") in
  let no_auth := allow_local_fallback req
                 && negb (has_key cfg || nonempty (cached_token (environ w))) in
  ask cfg O req w
  = match (if no_auth then local_attempt cfg O req fm w else (Ok None, w)) with
    | (Ok (Some answer), w1) => (Ok (inr answer), w1)
    | (Ok None, w1) =>
        match call_puter_with_model cfg O (prompt req) (model req) w1 with
        | (Ok r, w2) =>
            if token_truthy (fst r)
            then (Ok (inr (ask_answer "puter"
                             (if token_truthy (snd r)
                              then PStr (default EmptyString (snd r))
                              else opt_text (model req))
                             req (PStr (default EmptyString (fst r))) false)), w2)
            else
              match (if allow_local_fallback req
                     then local_attempt cfg O req fm w2 else (Ok None, w2)) with
              | (Ok (Some answer), w3) => (Ok (inr answer), w3)
              | (Ok None, w3) =>
                  (Ok (inl (mkHTTPException 503
                              "No response from Puter or local Ollama backend")), w3)
              | (Raised e, w3) => (Raised e, w3)
              end
        | (Raised e, w2) => (Raised e, w2)
        end
    | (Raised e, w1) => (Raised e, w1)
    end.
Proof.
  intros Hp. cbv zeta. unfold ask. cbv zeta.
  rewrite bind_eq, getenv_eq. cbv beta iota. rewrite Hp.
  rewrite bind_eq.
  destruct (allow_local_fallback req); cbn [andb].
  - rewrite bind_eq, has_puter_auth_eq. cbv beta iota. rewrite ret_eq. cbv beta iota.
    rewrite bind_eq.
    destruct (negb (has_key cfg || nonempty (cached_token (environ w)))).
    + fold (local_attempt cfg O req
              (default "llama3:latest" (environ w !! "QTMOS_LOCAL_FALLBACK_MODEL"))).
      destruct (local_attempt cfg O req _ w) as [[[a|]|e] w1]; [reflexivity| |reflexivity].
      rewrite bind_eq.
      destruct (call_puter_with_model cfg O (prompt req) (model req) w1) as [[r|e] w2];
        [|reflexivity].
      destruct (token_truthy (fst r)); [reflexivity|].
      rewrite bind_eq.
      fold (local_attempt cfg O req
              (default "llama3:latest" (environ w !! "QTMOS_LOCAL_FALLBACK_MODEL"))).
      now destruct (local_attempt cfg O req _ w2) as [[[a|]|e] w3].
    + rewrite ret_eq. cbv beta iota. rewrite bind_eq.
      destruct (call_puter_with_model cfg O (prompt req) (model req) w) as [[r|e] w2];
        [|reflexivity].
      destruct (token_truthy (fst r)); [reflexivity|].
      rewrite bind_eq.
      fold (local_attempt cfg O req
              (default "llama3:latest" (environ w !! "QTMOS_LOCAL_FALLBACK_MODEL"))).
      now destruct (local_attempt cfg O req _ w2) as [[[a|]|e] w3].
  - rewrite ret_eq. cbv beta iota. rewrite bind_eq, ret_eq. cbv beta iota.
    rewrite bind_eq.
    destruct (call_puter_with_model cfg O (prompt req) (model req) w) as [[r|e] w2];
      [|reflexivity].
    destruct (token_truthy (fst r)); [reflexivity|].
    now rewrite bind_eq, ret_eq.
Qed.

Lemma ask_frame (P : Event -> bool) req :
  (forall e, is_bridge_side e = true -> P e = true) ->
  (has_key cfg = true -> forall e, is_keyed_post e = true -> P e = true) ->
  (forall e, is_ollama_post e = true -> P e = true) ->
  preserves (remote_frame P) (ask cfg O req).
Proof.
  intros Hside Hkeyed Hlocal.
  pose proof (remote_frame_refl P) as R_refl.
  pose proof (remote_frame_trans P) as R_trans.
  pose proof (dispatcher_frame cfg O P (prompt req) (model req) Hside Hkeyed) as Hd.
  assert (forall m, preserves (remote_frame P) (query_ollama cfg O (prompt req) m)) as Hq.
  { intros m.
    apply (preserves_query_ollama cfg O (remote_frame P) (fun e => P e = true)
             R_refl R_trans (remote_frame_emit P)).
    intros chosen. now apply Hlocal. }
  assert (preserves (remote_frame P) (has_puter_auth cfg)) as Ha.
  { intros w0. rewrite has_puter_auth_eq. apply R_refl. }
  assert (forall k, preserves (remote_frame P) (getenv k)) as Hg.
  { intros k w0. apply R_refl. }
  unfold ask. cbv zeta. preserves_step R_refl R_trans.
Qed.

Lemma dispatcher_raise_cause prompt model w e w' :
  call_puter_with_model cfg O prompt model w = (Raised e, w') ->
  e = ValueError /\ ~ logins_nul_free O.
Proof.
  intros Hrun. split.
  - symmetry. apply (raises_only_call_puter_with_model cfg O prompt model w).
    now rewrite Hrun.
  - intros Hclean.
    destruct (no_raise_call_puter_with_model cfg O Hclean prompt model w) as [x Hx].
    rewrite Hrun in Hx. discriminate.
Qed.


(** X21.  A request whose model starts with [ollama/], in any letter case, is
    served by the local tier alone: [/ask] posts to the local inference
    server once or twice and does nothing else, with the model named after
    the prefix, or the local fallback model when nothing is named. It answers
    with the provider [ollama], never as a fallback, or raises 503. *)
Theorem ask_with_an_ollama_model_stays_local (req : AskRequest) (w : World) :
  let raw_model := strip (or_str (model req) EmptyString) in
  let fallback_model := default "llama3:latest" (environ w !! "QTMOS_LOCAL_FALLBACK_MODEL") in
  let local_model := or_text (strip (skip 7 raw_model)) fallback_model in
  startswith "ollama/" (lower raw_model) = true ->
  exists out evs,
    ask cfg O req w = (Ok out, after w evs)
    /\ forallb is_ollama_post evs = true
    /\ (1 <= length evs <= 2)%nat
    /\ head evs = Some (OllamaPost (or_str (Some local_model) (OLLAMA_MODEL cfg))
                                   (prompt req))
    /\ match out with
       | inl e => status_code e = 503
       | inr a => exists reply,
                    truthy reply = true
                    /\ a = ask_answer "ollama" (PStr local_model) req reply false
       end.
Proof.
  cbv zeta. intros Hp. unfold ask. cbv zeta.
  rewrite bind_eq, getenv_eq. cbv beta iota. rewrite Hp. rewrite bind_eq.
  set (local_model := or_text _ _).
  pose proof (query_ollama_run cfg O (prompt req) (Some local_model) w) as Hrun.
  cbv zeta in Hrun. rewrite Hrun. clear Hrun. cbv beta iota.
  match goal with
  | |- context [if ?b then [OllamaPost _ _] else []] => set (retry := b)
  end.
  set (v := ollama_reply _).
  assert (forallb is_ollama_post
            (OllamaPost (or_str (Some local_model) (OLLAMA_MODEL cfg)) (prompt req)
             :: (if retry then [OllamaPost "llama3:latest" (prompt req)] else [])) = true)
    as Hposts by (now destruct retry).
  assert (1 <= length
            (OllamaPost (or_str (Some local_model) (OLLAMA_MODEL cfg)) (prompt req)
             :: (if retry then [OllamaPost "llama3:latest" (prompt req)] else [])) <= 2)%nat
    as Hlen by (destruct retry; cbn; lia).
  destruct (truthy v) eqn:Ev; cbn [negb]; rewrite ret_eq.
  - eexists; eexists. split; [reflexivity|]. split; [exact Hposts|].
    split; [exact Hlen|]. split; [reflexivity|]. now exists v.
  - eexists; eexists. split; [reflexivity|]. split; [exact Hposts|].
    split; [exact Hlen|]. split; reflexivity.
Qed.



End AskEndpoint.

(** * Reading a pasted token *)

Section Substrings.

Lemma prefix_app_contains a b s : String.prefix (a +:+ b) s = true -> contains b s = true.
Proof.
  revert s. induction a as [|c a IH]; intros s H.
  - rewrite append_nil_l in H. destruct s; cbn [contains]; now rewrite H.
  - rewrite append_cons in H. destruct s as [|d s]; [discriminate|].
    cbn [String.prefix] in H. destruct (ascii_dec c d); [|discriminate].
    cbn [contains]. rewrite (IH s H). apply orb_true_r.
Qed.

Lemma contains_app_r a b s : contains (a +:+ b) s = true -> contains b s = true.
Proof.
  induction s as [|c s IH].
  - intros H. cbn [contains] in H. rewrite orb_false_r in H.
    now apply (prefix_app_contains a).
  - intros H. cbn [contains] in H. apply orb_prop in H as [H|H].
    + now apply (prefix_app_contains a).
    + cbn [contains]. rewrite (IH H). apply orb_true_r.
Qed.

Lemma prefix_app_l p s t : String.prefix p s = true -> String.prefix p (s +:+ t) = true.
Proof.
  revert s. induction p as [|c p IH]; intros s H; [now destruct (s +:+ t)|].
  destruct s as [|d s]; [discriminate|]. rewrite append_cons.
  cbn [String.prefix] in H |- *.
  destruct (ascii_dec c d); [now apply IH | discriminate].
Qed.

Lemma contains_app_l p s t : contains p s = true -> contains p (s +:+ t) = true.
Proof.
  induction s as [|c s IH].
  - cbn [contains]. rewrite orb_false_r. intros H. rewrite append_nil_l.
    destruct p; [now destruct t | discriminate].
  - intros H. cbn [contains] in H. apply orb_prop in H as [H|H].
    + rewrite append_cons. cbn [contains].
      rewrite <- append_cons, (prefix_app_l _ _ t H). reflexivity.
    + rewrite append_cons. cbn [contains]. rewrite (IH H). apply orb_true_r.
Qed.

Lemma rstrip_prefix s : exists t, s = rstrip s +:+ t.
Proof.
  induction s as [|c s [t IH]]; [now exists EmptyString|].
  cbn [rstrip]. destruct (rstrip s) as [|x r] eqn:E.
  - destruct (isspace c).
    + exists (String c s). now rewrite append_nil_l.
    + exists s. now rewrite append_cons, append_nil_l.
  - exists t. rewrite append_cons. now rewrite <- IH.
Qed.

Lemma contains_rstrip p s : contains p (rstrip s) = true -> contains p s = true.
Proof.
  intros H. destruct (rstrip_prefix s) as [t Ht]. rewrite Ht. now apply contains_app_l.
Qed.

Lemma contains_lstrip p s : contains p (lstrip s) = true -> contains p s = true.
Proof.
  induction s as [|c s IH]; [trivial|]. cbn [lstrip].
  destruct (isspace c); [|trivial]. intros H. cbn [contains].
  rewrite (IH H). apply orb_true_r.
Qed.

Lemma contains_strip p s : contains p (strip s) = true -> contains p s = true.
Proof. unfold strip. intros H. now apply contains_rstrip, contains_lstrip. Qed.

Lemma not_contains_strip p s : contains p s = false -> contains p (strip s) = false.
Proof.
  intros H. destruct (contains p (strip s)) eqn:E; [|reflexivity].
  apply contains_strip in E. congruence.
Qed.

Lemma lstrip_no_space s : no_space s = true -> lstrip s = s.
Proof.
  unfold no_space. destruct s as [|c s]; [reflexivity|]. cbn.
  intros [Hc _]%andb_prop. now destruct (isspace c).
Qed.

Lemma strip_no_space s : no_space s = true -> strip s = s.
Proof.
  intros H. unfold strip. rewrite (rstrip_no_space s H). now apply lstrip_no_space.
Qed.

Lemma remove_ws_lstrip s : remove_ws (lstrip s) = remove_ws s.
Proof.
  induction s as [|c s IH]; [reflexivity|]. cbn.
  destruct (isspace c) eqn:E; [exact IH|]. cbn. now rewrite E.
Qed.

Lemma remove_ws_rstrip s : remove_ws (rstrip s) = remove_ws s.
Proof.
  induction s as [|c s IH]; [reflexivity|]. cbn [rstrip].
  destruct (rstrip s) as [|x r] eqn:E.
  - cbn [remove_ws] in IH. cbn [remove_ws]. rewrite <- IH.
    destruct (isspace c) eqn:Ec; [reflexivity|]. cbn. now rewrite Ec.
  - cbn [remove_ws]. now rewrite <- IH.
Qed.

Lemma remove_ws_strip s : remove_ws (strip s) = remove_ws s.
Proof. unfold strip. now rewrite remove_ws_lstrip, remove_ws_rstrip. Qed.

Lemma split_once_none sep s : contains (String sep EmptyString) s = false ->
  split_once sep s = None.
Proof.
  induction s as [|c s IH]; [reflexivity|]. cbn [contains String.prefix split_once].
  destruct (ascii_dec sep c) as [->|Hne].
  - now destruct s.
  - cbn [orb]. intros H. destruct (Ascii.eqb_spec c sep); [congruence|].
    now rewrite IH.
Qed.

End Substrings.

Section ExtractToken.

Import cognitive_system cognitive_system_login.

Variable urlparse : string -> option (string * string).
Variable parse_qs : string -> gmap string (list string).
Variable unquote : string -> string.

Lemma none_if_empty_spec x t :
  none_if_empty (remove_ws x) = Some t -> t <> EmptyString /\ no_space t = true.
Proof.
  unfold none_if_empty. destruct (nonempty (remove_ws x)) eqn:E; [|discriminate].
  intros [= <-]. split; [now apply nonempty_true | apply remove_ws_no_space].
Qed.

(** X16.  Whatever is pasted, and whatever the URL library makes of it, a token
    that [_extract_puter_token] returns is never empty and holds no
    whitespace. *)
Theorem extracted_token_is_normalized (text t : string) :
  _extract_puter_token urlparse parse_qs unquote text = Some (Some t) ->
  t <> EmptyString /\ no_space t = true.
Proof.
  unfold _extract_puter_token. cbv zeta.
  destruct (nonempty (strip text)); cbn [negb]; [|discriminate].
  destruct (pasted_assignment (strip text)) as [r|] eqn:Ep.
  { unfold pasted_assignment in Ep.
    destruct (negb (contains "http" (strip text))); [|discriminate].
    destruct (split_once "="%char (strip text)) as [[k v]|]; [|discriminate].
    destruct (qtmos_server.member_of (strip k) PASTE_KEYS); [|discriminate].
    injection Ep as <-. intros [= H]. now apply none_if_empty_spec in H. }
  destruct (_ && _).
  { intros [= H]. now apply none_if_empty_spec in H. }
  destruct (urlparse (strip text)) as [[query fragment]|]; [|discriminate].
  destruct (first_param URL_KEYS (parse_qs query)).
  { intros [= H]. now apply none_if_empty_spec in H. }
  destruct (first_param URL_KEYS (parse_qs (lstrip_chars "#" fragment)));
    [|discriminate].
  intros [= H]. now apply none_if_empty_spec in H.
Qed.

Lemma split_once_key_line key token :
  contains "=" key = false ->
  split_once "="%char (key_line key token) = Some (key, token).
Proof.
  unfold key_line. induction key as [|c key IH]; [reflexivity|].
  rewrite append_cons. cbn [contains String.prefix split_once].
  destruct (ascii_dec "="%char c) as [<-|Hne]; [now destruct key|]. cbn [orb].
  intros H. destruct (Ascii.eqb_spec c "="%char); [congruence|].
  now rewrite (IH H).
Qed.

Lemma no_space_key_line key token :
  no_space key = true -> no_space token = true -> no_space (key_line key token) = true.
Proof.
  unfold no_space, key_line. intros Hk Ht.
  rewrite !all_chars_app, Hk, Ht. reflexivity.
Qed.

Lemma contains_cons p c s :
  contains p (String c s) = String.prefix p (String c s) || contains p s.
Proof. reflexivity. Qed.

Lemma key_line_nonempty key token : key <> EmptyString -> key_line key token <> EmptyString.
Proof. unfold key_line. destruct key; [congruence|]. now rewrite append_cons. Qed.

(** X17.  A token pasted as [KEY=token], for one of the four keys the function
    knows, is returned as it is when it holds no whitespace and not the
    text [http]; so is a line of the sink for the token. A text without [=]
    and without [http] is taken for a bare token and returned with all its
    whitespace removed. Neither case looks at the URL library. *)
Theorem pasted_token_is_read_back (key token text : string) :
  (In key PASTE_KEYS -> token <> EmptyString -> no_space token = true ->
   contains "http" token = false ->
   _extract_puter_token urlparse parse_qs unquote (key_line key token) = Some (Some token))
  /\ (contains "=" text = false -> contains "http" text = false ->
      _extract_puter_token urlparse parse_qs unquote text
      = Some (none_if_empty (remove_ws text))).
Proof.
  split.
  - intros Hkey Hne Hns Hhttp.
    assert (no_space key = true /\ contains "=" key = false /\ key <> EmptyString
            /\ qtmos_server.member_of (strip key) PASTE_KEYS = true
            /\ contains "http" (key_line key token) = false) as (Hk & Heq & Hk0 & Hm & Hc).
    { destruct Hkey as [<-|[<-|[<-|[<-|[]]]]];
        (split; [reflexivity|]); (split; [reflexivity|]); (split; [discriminate|]);
        (split; [reflexivity|]);
        unfold key_line; rewrite !append_cons, !append_nil_l;
        rewrite !contains_cons, Hhttp; reflexivity. }
    unfold _extract_puter_token. cbv zeta.
    rewrite (strip_no_space _ (no_space_key_line _ _ Hk Hns)).
    rewrite (proj2 (nonempty_true _) (key_line_nonempty key token Hk0)). cbn [negb].
    unfold pasted_assignment. rewrite Hc. cbn [negb].
    rewrite (split_once_key_line key token Heq), Hm.
    rewrite (strip_no_space _ Hns), (remove_ws_fixed _ Hns).
    unfold none_if_empty. now rewrite (proj2 (nonempty_true _) Hne).
  - intros Heq Hhttp. unfold _extract_puter_token. cbv zeta.
    pose proof (not_contains_strip _ _ Heq) as Heq'.
    pose proof (not_contains_strip _ _ Hhttp) as Hhttp'.
    destruct (nonempty (strip text)) eqn:En; cbn [negb].
    2:{ apply nonempty_false in En. rewrite <- remove_ws_strip, En. reflexivity. }
    unfold pasted_assignment. rewrite Hhttp'. cbn [negb].
    rewrite (split_once_none _ _ Heq').
    assert (forall k, contains (k +:+ "=") (strip text) = false) as Hno.
    { intros k. destruct (contains (k +:+ "=") (strip text)) eqn:E; [|reflexivity].
      apply contains_app_r in E. congruence. }
    rewrite (Hno "puterAuthToken" : contains "puterAuthToken=" (strip text) = false),
      (Hno "PUTER_AUTH_TOKEN" : contains "PUTER_AUTH_TOKEN=" (strip text) = false),
      (Hno "token" : contains "token=" (strip text) = false).
    cbn [negb andb]. now rewrite remove_ws_strip.
Qed.

End ExtractToken.

Section ChatArgs.

Import cognitive_system_login.

Lemma parse_chat_tokens_eq n : forall tokens model acc,
  (length tokens <= n)%nat ->
  parse_chat_tokens tokens model acc
  = if flags_have_values tokens
    then Some (acc ++ prompt_words tokens,
               match chosen_model tokens with
               | Some v => Some v
               | None => model
               end)
    else None.
Proof.
  induction n as [|n IH]; intros tokens model acc Hlen.
  - destruct tokens; [|cbn in Hlen; lia]. cbn. now rewrite app_nil_r.
  - destruct tokens as [|tok rest]; [cbn; now rewrite app_nil_r|].
    cbn [parse_chat_tokens prompt_words chosen_model flags_have_values].
    destruct (is_model_flag tok).
    + destruct rest as [|value rest']; [reflexivity|].
      rewrite (IH rest' (Some value) acc ltac:(cbn in Hlen; lia)).
      destruct (flags_have_values rest'); [|reflexivity].
      now destruct (chosen_model rest').
    + rewrite (IH rest model (acc ++ [tok]) ltac:(cbn in Hlen; lia)).
      destruct (flags_have_values rest); [|reflexivity].
      now rewrite <- app_assoc.
Qed.

Lemma prompt_words_sublist n : forall tokens,
  (length tokens <= n)%nat ->
  sublist (prompt_words tokens) tokens
  /\ Forall (fun t => is_model_flag t = false) (prompt_words tokens).
Proof.
  induction n as [|n IH]; intros tokens Hlen.
  - destruct tokens; [|cbn in Hlen; lia]. split; constructor.
  - destruct tokens as [|tok rest]; [split; constructor|].
    cbn [prompt_words]. destruct (is_model_flag tok) eqn:Ef.
    + destruct rest as [|value rest'].
      * split; [apply sublist_nil_l | constructor].
      * destruct (IH rest' ltac:(cbn in Hlen; lia)) as [Hsub Hall].
        split; [now apply sublist_cons, sublist_cons | exact Hall].
    + destruct (IH rest ltac:(cbn in Hlen; lia)) as [Hsub Hall].
      split; [now apply sublist_skip | now constructor].
Qed.

Lemma chat_words_without_flag tokens :
  existsb is_model_flag tokens = false ->
  prompt_words tokens = tokens /\ chosen_model tokens = None
  /\ flags_have_values tokens = true.
Proof.
  induction tokens as [|tok rest IH]; [now cbn|].
  cbn [existsb prompt_words chosen_model flags_have_values].
  intros [-> Hrest]%orb_false_elim. destruct (IH Hrest) as (-> & -> & ->). now split.
Qed.

Lemma chat_words_at_flag a flag value b :
  existsb is_model_flag a = false -> is_model_flag flag = true ->
  prompt_words (a ++ flag :: value :: b) = a ++ prompt_words b
  /\ chosen_model (a ++ flag :: value :: b) = Some (default value (chosen_model b))
  /\ flags_have_values (a ++ flag :: value :: b) = flags_have_values b.
Proof.
  intros Ha Hf. induction a as [|tok rest IH].
  - cbn [app prompt_words chosen_model flags_have_values]. now rewrite Hf.
  - cbn [existsb] in Ha. apply orb_false_elim in Ha as [Htok Hrest].
    cbn [app prompt_words chosen_model flags_have_values]. rewrite Htok.
    destruct (IH Hrest) as (-> & -> & ->). now split.
Qed.

Lemma chat_words_flag_at_end a flag :
  existsb is_model_flag a = false -> is_model_flag flag = true ->
  flags_have_values (a ++ [flag]) = false.
Proof.
  intros Ha Hf. induction a as [|tok rest IH].
  - cbn. now rewrite Hf.
  - cbn [existsb] in Ha. apply orb_false_elim in Ha as [Htok Hrest].
    cbn [app flags_have_values]. rewrite Htok. now apply IH.
Qed.

(** X19.  The arguments of [puter-chat], for a line that [shlex.split] splits
    into tokens: when every model flag ([--model] or [-m]) is followed by a
    token, the prompt is made of the tokens that are no model flag and not
    the token right after one, all of them and in their order, joined by
    blanks and stripped, and the model is the token after the last flag,
    or none without a flag; the token after a flag is its value even when
    it reads as a flag. So without a flag every token is part of the
    prompt, and around a first flag and its value the tokens before are
    kept and the tokens after are read in the same way. A line that cannot
    be split, or with a flag that no token follows, gives neither prompt
    nor model. *)
Theorem chat_flags_stay_out_of_the_prompt (shlex_split : string -> string + list string)
    (rest : string) :
  let run := _parse_puter_chat_args shlex_split rest in
  (forall e, shlex_split rest = inl e -> run = (None, None))
  /\ (forall tokens, shlex_split rest = inr tokens ->
        run = (if flags_have_values tokens
               then (Some (strip (join " " (prompt_words tokens))), chosen_model tokens)
               else (None, None))
        /\ sublist (prompt_words tokens) tokens
        /\ Forall (fun t => is_model_flag t = false) (prompt_words tokens)
        /\ (existsb is_model_flag tokens = false ->
            run = (Some (strip (join " " tokens)), None))
        /\ (forall a flag value b,
              tokens = a ++ flag :: value :: b ->
              existsb is_model_flag a = false -> is_model_flag flag = true ->
              prompt_words tokens = a ++ prompt_words b
              /\ chosen_model tokens = Some (default value (chosen_model b))
              /\ flags_have_values tokens = flags_have_values b)
        /\ (forall a flag value b,
              tokens = a ++ flag :: value :: b ->
              existsb is_model_flag a = false -> is_model_flag flag = true ->
              existsb is_model_flag b = false ->
              run = (Some (strip (join " " (a ++ b))), Some value))
        /\ (forall a flag,
              tokens = a ++ [flag] ->
              existsb is_model_flag a = false -> is_model_flag flag = true ->
              run = (None, None))).
Proof.
  cbv zeta. unfold _parse_puter_chat_args. split.
  { now intros e ->. }
  intros tokens ->.
  rewrite (parse_chat_tokens_eq (length tokens) tokens None [] (le_n _)). cbn [app].
  assert (forall o : option string,
            match o with Some v => Some v | None => None end = o) as Hid
    by (now intros [v|]).
  assert ((if flags_have_values tokens
           then Some (prompt_words tokens,
                      match chosen_model tokens with Some v => Some v | None => None end)
           else None)
          = (if flags_have_values tokens
             then Some (prompt_words tokens, chosen_model tokens) else None)) as ->
    by (now rewrite Hid).
  destruct (prompt_words_sublist (length tokens) tokens (le_n _)) as [Hsub Hall].
  split; [now destruct (flags_have_values tokens)|].
  split; [exact Hsub|]. split; [exact Hall|]. split.
  { intros Hno. destruct (chat_words_without_flag tokens Hno) as (-> & -> & ->).
    reflexivity. }
  split.
  { intros a flag value b -> Ha Hf. now apply chat_words_at_flag. }
  split.
  - intros a flag value b -> Ha Hf Hb.
    destruct (chat_words_at_flag a flag value b Ha Hf) as (-> & -> & ->).
    destruct (chat_words_without_flag b Hb) as (-> & -> & ->). reflexivity.
  - intros a flag -> Ha Hf. now rewrite (chat_words_flag_at_end a flag Ha Hf).
Qed.

End ChatArgs.

(** * From the sink back to the environment *)

Section StoredLines.

Import cognitive_system.

Lemma origin_rstrip old_lines token l :
  no_space token = true ->
  stored_line_origin old_lines token l -> stored_line_origin old_lines token (rstrip l).
Proof.
  intros Ht [->|[->|[->|(l0 & Hin & Hk & Hl)]]].
  - left. now apply rstrip_key_line_no_space.
  - right; left. apply rstrip_key_line_no_space, token_sha256_no_space.
  - right; right; left. now apply rstrip_key_line_no_space.
  - right; right; right. exists l0. split; [exact Hin|]. split; [exact Hk|].
    right. destruct Hl as [->| ->]; [reflexivity | apply rstrip_idem].
Qed.

Lemma origin_step old_lines token key value ls :
  no_space token = true ->
  stored_line_origin old_lines token (key_line key value) ->
  (forall l, In l ls -> stored_line_origin old_lines token l) ->
  forall l, In l (trim_end (upserted_lines key value ls)) ->
            stored_line_origin old_lines token l.
Proof.
  intros Ht Hkey Hls l [e0 [Hin He]]%in_trim_end.
  assert (stored_line_origin old_lines token e0) as H0.
  { destruct (in_upserted _ _ _ _ Hin) as [->|[Hin0 _]]; [exact Hkey | now apply Hls]. }
  destruct He as [->| ->]; [exact H0 | now apply origin_rstrip].
Qed.

(** The text the store writes, as lines with their origin. *)
Lemma stored_text_origin old token model_set :
  no_space token = true ->
  exists ls,
    stored_text old token model_set = join LF ls +:+ LF
    /\ tidy ls
    /\ In (key_line "PUTER_AUTH_TOKEN" token) ls
    /\ In (key_line "PUTER_TOKEN_SHA256" (_token_sha256 token)) ls
    /\ forall l, In l ls -> stored_line_origin (read_lines old) token l.
Proof.
  intros Ht.
  destruct (stored_text_lines old token model_set Ht) as (ls & Htext & T & H1 & H2 & _).
  exists ls. split; [exact Htext|]. split; [exact T|].
  split; [now apply holds_key_line_in|]. split; [now apply holds_key_line_in|].
  pose proof (token_sha256_no_space token) as Hh.
  pose proof (no_space_no_linebreak _ Hh) as Hhl.
  revert Htext. unfold stored_text. cbv zeta.
  set (l1 := trim_end (upserted_lines "PUTER_AUTH_TOKEN" token (read_lines old))).
  assert (upsert_env_text old "PUTER_AUTH_TOKEN" token = join LF l1 +:+ LF) as ->
    by apply upsert_env_text_lines.
  assert (tidy l1) as T1 by (apply tidy_upserted; auto using no_space_no_linebreak).
  assert (forall l, In l l1 -> stored_line_origin (read_lines old) token l) as O1.
  { intros l [e0 [Hin He]]%in_trim_end.
    assert (stored_line_origin (read_lines old) token e0) as H0.
    { destruct (in_upserted _ _ _ _ Hin) as [->|[Hin0 Hk]]; [now left|].
      right; right; right. exists e0. auto. }
    destruct He as [->| ->]; [exact H0 | now apply origin_rstrip]. }
  set (l2 := trim_end (upserted_lines "PUTER_TOKEN_SHA256" (_token_sha256 token) l1)).
  assert (upsert_env_text (Some (TextFile (join LF l1 +:+ LF))) "PUTER_TOKEN_SHA256"
            (_token_sha256 token) = join LF l2 +:+ LF) as ->.
  { rewrite upsert_env_text_lines. destruct T1 as (Hne & Hnl & _).
    now rewrite (read_lines_written l1 Hne Hnl). }
  assert (tidy l2) as T2.
  { pose proof (tidy_upserted (Some (TextFile (join LF l1 +:+ LF))) "PUTER_TOKEN_SHA256"
                  (_token_sha256 token) eq_refl Hhl) as T'.
    destruct T1 as (Hne & Hnl & _). now rewrite (read_lines_written l1 Hne Hnl) in T'. }
  assert (forall l, In l l2 -> stored_line_origin (read_lines old) token l) as O2.
  { apply origin_step; [exact Ht | right; now left | exact O1]. }
  assert (forall a b : list string, a <> [] ->
            Forall (fun l => no_linebreak l = true) a ->
            Forall (fun l => no_linebreak l = true) b -> b <> [] ->
            join LF a +:+ LF = join LF b +:+ LF -> a = b) as Hinj.
  { intros a b Ha Hla Hlb Hb E.
    rewrite <- (read_lines_written a Ha Hla), <- (read_lines_written b Hb Hlb).
    now rewrite E. }
  destruct model_set.
  - intros E. destruct T as (Hne & Hnl & _). destruct T2 as (Hne2 & Hnl2 & _).
    rewrite <- (Hinj l2 ls Hne2 Hnl2 Hnl Hne E). exact O2.
  - set (l3 := trim_end (upserted_lines "PUTER_DEFAULT_MODEL" "claude-opus-4-6" l2)).
    assert (upsert_env_text (Some (TextFile (join LF l2 +:+ LF))) "PUTER_DEFAULT_MODEL"
              "claude-opus-4-6" = join LF l3 +:+ LF) as ->.
    { rewrite upsert_env_text_lines. destruct T2 as (Hne & Hnl & _).
      now rewrite (read_lines_written l2 Hne Hnl). }
    assert (tidy l3) as T3.
    { pose proof (tidy_upserted (Some (TextFile (join LF l2 +:+ LF))) "PUTER_DEFAULT_MODEL"
                    "claude-opus-4-6" eq_refl eq_refl) as T'.
      destruct T2 as (Hne & Hnl & _). now rewrite (read_lines_written l2 Hne Hnl) in T'. }
    intros E. destruct T as (Hne & Hnl & _). destruct T3 as (Hne3 & Hnl3 & _).
    rewrite <- (Hinj l3 ls Hne3 Hnl3 Hnl Hne E).
    apply origin_step; [exact Ht | right; right; now left | exact O2].
Qed.

End StoredLines.

Section RoundTrips.

Import cognitive_system cognitive_system_login llm_adapters_more.

Lemma env_entry_rstrip l : env_entry (rstrip l) = env_entry l.
Proof. unfold env_entry. now rewrite strip_rstrip. Qed.

Lemma login_entry_rstrip l : login_entry (rstrip l) = login_entry l.
Proof. unfold login_entry. now rewrite strip_rstrip. Qed.

Lemma startswith_key_line p key value :
  (forall rest, startswith p (key +:+ rest) = false) ->
  startswith p (key_line key value) = false.
Proof. intros H. unfold key_line. apply H. Qed.

(** What the loaders read in a line the store wrote. *)
Lemma env_entry_key_line key value :
  no_space key = true -> key <> EmptyString -> contains "=" key = false ->
  (forall rest, startswith "#" (key +:+ rest) = false) ->
  no_space value = true ->
  env_entry (key_line key value) = Some (key, strip_chars QUOTES value).
Proof.
  intros Hk Hk0 Heq Hhash Hv. unfold env_entry. cbv zeta.
  rewrite (strip_no_space _ (no_space_key_line _ _ Hk Hv)).
  rewrite (proj2 (nonempty_true _) (key_line_nonempty key value Hk0)).
  rewrite (startswith_key_line _ _ _ Hhash). cbn [negb orb].
  rewrite (split_once_key_line key value Heq).
  rewrite (strip_no_space _ Hk), (strip_no_space _ Hv).
  now rewrite (proj2 (nonempty_true _) Hk0).
Qed.

Lemma login_entry_key_line key value :
  no_space key = true -> key <> EmptyString -> contains "=" key = false ->
  (forall rest, startswith "#" (key +:+ rest) = false) ->
  no_space value = true ->
  login_entry (key_line key value)
  = if qtmos_server.member_of key ["PUTER_AUTH_TOKEN"; "puterAuthToken"]
    then Some (remove_ws (strip_chars QUOTES value)) else None.
Proof.
  intros Hk Hk0 Heq Hhash Hv. unfold login_entry. cbv zeta.
  rewrite (strip_no_space _ (no_space_key_line _ _ Hk Hv)).
  rewrite (proj2 (nonempty_true _) (key_line_nonempty key value Hk0)).
  rewrite (startswith_key_line _ _ _ Hhash). cbn [negb orb].
  rewrite (split_once_key_line key value Heq).
  now rewrite (strip_no_space _ Hk), (strip_no_space _ Hv).
Qed.

Lemma hash_starts_with key rest :
  key = "PUTER_AUTH_TOKEN" \/ key = "PUTER_TOKEN_SHA256" \/ key = "PUTER_DEFAULT_MODEL" ->
  startswith "#" (key +:+ rest) = false.
Proof. intros [->|[->| ->]]; now rewrite append_cons. Qed.

Lemma first_value_unique k v ls :
  (exists l, In l ls /\ env_entry l = Some (k, v)) ->
  (forall l v', In l ls -> env_entry l = Some (k, v') -> v' = v) ->
  first_value k ls = Some v.
Proof.
  induction ls as [|l ls IH]; intros (l0 & Hin & E) Hall; [destruct Hin|].
  cbn [first_value]. destruct (env_entry l) as [[k' v']|] eqn:El.
  - destruct (String.eqb_spec k' k) as [->|Hne].
    + f_equal. apply (Hall l v' (or_introl eq_refl) El).
    + apply IH.
      * destruct Hin as [->|Hin]; [congruence|]. now exists l0.
      * intros l1 v1 H1. apply Hall. now right.
  - apply IH.
    + destruct Hin as [->|Hin]; [congruence|]. now exists l0.
    + intros l1 v1 H1. apply Hall. now right.
Qed.

Lemma first_value_none k ls :
  (forall l v, In l ls -> env_entry l <> Some (k, v)) -> first_value k ls = None.
Proof.
  induction ls as [|l ls IH]; intros Hall; [reflexivity|].
  cbn [first_value]. destruct (env_entry l) as [[k' v']|] eqn:El.
  - destruct (String.eqb_spec k' k) as [->|Hne].
    + destruct (Hall l v' (or_introl eq_refl) El).
    + apply IH. intros l1 v1 H1. apply Hall. now right.
  - apply IH. intros l1 v1 H1. apply Hall. now right.
Qed.

Lemma first_value_some_inv k v ls :
  first_value k ls = Some v -> exists l, In l ls /\ env_entry l = Some (k, v).
Proof.
  induction ls as [|l ls IH]; [discriminate|]. cbn [first_value].
  destruct (env_entry l) as [[k' v']|] eqn:El.
  - destruct (String.eqb_spec k' k) as [->|Hne].
    + intros [= ->]. exists l. split; [now left | exact El].
    + intros H. destruct (IH H) as (l0 & Hin & E). exists l0. split; [now right | exact E].
  - intros H. destruct (IH H) as (l0 & Hin & E). exists l0. split; [now right | exact E].
Qed.

Lemma sink_token_unique t ls :
  t <> EmptyString ->
  (exists l, In l ls /\ login_entry l = Some t) ->
  (forall l t', In l ls -> login_entry l = Some t' -> t' = t) ->
  sink_token ls = t.
Proof.
  intros Ht. induction ls as [|l ls IH]; intros (l0 & Hin & E) Hall; [destruct Hin|].
  cbn [sink_token]. destruct (login_entry l) as [t'|] eqn:El.
  - rewrite (Hall l t' (or_introl eq_refl) El).
    now rewrite (proj2 (nonempty_true _) Ht).
  - apply IH.
    + destruct Hin as [->|Hin]; [congruence|]. now exists l0.
    + intros l1 t1 H1. apply Hall. now right.
Qed.

Lemma first_value_in k v ls l :
  In l ls -> env_entry l = Some (k, v) -> first_value k ls <> None.
Proof.
  intros Hin E H.
  pose proof (first_value_none k ls) as Hn.
  assert (forall l' v', In l' ls -> env_entry l' <> Some (k, v')) as Hall.
  { intros l' v' Hin' E'. clear Hn.
    induction ls as [|x ls IH]; [destruct Hin'|]. cbn [first_value] in H.
    destruct (env_entry x) as [[k' v'']|] eqn:Ex.
    - destruct (String.eqb_spec k' k) as [->|Hne]; [discriminate|].
      destruct Hin' as [->|Hin']; [congruence|].
      destruct Hin as [->|Hin]; [congruence|]. now apply IH.
    - destruct Hin' as [->|Hin']; [congruence|].
      destruct Hin as [->|Hin]; [congruence|]. now apply IH. }
  exact (Hall l v Hin E).
Qed.

Lemma char_in_lstrip_chars c cs s :
  char_in c (lstrip_chars cs s) = true -> char_in c s = true.
Proof.
  induction s as [|d s IH]; [trivial|]. cbn [lstrip_chars].
  destruct (char_in d cs); [|trivial]. intros H. cbn [char_in].
  rewrite (IH H). apply orb_true_r.
Qed.

Lemma char_in_rstrip_chars c cs s :
  char_in c (rstrip_chars cs s) = true -> char_in c s = true.
Proof.
  induction s as [|d s IH]; [trivial|]. cbn [rstrip_chars].
  destruct (rstrip_chars cs s) as [|x r] eqn:E.
  - destruct (char_in d cs); [discriminate|]. cbn [char_in].
    rewrite orb_false_r. intros ->. reflexivity.
  - cbn [char_in]. intros [H|H]%orb_prop; [now rewrite H|].
    rewrite IH; [apply orb_true_r | exact H].
Qed.

Lemma char_in_strip_chars c cs s :
  char_in c s = false -> char_in c (strip_chars cs s) = false.
Proof.
  intros H. destruct (char_in c (strip_chars cs s)) eqn:E; [|reflexivity].
  unfold strip_chars in E. apply char_in_lstrip_chars, char_in_rstrip_chars in E.
  congruence.
Qed.

(** The facts about the three keys of the store that the loaders need. *)
Lemma store_key_facts key :
  key = "PUTER_AUTH_TOKEN" \/ key = "PUTER_TOKEN_SHA256" \/ key = "PUTER_DEFAULT_MODEL" ->
  no_space key = true /\ key <> EmptyString /\ contains "=" key = false
  /\ char_in NUL key = false.
Proof. intros [->|[->| ->]]; repeat split; discriminate. Qed.

(** What the env-file loader reads in the lines of a stored sink. *)
Lemma stored_entries old_lines token l k v :
  no_space token = true -> strip_chars QUOTES token = token ->
  stored_line_origin old_lines token l ->
  env_entry l = Some (k, v) ->
  (k = "PUTER_AUTH_TOKEN" /\ v = token)
  \/ (k = "PUTER_TOKEN_SHA256" /\ v = strip_chars QUOTES (_token_sha256 token))
  \/ (k = "PUTER_DEFAULT_MODEL" /\ v = "claude-opus-4-6")
  \/ exists l0, In l0 old_lines /\ is_key_line "PUTER_AUTH_TOKEN" l0 = false
                /\ env_entry l0 = Some (k, v).
Proof.
  intros Ht Hq [->|[->|[->|(l0 & Hin & Hk & Hl)]]] E.
  - destruct (store_key_facts "PUTER_AUTH_TOKEN") as (H1 & H2 & H3 & _); [auto|].
    rewrite (env_entry_key_line _ _ H1 H2 H3) in E;
      [|intros rest; apply hash_starts_with; auto | exact Ht].
    injection E as <- <-. left. now rewrite Hq.
  - destruct (store_key_facts "PUTER_TOKEN_SHA256") as (H1 & H2 & H3 & _); [auto|].
    rewrite (env_entry_key_line _ _ H1 H2 H3) in E;
      [|intros rest; apply hash_starts_with; auto | apply token_sha256_no_space].
    injection E as <- <-. right; left. now split.
  - vm_compute in E. injection E as <- <-. right; right; left. now split.
  - right; right; right. exists l0. split; [exact Hin|]. split; [exact Hk|].
    destruct Hl as [->| ->]; [exact E | now rewrite env_entry_rstrip in E].
Qed.

(** X14.  A token stored by the login command is found again when the next
    process loads the env file: in an environment that does not hold
    [PUTER_AUTH_TOKEN], the loader sets it to the stored token. This needs
    a token without whitespace, without a quote character at either end and
    without NUL, and a sink whose earlier assignments hold no NUL and name
    the token variable right before the [=]. When the environment and the
    old sink do not assign [puterAuthToken] either, the token cache of the
    adapters then reads the stored token. *)
Theorem stored_token_is_loaded_at_next_start (token : string) (w : World)
    (env0 : gmap string string) (h : list Event) :
  let old_lines := read_lines (files w !! LLM_ENV_PATH) in
  let stored := snd (puter_login_store token w) in
  let restarted := snd (_load_env_fallback LLM_ENV_PATH (mkWorld env0 (files stored) h)) in
  no_space token = true ->
  strip_chars QUOTES token = token ->
  char_in NUL token = false ->
  loadable old_lines ->
  plainly_assigned "PUTER_AUTH_TOKEN" old_lines ->
  env0 !! "PUTER_AUTH_TOKEN" = None ->
  environ restarted !! "PUTER_AUTH_TOKEN" = Some token
  /\ (env0 !! "puterAuthToken" = None ->
      first_value "puterAuthToken" old_lines = None ->
      cached_token (environ restarted) = token).
Proof.
  cbv zeta. intros Ht Hq Hnul Hload Hplain Henv.
  rewrite (puter_login_store_run token w Hnul). cbn [snd files].
  unfold _load_env_fallback. cbn [snd environ files]. rewrite lookup_insert_eq.
  destruct (stored_text_origin (files w !! LLM_ENV_PATH) token
              (bool_decide (is_Some (environ w !! "PUTER_DEFAULT_MODEL"))) Ht)
    as (ls & -> & (Hne & Hnl & _) & Hin1 & _ & Horigin).
  rewrite (read_lines_written ls Hne Hnl).
  set (old_lines := read_lines (files w !! LLM_ENV_PATH)) in *.
  assert (forall l k v, In l ls -> env_entry l = Some (k, v) ->
            (k = "PUTER_AUTH_TOKEN" /\ v = token)
            \/ (k = "PUTER_TOKEN_SHA256" /\ v = strip_chars QUOTES (_token_sha256 token))
            \/ (k = "PUTER_DEFAULT_MODEL" /\ v = "claude-opus-4-6")
            \/ exists l0, In l0 old_lines /\ is_key_line "PUTER_AUTH_TOKEN" l0 = false
                          /\ env_entry l0 = Some (k, v)) as Hentries.
  { intros l k v Hl. apply stored_entries; auto. }
  assert (loadable ls) as Hls.
  { intros l k v Hl E.
    destruct (Hentries l k v Hl E) as [[-> ->]|[[-> ->]|[[-> ->]|(l0 & H0 & _ & E0)]]].
    - unfold putenv_fails. now rewrite Hnul.
    - unfold putenv_fails.
      now rewrite (char_in_strip_chars _ _ _ (token_sha256_no_nul token)).
    - reflexivity.
    - exact (Hload l0 k v H0 E0). }
  assert (env_entry (key_line "PUTER_AUTH_TOKEN" token) = Some ("PUTER_AUTH_TOKEN", token))
    as Ekey.
  { destruct (store_key_facts "PUTER_AUTH_TOKEN") as (H1 & H2 & H3 & _); [auto|].
    rewrite (env_entry_key_line _ _ H1 H2 H3);
      [now rewrite Hq | intros rest; apply hash_starts_with; auto | exact Ht]. }
  assert (first_value "PUTER_AUTH_TOKEN" ls = Some token) as Hfirst.
  { apply first_value_unique.
    - exists (key_line "PUTER_AUTH_TOKEN" token). now split.
    - intros l v Hl E.
      destruct (Hentries l _ v Hl E)
        as [[_ ->]|[[? _]|[[? _]|(l0 & H0 & Hk & E0)]]]; try discriminate; [reflexivity|].
      rewrite (Hplain l0 v H0 E0) in Hk. discriminate. }
  split.
  - rewrite load_entries_first_wins by assumption. exact Hfirst.
  - intros Henv2 Hold.
    assert (first_value "puterAuthToken" ls = None) as Hnone.
    { apply first_value_none. intros l v Hl E.
      destruct (Hentries l _ v Hl E)
        as [[? _]|[[? _]|[[? _]|(l0 & H0 & _ & E0)]]]; try discriminate.
      exact (first_value_in _ _ _ _ H0 E0 Hold). }
    unfold cached_token.
    rewrite (load_entries_first_wins ls env0 "puterAuthToken" Hls Henv2), Hnone.
    rewrite (load_entries_first_wins ls env0 "PUTER_AUTH_TOKEN" Hls Henv), Hfirst.
    cbn [or_str]. destruct (String.eqb token EmptyString) eqn:E.
    + apply String.eqb_eq in E. now subst.
    + now apply remove_ws_fixed.
Qed.

(** What the login command reads in the lines of a stored sink. *)
Lemma stored_login_entries old_lines token l t :
  no_space token = true -> strip_chars QUOTES token = token ->
  token_lines_plain old_lines ->
  stored_line_origin old_lines token l ->
  login_entry l = Some t -> t = token.
Proof.
  intros Ht Hq Hplain [->|[->|[->|(l0 & Hin & Hk & Hl)]]] E.
  - destruct (store_key_facts "PUTER_AUTH_TOKEN") as (H1 & H2 & H3 & _); [auto|].
    rewrite (login_entry_key_line _ _ H1 H2 H3) in E;
      [|intros rest; apply hash_starts_with; auto | exact Ht].
    cbn [qtmos_server.member_of existsb String.eqb Ascii.eqb Bool.eqb orb andb] in E.
    injection E as <-. rewrite Hq. now apply remove_ws_fixed.
  - destruct (store_key_facts "PUTER_TOKEN_SHA256") as (H1 & H2 & H3 & _); [auto|].
    rewrite (login_entry_key_line _ _ H1 H2 H3) in E;
      [|intros rest; apply hash_starts_with; auto | apply token_sha256_no_space].
    discriminate E.
  - vm_compute in E. discriminate E.
  - assert (login_entry l0 = Some t) as E0
      by (destruct Hl as [->| ->]; [exact E | now rewrite login_entry_rstrip in E]).
    rewrite (Hplain l0 t Hin E0) in Hk. discriminate.
Qed.


End RoundTrips.

(** * Asking the API with fallbacks *)

Section Fallbacks.

Import route_prompt route_prompt_run.

Context {RT : PyRuntime}.
Variable urlopen : list ApiRequest -> UrlOutcome.
Variable elapsed_ms : list ApiRequest -> Z.
Variable json_error : string -> string.
Variable request_raises : string -> bool.

Local Abbreviation run_single := (_run_single urlopen elapsed_ms json_error request_raises).
Local Abbreviation loop := (fallback_loop urlopen elapsed_ms json_error request_raises).
Local Abbreviation reply_at := (reply_at urlopen elapsed_ms json_error request_raises).
Local Abbreviation failed_before :=
  (failed_before urlopen elapsed_ms json_error request_raises).

(** The request cannot be built: [_run_single] raises and nothing is sent. *)
Lemma run_single_refused base task m h :
  request_raises (rstrip_chars "/" base +:+ "/ask") = true ->
  run_single base task m h = (Raised ValueError, h).
Proof. intros Hr. unfold _run_single, _post_json. cbv zeta. now rewrite Hr. Qed.

Section Accepted.

Variable base : string.
Hypothesis accepted : request_raises (rstrip_chars "/" base +:+ "/ask") = false.

Lemma run_single_history task m h :
  snd (run_single base task (Some m) h) = h ++ asks base task [m].
Proof.
  unfold _run_single, _post_json. cbv zeta. rewrite accepted. cbn [fst snd].
  now destruct (match urlopen _ with UrlBody _ => _ | _ => _ end).
Qed.

Lemma run_single_raises task m h e :
  fst (run_single base task (Some m) h) = Raised e -> e = AttributeError.
Proof.
  unfold _run_single, _post_json. cbv zeta. rewrite accepted.
  destruct (match urlopen _ with UrlBody _ => _ | _ => _ end); cbn; congruence.
Qed.

Lemma failed_before_cons task m0 rest h k out :
  fst (run_single base task (Some m0) h) = Ok out ->
  truthy (dict_get out "ok") = false ->
  failed_before base task rest (h ++ asks base task [m0]) k ->
  failed_before base task (m0 :: rest) h (S k).
Proof.
  intros H0 Hf Hrest [|i] m Hi Hm.
  - cbn in Hm. injection Hm as <-. exists out. unfold reply_at. cbn [take asks map].
    now rewrite app_nil_r.
  - cbn in Hm. destruct (Hrest i m ltac:(lia) Hm) as (o & Ho & Hok).
    exists o. split; [|exact Hok]. unfold reply_at in *. cbn [take].
    change (asks base task (m0 :: take i rest))
      with (asks base task [m0] ++ asks base task (take i rest)).
    now rewrite app_assoc.
Qed.

Lemma fallback_loop_run task models todo : forall attempts h,
  exists n,
    (n <= length todo)%nat
    /\ snd (loop base task models todo attempts h) = h ++ asks base task (take n todo)
    /\ match fst (loop base task models todo attempts h) with
       | Ok result =>
           (exists m out more,
              (1 <= n)%nat /\ todo !! (n - 1)%nat = Some m
              /\ failed_before base task todo h (n - 1)
              /\ reply_at base task todo h (n - 1) m = Ok out
              /\ truthy (dict_get out "ok") = true
              /\ result = success models m out (attempts ++ more)
              /\ map attempt_model more = map PStr (take n todo))
           \/ (exists more,
                 n = length todo
                 /\ failed_before base task todo h n
                 /\ result = failure (attempts ++ more)
                 /\ map attempt_model more = map PStr todo)
       | Raised e =>
           e = AttributeError
           /\ exists m, (1 <= n)%nat /\ todo !! (n - 1)%nat = Some m
                        /\ failed_before base task todo h (n - 1)
                        /\ reply_at base task todo h (n - 1) m = Raised AttributeError
       end.
Proof.
  induction todo as [|m0 rest IH]; intros attempts h.
  - exists 0%nat. cbn [fallback_loop fst snd length take asks map].
    rewrite app_nil_r. split; [lia|]. split; [reflexivity|].
    right. exists []. rewrite app_nil_r. repeat split. intros i m Hi. lia.
  - cbn [fallback_loop].
    pose proof (run_single_history task m0 h) as Hh.
    destruct (run_single base task (Some m0) h) as [[out|e] h'] eqn:E0; cbn [snd] in Hh.
    + cbv zeta. destruct (truthy (dict_get out "ok")) eqn:Eok.
      * exists 1%nat. cbn [fst snd length take]. split; [lia|].
        split; [exact Hh|]. left. exists m0, out, [attempt m0 out].
        split; [lia|]. split; [reflexivity|].
        split; [intros i m Hi; lia|].
        split; [unfold reply_at; cbn [take asks map Nat.sub];
                now rewrite app_nil_r, E0|].
        split; [exact Eok|]. split; reflexivity.
      * destruct (IH (attempts ++ [attempt m0 out]) h') as (n & Hn & Hsnd & Hres).
        exists (S n). cbn [length]. split; [lia|].
        subst h'. split.
        { rewrite Hsnd, <- app_assoc. reflexivity. }
        assert (fst (run_single base task (Some m0) h) = Ok out) as H0
          by now rewrite E0.
        destruct (fst (loop base task models rest (attempts ++ [attempt m0 out])
                         (h ++ asks base task [m0]))) as [result|e].
        -- destruct Hres as [(m & o & more & H1 & Hm & Hfb & Hr & Hok & -> & Hmods)
                            |(more & -> & Hfb & -> & Hmods)].
           ++ left. exists m, o, (attempt m0 out :: more).
              split; [lia|].
              replace (S n - 1)%nat with (S (n - 1)) by lia.
              split; [exact Hm|].
              split; [now apply (failed_before_cons _ _ _ _ _ out)|].
              split.
              { unfold reply_at in *. cbn [take].
                change (asks base task (m0 :: take (n - 1) rest))
                  with (asks base task [m0] ++ asks base task (take (n - 1) rest)).
                now rewrite app_assoc. }
              split; [exact Hok|]. split.
              { now rewrite <- app_assoc. }
              cbn [map take attempt_model attempt dict_get assoc String.eqb Ascii.eqb
                     Bool.eqb default]. now rewrite Hmods.
           ++ right. exists (attempt m0 out :: more). split; [reflexivity|].
              split; [now apply (failed_before_cons _ _ _ _ _ out)|].
              split; [now rewrite <- app_assoc|].
              cbn [map attempt_model attempt dict_get assoc String.eqb Ascii.eqb
                     Bool.eqb default]. now rewrite Hmods.
        -- destruct Hres as (-> & m & H1 & Hm & Hfb & Hr). split; [reflexivity|].
           exists m. split; [lia|].
           replace (S n - 1)%nat with (S (n - 1)) by lia.
           split; [exact Hm|].
           split; [now apply (failed_before_cons _ _ _ _ _ out)|].
           unfold reply_at in *. cbn [take].
           change (asks base task (m0 :: take (n - 1) rest))
             with (asks base task [m0] ++ asks base task (take (n - 1) rest)).
           now rewrite app_assoc.
    + exists 1%nat. cbn [fst snd length take]. split; [lia|]. split; [exact Hh|].
      assert (e = AttributeError) as ->
        by (apply (run_single_raises task m0 h); now rewrite E0).
      split; [reflexivity|]. exists m0. split; [lia|]. split; [reflexivity|].
      split; [intros i m Hi; lia|].
      unfold reply_at. cbn [take asks map Nat.sub]. now rewrite app_nil_r, E0.
Qed.

End Accepted.


End Fallbacks.

Section CandidateOptions.

Import route_prompt route_prompt_run.

Lemma compare_models_firstn max_fanout candidates :
  compare_models max_fanout candidates
  = firstn (Z.to_nat (Z.max 1 max_fanout)) candidates.
Proof.
  unfold compare_models. cbv zeta.
  destruct (Z.le_gt_cases max_fanout (Z.of_nat (length candidates))) as [Hle|Hgt].
  - now rewrite Z.min_l.
  - rewrite Z.min_r by lia.
    rewrite !firstn_all2; [reflexivity | lia | lia].
Qed.

Lemma split_on_no_sep sep p : char_in sep p = false -> split_on sep p = [p].
Proof.
  induction p as [|c p IH]; [reflexivity|]. cbn [char_in split_on].
  intros [Hc Hp]%orb_false_elim. rewrite Ascii.eqb_sym, Hc. now rewrite (IH Hp).
Qed.

Lemma split_on_app sep p rest :
  char_in sep p = false ->
  split_on sep (p +:+ String sep rest) = p :: split_on sep rest.
Proof.
  induction p as [|c p IH].
  - intros _. rewrite append_nil_l. cbn [split_on]. now rewrite Ascii.eqb_refl.
  - cbn [char_in]. intros [Hc Hp]%orb_false_elim. rewrite append_cons.
    cbn [split_on]. rewrite Ascii.eqb_sym, Hc. now rewrite (IH Hp).
Qed.

Lemma split_on_join sep parts :
  parts <> [] -> Forall (fun p => char_in sep p = false) parts ->
  split_on sep (join (String sep EmptyString) parts) = parts.
Proof.
  induction parts as [|p [|q qs] IH]; [congruence| |].
  - intros _ [Hp _]%Forall_cons_1. now apply split_on_no_sep.
  - intros _ [Hp Hrest]%Forall_cons_1.
    change (join (String sep EmptyString) (p :: q :: qs))
      with (p +:+ String sep EmptyString +:+ join (String sep EmptyString) (q :: qs)).
    rewrite append_cons, append_nil_l.
    rewrite (split_on_app sep p _ Hp). f_equal. now apply IH.
Qed.

(** X28.  The candidates given with [--candidates] are the parts between the
    commas, stripped, without the blank ones and in their order: for parts
    that hold no comma, joined by commas, they are the stripped parts that
    are not empty. An option [--candidates] that is not empty is used
    alone, even when no candidate is left of it; without it a model given
    with [--model] is the only candidate; and the automatic list of the
    task serves when neither candidates nor a model are given. In compare
    mode the models asked are the first of the list, as many as the
    fan-out allows and at least one: a fan-out of zero or less still asks
    the first model. *)
Theorem candidate_options_are_cleaned (arg task : string) (model : option string)
    (max_fanout : Z) (candidates : list string) :
  Forall (fun c => c <> EmptyString /\ stripped c) (explicit_candidates arg)
  /\ (forall parts,
        parts <> [] -> Forall (fun p => char_in ","%char p = false) parts ->
        explicit_candidates (join "," parts) = List.filter nonempty (map strip parts))
  /\ (arg <> EmptyString ->
      main_candidates (Some arg) model task = explicit_candidates arg)
  /\ main_candidates (Some ",") model task = []
  /\ (forall given m,
        given = None \/ given = Some EmptyString -> m <> EmptyString ->
        main_candidates given (Some m) task = [m])
  /\ (forall given named,
        given = None \/ given = Some EmptyString ->
        named = None \/ named = Some EmptyString ->
        main_candidates given named task = _auto_candidates task)
  /\ main_candidates None None task = _auto_candidates task
  /\ compare_models max_fanout candidates
     = firstn (Z.to_nat (Z.max 1 max_fanout)) candidates
  /\ length (compare_models max_fanout candidates)
     = Nat.min (Z.to_nat (Z.max 1 max_fanout)) (length candidates)
  /\ (candidates <> [] -> head (compare_models max_fanout candidates) = head candidates).
Proof.
  split.
  { unfold explicit_candidates. apply List.Forall_forall.
    intros c [Hc Hne]%filter_In. apply in_map_iff in Hc as (part & <- & _).
    split; [now apply nonempty_true | apply strip_idem]. }
  split.
  { intros parts Hne Hparts. unfold explicit_candidates.
    now rewrite (split_on_join ","%char parts Hne Hparts). }
  split.
  { intros Hne. unfold main_candidates.
    assert (or_str (Some arg) EmptyString = arg) as ->
      by (cbn [or_str]; destruct (String.eqb_spec arg EmptyString); congruence).
    now rewrite (proj2 (nonempty_true _) Hne). }
  split; [reflexivity|].
  split.
  { intros given m Hg Hm. unfold main_candidates.
    assert (or_str given EmptyString = EmptyString) as -> by (now destruct Hg as [->| ->]).
    assert (or_str (Some m) EmptyString = m) as ->
      by (cbn [or_str]; destruct (String.eqb_spec m EmptyString); congruence).
    cbn [nonempty String.eqb negb]. now rewrite (proj2 (nonempty_true _) Hm). }
  split.
  { intros given named Hg Hn. unfold main_candidates.
    assert (or_str given EmptyString = EmptyString) as -> by (now destruct Hg as [->| ->]).
    assert (or_str named EmptyString = EmptyString) as -> by (now destruct Hn as [->| ->]).
    reflexivity. }
  split; [reflexivity|].
  split; [apply compare_models_firstn|].
  split; [rewrite compare_models_firstn; apply length_firstn|].
  intros Hne. rewrite compare_models_firstn.
  destruct candidates as [|c cs]; [congruence|].
  destruct (Z.to_nat (Z.max 1 max_fanout)) eqn:E; [lia | reflexivity].
Qed.

End CandidateOptions.

(** * The fingerprint *)

Section Fingerprint.

Import cognitive_system.

Lemma length_round st kw : length (SHA256.round st kw) = length st.
Proof.
  unfold SHA256.round.
  destruct st as [|a [|b [|c [|d [|e [|f [|g [|h [|i st]]]]]]]]]; reflexivity.
Qed.

Lemma length_fold_round kws : forall st,
  length (fold_left SHA256.round kws st) = length st.
Proof.
  induction kws as [|kw kws IH]; intros st; [reflexivity|].
  cbn [fold_left]. now rewrite IH, length_round.
Qed.

Lemma length_compress st block : length (SHA256.compress st block) = length st.
Proof.
  unfold SHA256.compress. cbv zeta.
  rewrite length_map, length_combine, length_fold_round. lia.
Qed.

Lemma length_blocks fuel : forall bytes st,
  length (SHA256.blocks fuel bytes st) = length st.
Proof.
  induction fuel as [|fuel IH]; intros bytes st; [reflexivity|].
  cbn [SHA256.blocks]. destruct bytes; [reflexivity|].
  now rewrite IH, length_compress.
Qed.

Lemma length_flat_map_hex ws :
  length (flat_map SHA256.hex_word ws) = (8 * length ws)%nat.
Proof.
  induction ws as [|x ws IH]; [reflexivity|].
  cbn [flat_map]. rewrite length_app, IH. unfold SHA256.hex_word.
  rewrite length_map, length_rev, length_seq. cbn [length]. lia.
Qed.

Lemma length_string_of_list l : String.length (string_of_list_ascii l) = length l.
Proof. induction l as [|c l IH]; [reflexivity|]. cbn. now rewrite IH. Qed.

Lemma all_chars_string_of_list P l :
  Forall (fun c => P c = true) l -> all_chars P (string_of_list_ascii l) = true.
Proof. induction 1 as [|c l Hc _ IH]; [reflexivity|]. cbn. now rewrite Hc, IH. Qed.


End Fingerprint.

(** * Runs of the further properties *)

Section MoreRuns.

Import llm_adapters llm_adapters_more qtmos_server cognitive_system
       cognitive_system_login MoreExamples.

Lemma healthy_reply_witness :
  fst (_run_puter_bridge_with_reauth cfg_bridge (with_bridge (fun _ => chat_reply "hello"))
         (chat_argv "claude-opus-4-6" "hi") world_with_token)
  = Ok (PDict [("ok", PBool true); ("content", PStr "hello")]).
Proof.
  assert (is_Some (files world_with_token !! PUTER_NODE_BRIDGE)) as Hb
    by (vm_compute; eexists; reflexivity).
  assert (cached_token (environ world_with_token) <> EmptyString) as Ht
    by (vm_compute; discriminate).
  assert (_run_puter_node_bridge cfg_bridge (with_bridge (fun _ => chat_reply "hello"))
            (chat_argv "claude-opus-4-6" "hi") true world_with_token
          = (Ok (PDict [("ok", PBool true); ("content", PStr "hello")]),
             snd (_run_puter_node_bridge cfg_bridge
                    (with_bridge (fun _ => chat_reply "hello"))
                    (chat_argv "claude-opus-4-6" "hi") true world_with_token))) as Hrun
    by (vm_compute; reflexivity).
  destruct (healthy_reply_needs_no_login cfg_bridge
              (with_bridge (fun _ => chat_reply "hello"))
              (chat_argv "claude-opus-4-6" "hi") world_with_token _ _
              Hb Ht Hrun eq_refl) as [Hre _].
  rewrite Hre. reflexivity.
Defined.

Lemma auth_failure_witness :
  _is_bridge_auth_failure
    (PDict [("ok", PBool false); ("error", PStr "invalid_token_placeholder")]) = true
  /\ exists d,
       PDict [("ok", PBool false); ("error", PStr "invalid_token_placeholder")] = PDict d
       /\ (truthy (dict_get d "error") = true \/ truthy (dict_get d "detail") = true).
Proof.
  assert (_is_bridge_auth_failure
            (PDict [("ok", PBool false); ("error", PStr "invalid_token_placeholder")])
          = true) as H by reflexivity.
  split; [exact H|]. exact (auth_failure_needs_error_or_detail _ H).
Defined.


Lemma first_assignment_witness :
  environ (snd (_load_env_fallback ".env" world_with_project_env)) !! "OLLAMA_MODEL"
  = Some "mistral".
Proof.
  assert (loadable (read_lines (files world_with_project_env !! ".env"))) as Hl.
  { intros line key val Hin E. vm_compute in Hin.
    destruct Hin as [<-|[<-|[<-|[]]]]; vm_compute in E; try discriminate;
      injection E as <- <-; reflexivity. }
  assert (environ world_with_project_env !! "OLLAMA_MODEL" = None) as Hk by reflexivity.
  destruct (env_file_first_assignment_wins ".env" "OLLAMA_MODEL" world_with_project_env
              Hl Hk) as [H _].
  rewrite H. reflexivity.
Defined.

Lemma token_present_witness :
  cached_token {[ "PUTER_AUTH_TOKEN" := " tok " ]} <> EmptyString
  /\ _token_present {[ "PUTER_AUTH_TOKEN" := " tok " ]} = true.
Proof.
  assert (cached_token {[ "PUTER_AUTH_TOKEN" := " tok " ]} <> EmptyString) as H
    by (vm_compute; discriminate).
  split; [exact H|]. exact (cached_token_is_reported_present _ H).
Defined.

Lemma ask_ollama_model_witness :
  exists out evs,
    ask cfg_keyed all_up (mkAskRequest "hi" (Some "Ollama/llama3:latest") true)
        world_with_token
    = (Ok out, after world_with_token evs)
    /\ forallb is_ollama_post evs = true.
Proof.
  destruct (ask_with_an_ollama_model_stays_local cfg_keyed all_up
              (mkAskRequest "hi" (Some "Ollama/llama3:latest") true) world_with_token
              eq_refl) as (out & evs & Hrun & Hposts & _).
  now exists out, evs.
Defined.



Lemma extracted_token_witness :
  _extract_puter_token no_urlparse no_parse_qs no_unquote "token= a b c "
  = Some (Some "abc")
  /\ "abc" <> EmptyString /\ no_space "abc" = true.
Proof.
  assert (_extract_puter_token no_urlparse no_parse_qs no_unquote "token= a b c "
          = Some (Some "abc")) as H by reflexivity.
  split; [exact H|].
  exact (extracted_token_is_normalized no_urlparse no_parse_qs no_unquote _ _ H).
Defined.

Lemma pasted_token_witness :
  _extract_puter_token no_urlparse no_parse_qs no_unquote
    (key_line "PUTER_AUTH_TOKEN" "tok") = Some (Some "tok")
  /\ _extract_puter_token no_urlparse no_parse_qs no_unquote (" t o" +:+ LF +:+ "k ")
     = Some (none_if_empty (remove_ws (" t o" +:+ LF +:+ "k "))).
Proof.
  destruct (pasted_token_is_read_back no_urlparse no_parse_qs no_unquote
              "PUTER_AUTH_TOKEN" "tok" (" t o" +:+ LF +:+ "k ")) as [H1 H2].
  split.
  - apply H1; [now left | discriminate | reflexivity | reflexivity].
  - apply H2; reflexivity.
Defined.

Lemma earlier_sink_is_plain :
  loadable (read_lines (files world_with_sink !! LLM_ENV_PATH))
  /\ plainly_assigned "PUTER_AUTH_TOKEN" (read_lines (files world_with_sink !! LLM_ENV_PATH))
  /\ token_lines_plain (read_lines (files world_with_sink !! LLM_ENV_PATH)).
Proof.
  split; [|split].
  - intros line key val Hin E. vm_compute in Hin.
    destruct Hin as [<-|[<-|[]]]; vm_compute in E; injection E as <- <-; reflexivity.
  - intros line v Hin E. vm_compute in Hin.
    destruct Hin as [<-|[<-|[]]]; [reflexivity|]. vm_compute in E. discriminate.
  - intros line t Hin E. vm_compute in Hin.
    destruct Hin as [<-|[<-|[]]]; [reflexivity|]. vm_compute in E. discriminate.
Defined.

Lemma next_start_witness :
  environ (snd (_load_env_fallback LLM_ENV_PATH
                  (mkWorld ∅ (files (snd (puter_login_store "tok" world_with_sink))) [])))
    !! "PUTER_AUTH_TOKEN" = Some "tok".
Proof.
  destruct earlier_sink_is_plain as (Hl & Hp & _).
  exact (proj1 (stored_token_is_loaded_at_next_start "tok" world_with_sink ∅ []
                  eq_refl eq_refl eq_refl Hl Hp eq_refl)).
Defined.


End MoreRuns.
